(** * PitchSnitch: the prompt builder and the response interpreter

    A shallow embedding of [HackathonIdeaCoach] from [app.py]:
    [_build_analysis_prompt], [_parse_claude_response] and
    [_create_empty_result], together with the parts of the Python run time
    they rest on ([str.find], [str.rfind], slicing, [json.loads], keyword
    binding of a dataclass constructor, [sum] and true division).

    Conventions of the model.
    - A Python [str] is a [string]; a character outside ASCII is carried as
      the bytes of its UTF-8 form.  No such byte equals an ASCII character, so
      [find], [rfind] and slicing on the braces select the same text as they do
      on code points.
    - A Python object that comes out of [json.loads] is a [pyval].  The fields
      of the dataclasses are not checked against their annotations by Python,
      so the fields filled from a reply are [pyval]s.
    - A Python [float] is a [pyfloat]: a finite one is the rational it is,
      and arithmetic rounds to the nearest binary64 number, to an infinite
      one beyond the range.  The sign of a zero is not kept.
    - An exception is a value of [exn]; code that may raise lives in the
      [result] monad. *)

From Stdlib Require Import String Ascii List ZArith QArith Qabs Qround Qpower Bool Lia Lqa.
From Stdlib Require Import DecimalString DecimalZ.
Import ListNotations.

Local Open Scope string_scope.
Local Open Scope Z_scope.

(** ** Exceptions *)

Inductive exn : Type :=
| JSONDecodeError
| KeyError
| TypeError
| AttributeError
| ZeroDivisionError
| OverflowError
| RecursionError
| APIError.

Definition result (A : Type) : Type := (exn + A)%type.

Definition ret {A : Type} (a : A) : result A := inr a.
Definition raise {A : Type} (e : exn) : result A := inl e.
Definition bind {A B : Type} (m : result A) (k : A -> result B) : result B :=
  match m with
  | inl e => inl e
  | inr a => k a
  end.

Declare Scope result_scope.
Delimit Scope result_scope with result.
Notation "x <- m ;; k" := (bind m (fun x => k))
  (at level 61, m at next level, right associativity) : result_scope.
Notation "' pat <- m ;; k" := (bind m (fun x => match x with pat => k end))
  (at level 61, pat pattern, m at next level, right associativity) : result_scope.
Local Open Scope result_scope.

Fixpoint mapM {A B : Type} (f : A -> result B) (l : list A) : result (list B) :=
  match l with
  | [] => ret []
  | a :: l' => b <- f a ;; bs <- mapM f l' ;; ret (b :: bs)
  end.

(** ** Python strings *)

Module PyStr.

Definition quote : ascii := "034"%char.
Definition newline : ascii := "010"%char.

(** [s.find(c)] for a one-character [c]: the least index, or -1. *)
Fixpoint find (c : ascii) (s : string) : Z :=
  match s with
  | EmptyString => -1
  | String a r =>
      if Ascii.eqb a c then 0
      else let i := find c r in if i <? 0 then -1 else i + 1
  end.

(** [s.rfind(c)] for a one-character [c]: the greatest index, or -1. *)
Fixpoint rfind (c : ascii) (s : string) : Z :=
  match s with
  | EmptyString => -1
  | String a r =>
      let i := rfind c r in
      if 0 <=? i then i + 1
      else if Ascii.eqb a c then 0 else -1
  end.

(** How a slice bound is clipped: a negative bound counts from the end. *)
Definition clip (len i : Z) : Z :=
  if i <? 0 then Z.max (i + len) 0 else Z.min i len.

(** [s[start:stop]]. *)
Definition slice (s : string) (start stop : Z) : string :=
  let len := Z.of_nat (String.length s) in
  let lo := clip len start in
  let hi := clip len stop in
  if lo <? hi then substring (Z.to_nat lo) (Z.to_nat (hi - lo)) s else "".

(** [c in s]. *)
Fixpoint mem (c : ascii) (s : string) : bool :=
  match s with
  | EmptyString => false
  | String a r => Ascii.eqb a c || mem c r
  end.

(** [str(n)] for an [int]. *)
Definition of_int (n : Z) : string := NilEmpty.string_of_int (Z.to_int n).

Definition startswith (p s : string) : bool := String.prefix p s.

End PyStr.

(** ** Python values *)

Inductive pyfloat : Type :=
| FNaN
| FInf (neg : bool)
| FFin (q : Q).

Unset Elimination Schemes.
Inductive pyval : Type :=
| PyNone
| PyBool (b : bool)
| PyInt (z : Z)
| PyFloat (f : pyfloat)
| PyStr (s : string)
| PyList (l : list pyval)
| PyDict (kvs : list (string * pyval)).
Set Elimination Schemes.

Module Py.

(** *** Floats

    A finite float is the rational it is; each operation gives the binary64
    number nearest to the real result, the one with an even mantissa of two
    that are as near. *)

(** [2 ^ e] for an integer [e] of any sign. *)
Definition pow2 (e : Z) : Q := (2 ^ e)%Q.

(** The integer nearest to [q], the even one of two that are as near. *)
Definition round_half_even (q : Q) : Z :=
  let f := Qfloor q in
  match Qcompare (q - inject_Z f) (1 # 2) with
  | Lt => f
  | Gt => f + 1
  | Eq => if Z.even f then f else f + 1
  end.

(** The exponent of a real other than 0: the integer part of the binary
    logarithm of its absolute value. *)
Definition ilog2 (q : Q) : Z :=
  let e0 := Z.log2 (Z.abs (Qnum q)) - Z.log2 (Zpos (Qden q)) in
  if Qle_bool (pow2 e0) (Qabs q) then e0 else e0 - 1.

(** The multiple of [2 ^ e] nearest to [q]. *)
Definition round_at (e : Z) (q : Q) : Q :=
  Qred (inject_Z (round_half_even (q * pow2 (- e))) * pow2 e).

(** Rounding to 53 significant bits, whatever the exponent. *)
Definition round53 (q : Q) : Q :=
  if Qeq_bool q 0 then 0%Q else round_at (ilog2 q - 52) q.

(** Rounding to binary64 within its range: 53 significant bits, and no bit
    below [2 ^ -1074], so that a real near 0 loses bits or becomes 0. *)
Definition round64 (q : Q) : Q :=
  if Qeq_bool q 0 then 0%Q else round_at (Z.max (ilog2 q - 52) (-1074)) q.

(** A real at least this large in absolute value rounds past the largest
    binary64 number. *)
Definition float_overflow_bound : Z := 2 ^ 1024 - 2 ^ 970.

Definition overflows (q : Q) : bool :=
  Qle_bool (inject_Z float_overflow_bound) (Qabs q).

Definition is_neg (q : Q) : bool := Qnum q <? 0.

(** The float a real number is read as: the nearest one, infinite beyond the
    range. *)
Definition float_of_Q (q : Q) : pyfloat :=
  if overflows q then FInf (is_neg q) else FFin (round64 q).

(** [float(n)] for an [int], as done implicitly in mixed arithmetic. *)
Definition float_of_int (n : Z) : result pyfloat :=
  if overflows (inject_Z n) then raise OverflowError
  else ret (FFin (round64 (inject_Z n))).

Definition fadd (a b : pyfloat) : pyfloat :=
  match a, b with
  | FNaN, _ | _, FNaN => FNaN
  | FInf s, FInf t => if Bool.eqb s t then FInf s else FNaN
  | FInf s, FFin _ | FFin _, FInf s => FInf s
  | FFin x, FFin y => float_of_Q (x + y)%Q
  end.

(** [a / b] for floats [a] and [b], [b] finite and other than 0. *)
Definition fdiv (a b : pyfloat) : pyfloat :=
  match a, b with
  | FFin x, FFin y => float_of_Q (x / y)%Q
  | FInf s, FFin y => FInf (xorb s (is_neg y))
  | _, _ => FNaN
  end.

(** *** Numbers *)

Inductive number : Type :=
| NInt (z : Z)
| NFloat (f : pyfloat).

(** The operand of an arithmetic operator; [bool] is a subclass of [int]. *)
Definition as_number (v : pyval) : result number :=
  match v with
  | PyBool b => ret (NInt (if b then 1 else 0))
  | PyInt z => ret (NInt z)
  | PyFloat f => ret (NFloat f)
  | _ => raise TypeError
  end.

(** [a + b] on numbers. *)
Definition add (a b : pyval) : result pyval :=
  x <- as_number a ;;
  y <- as_number b ;;
  match x, y with
  | NInt m, NInt n => ret (PyInt (m + n))
  | NInt m, NFloat g => f <- float_of_int m ;; ret (PyFloat (fadd f g))
  | NFloat f, NInt n => g <- float_of_int n ;; ret (PyFloat (fadd f g))
  | NFloat f, NFloat g => ret (PyFloat (fadd f g))
  end.

(** [sum(l)]: a left fold of [+] from the [int] 0, each addition of floats
    rounded.  (CPython from 3.12 on also makes up for the rounding errors of
    the earlier additions of floats, which changes no sum of numbers that
    are added without rounding.) *)
Fixpoint sum_from (acc : pyval) (l : list pyval) : result pyval :=
  match l with
  | [] => ret acc
  | v :: l' => acc' <- add acc v ;; sum_from acc' l'
  end.

Definition sum (l : list pyval) : result pyval := sum_from (PyInt 0) l.

(** [a / n] for an [int] [n]: true division, whose value is a float.  The
    quotient of two [int]s is rounded once.  (It is rounded to 53 bits: a
    quotient of [int]s below [2 ^ -1022], where binary64 has fewer, takes a
    divisor above [2 ^ 1022], and [n] is the length of a list.)  A float is
    divided by [n] made a float. *)
Definition truediv (a : pyval) (n : Z) : result pyfloat :=
  x <- as_number a ;;
  match x with
  | NInt m =>
      if n =? 0 then raise ZeroDivisionError
      else
        let q := (inject_Z m / inject_Z n)%Q in
        if overflows q then raise OverflowError
        else ret (FFin (round53 q))
  | NFloat f =>
      g <- float_of_int n ;;
      if n =? 0 then raise ZeroDivisionError
      else ret (fdiv f g)
  end.

(** The sum of integers, as a mathematical one. *)
Definition Zsum (zs : list Z) : Z := fold_right Z.add 0 zs.

(** *** Dictionaries: association lists in insertion order, keys unique *)

Fixpoint lookup (k : string) (kvs : list (string * pyval)) : option pyval :=
  match kvs with
  | [] => None
  | (k', v) :: kvs' => if String.eqb k' k then Some v else lookup k kvs'
  end.

(** [d[k] = v]: a key already there keeps its place and takes the value. *)
Fixpoint setitem (k : string) (v : pyval) (kvs : list (string * pyval))
  : list (string * pyval) :=
  match kvs with
  | [] => [(k, v)]
  | (k', v') :: kvs' =>
      if String.eqb k' k then (k', v) :: kvs' else (k', v') :: setitem k v kvs'
  end.

(** [dict(pairs)]. *)
Definition dict_of_pairs (pairs : list (string * pyval)) : list (string * pyval) :=
  fold_left (fun d kv => setitem (fst kv) (snd kv) d) pairs [].

Definition keys (kvs : list (string * pyval)) : list string := map fst kvs.

(** [obj[k]] for a string [k]. *)
Definition getitem (obj : pyval) (k : string) : result pyval :=
  match obj with
  | PyDict kvs =>
      match lookup k kvs with
      | Some v => ret v
      | None => raise KeyError
      end
  | _ => raise TypeError
  end.

(** [obj.get(k, default)]. *)
Definition get (obj : pyval) (k : string) (default : pyval) : result pyval :=
  match obj with
  | PyDict kvs =>
      match lookup k kvs with
      | Some v => ret v
      | None => ret default
      end
  | _ => raise AttributeError
  end.

(** The items [for x in obj] runs over: the elements of a list, the keys of
    a dictionary, the characters of a string (here one item per [ascii]; the
    only use below rejects every string item alike). *)
Definition iter (obj : pyval) : result (list pyval) :=
  match obj with
  | PyList l => ret l
  | PyDict kvs => ret (map PyStr (keys kvs))
  | PyStr s => ret (map (fun c => PyStr (String c "")) (list_ascii_of_string s))
  | _ => raise TypeError
  end.

End Py.

(** ** [json.loads]

    The decoder of Python's [json] module in its default configuration
    (strict strings, [NaN] and [Infinity] accepted, the last of several equal
    keys kept).  It is library code, not code of [app.py]; the model follows
    the scanner's grammar.  The interpreter's limits on recursion depth and on
    the number of digits of an integer are not modelled: the recursion runs on
    fuel, and [loads] gives it more than any text can use. *)

Module Json.

Import PyStr.

Definition is_ws (c : ascii) : bool :=
  Ascii.eqb c " " || Ascii.eqb c "009" || Ascii.eqb c "010" || Ascii.eqb c "013".

Fixpoint skip_ws (s : string) : string :=
  match s with
  | String c r => if is_ws c then skip_ws r else s
  | EmptyString => s
  end.

Definition code (c : ascii) : Z := Z.of_N (N_of_ascii c).
Definition chr (n : Z) : ascii := ascii_of_N (Z.to_N n).

Definition is_digit (c : ascii) : bool := (48 <=? code c) && (code c <=? 57).

Definition hex_val (c : ascii) : option Z :=
  let n := code c in
  if (48 <=? n) && (n <=? 57) then Some (n - 48)
  else if (65 <=? n) && (n <=? 70) then Some (n - 55)
  else if (97 <=? n) && (n <=? 102) then Some (n - 87)
  else None.

Definition hex4 (a b c d : ascii) : option Z :=
  match hex_val a, hex_val b, hex_val c, hex_val d with
  | Some x, Some y, Some z, Some w => Some (((x * 16 + y) * 16 + z) * 16 + w)
  | _, _, _, _ => None
  end.

(** The UTF-8 bytes of a code point (a lone surrogate takes three). *)
Definition utf8 (cp : Z) : string :=
  if cp <? 128 then String (chr cp) ""
  else if cp <? 2048 then
    String (chr (192 + cp / 64)) (String (chr (128 + cp mod 64)) "")
  else if cp <? 65536 then
    String (chr (224 + cp / 4096))
      (String (chr (128 + (cp / 64) mod 64)) (String (chr (128 + cp mod 64)) ""))
  else
    String (chr (240 + cp / 262144))
      (String (chr (128 + (cp / 4096) mod 64))
         (String (chr (128 + (cp / 64) mod 64)) (String (chr (128 + cp mod 64)) ""))).

Definition is_high_surrogate (u : Z) : bool := (55296 <=? u) && (u <=? 56319).
Definition is_low_surrogate (u : Z) : bool := (56320 <=? u) && (u <=? 57343).

(** The low half of a surrogate pair written as a second [\u] escape. *)
Definition low_surrogate_escape (s : string) : option Z :=
  match s with
  | String b (String u (String g1 (String g2 (String g3 (String g4 _))))) =>
      if Ascii.eqb b "\" && Ascii.eqb u "u" then
        match hex4 g1 g2 g3 g4 with
        | Some u2 => if is_low_surrogate u2 then Some u2 else None
        | None => None
        end
      else None
  | _ => None
  end.

Definition simple_escape (e : ascii) : option ascii :=
  if Ascii.eqb e quote then Some quote
  else if Ascii.eqb e "\" then Some "\"%char
  else if Ascii.eqb e "/" then Some "/"%char
  else if Ascii.eqb e "b" then Some "008"%char
  else if Ascii.eqb e "f" then Some "012"%char
  else if Ascii.eqb e "n" then Some "010"%char
  else if Ascii.eqb e "r" then Some "013"%char
  else if Ascii.eqb e "t" then Some "009"%char
  else None.

(** [scanstring], entered after the opening quote: the decoded string and
    the text after the closing quote. *)
Fixpoint scanstring (s : string) : result (string * string) :=
  match s with
  | EmptyString => raise JSONDecodeError
  | String c r =>
      if Ascii.eqb c quote then ret ("", r)
      else if Ascii.eqb c "\" then
        match r with
        | EmptyString => raise JSONDecodeError
        | String e r1 =>
            if Ascii.eqb e "u" then
              match r1 with
              | String h1 (String h2 (String h3 (String h4 r2))) =>
                  match hex4 h1 h2 h3 h4 with
                  | None => raise JSONDecodeError
                  | Some uni =>
                      match
                        (if is_high_surrogate uni then low_surrogate_escape r2 else None),
                        r2
                      with
                      | Some uni2, String _ (String _ (String _ (String _ (String _ (String _ r3))))) =>
                          '(str, rest) <- scanstring r3 ;;
                          ret (utf8 (65536 + (uni - 55296) * 1024 + (uni2 - 56320)) ++ str, rest)
                      | _, _ =>
                          '(str, rest) <- scanstring r2 ;;
                          ret (utf8 uni ++ str, rest)
                      end
                  end
              | _ => raise JSONDecodeError
              end
            else
              match simple_escape e with
              | Some ch => '(str, rest) <- scanstring r1 ;; ret (String ch str, rest)
              | None => raise JSONDecodeError
              end
        end
      else if code c <? 32 then raise JSONDecodeError
      else '(str, rest) <- scanstring r ;; ret (String c str, rest)
  end.

(** *** Numbers: an optional minus, an integer part, an optional fraction
    and an optional exponent *)

Fixpoint span_digits (s : string) : string * string :=
  match s with
  | String c r =>
      if is_digit c then let '(ds, rest) := span_digits r in (String c ds, rest)
      else ("", s)
  | EmptyString => ("", s)
  end.

Fixpoint Z_of_digits (acc : Z) (ds : string) : Z :=
  match ds with
  | EmptyString => acc
  | String c r => Z_of_digits (10 * acc + (code c - 48)) r
  end.

(** The integer part: a lone [0], or digits that do not start with [0]. *)
Definition int_part (s : string) : option (string * string) :=
  match s with
  | String c r =>
      if Ascii.eqb c "0" then Some ("0", r)
      else if is_digit c then Some (span_digits s)
      else None
  | EmptyString => None
  end.

(** The fraction, when a dot and at least one digit follow. *)
Definition frac_part (s : string) : option (string * string) :=
  match s with
  | String c r =>
      if Ascii.eqb c "." then
        match span_digits r with
        | (EmptyString, _) => None
        | (ds, rest) => Some (ds, rest)
        end
      else None
  | EmptyString => None
  end.

(** The digits of an exponent with its sign already read. *)
Definition exp_digits (neg : bool) (s : string) : option (Z * string) :=
  match span_digits s with
  | (EmptyString, _) => None
  | (ds, rest) => Some ((if neg then - Z_of_digits 0 ds else Z_of_digits 0 ds), rest)
  end.

(** The exponent, when [e] or [E], an optional sign and a digit follow. *)
Definition exp_part (s : string) : option (Z * string) :=
  match s with
  | String c r =>
      if Ascii.eqb c "e" || Ascii.eqb c "E" then
        match r with
        | String sg r' =>
            if Ascii.eqb sg "-" then exp_digits true r'
            else if Ascii.eqb sg "+" then exp_digits false r'
            else exp_digits false r
        | EmptyString => None
        end
      else None
  | EmptyString => None
  end.

(** The value of the decimal [m * 10 ^ e]. *)
Definition decimal (m e : Z) : Q :=
  if 0 <=? e then inject_Z (m * 10 ^ e)
  else Qmake m (Z.to_pos (10 ^ (- e))).

(** A number with its sign already read. *)
Definition number_after_sign (neg : bool) (s : string) : option (pyval * string) :=
  let sign (z : Z) := if neg then - z else z in
  match int_part s with
  | None => None
  | Some (ip, s2) =>
      match frac_part s2, exp_part s2 with
      | None, None => Some (PyInt (sign (Z_of_digits 0 ip)), s2)
      | None, Some (e, s3) =>
          Some (PyFloat (Py.float_of_Q (decimal (sign (Z_of_digits 0 ip)) e)), s3)
      | Some (fp, s3), _ =>
          let m := sign (Z_of_digits 0 (ip ++ fp)) in
          let scale := Z.of_nat (String.length fp) in
          match exp_part s3 with
          | None => Some (PyFloat (Py.float_of_Q (decimal m (- scale))), s3)
          | Some (e, s4) => Some (PyFloat (Py.float_of_Q (decimal m (e - scale))), s4)
          end
      end
  end.

Definition match_number (s : string) : option (pyval * string) :=
  match s with
  | String c r =>
      if Ascii.eqb c "-" then number_after_sign true r else number_after_sign false s
  | EmptyString => None
  end.

(** The constant [lit] with value [v], when the text starts with it. *)
Definition literal (lit : string) (v : pyval) (s : string) : option (pyval * string) :=
  if startswith lit s
  then Some (v, substring (String.length lit) (String.length s - String.length lit) s)
  else None.

Definition first_of {A : Type} (l : list (option A)) : option A :=
  fold_right (fun o acc => match o with Some _ => o | None => acc end) None l.

(** A value that is neither a string, an object nor an array. *)
Definition scan_atom (s : string) : result (pyval * string) :=
  match
    first_of [ literal "null" PyNone s;
               literal "true" (PyBool true) s;
               literal "false" (PyBool false) s;
               literal "NaN" (PyFloat FNaN) s;
               literal "Infinity" (PyFloat (FInf false)) s;
               literal "-Infinity" (PyFloat (FInf true)) s;
               match_number s ]
  with
  | Some r => ret r
  | None => raise JSONDecodeError
  end.

(** *** Values, objects and arrays *)

Fixpoint scan_once (fuel : nat) (s : string) {struct fuel} : result (pyval * string) :=
  match fuel with
  | O => raise RecursionError
  | S fuel' =>
      match s with
      | EmptyString => raise JSONDecodeError
      | String c r =>
          if Ascii.eqb c quote then
            '(str, rest) <- scanstring r ;; ret (PyStr str, rest)
          else if Ascii.eqb c "{" then
            match skip_ws r with
            | EmptyString => raise JSONDecodeError
            | String c1 r1 as s1 =>
                if Ascii.eqb c1 "}" then ret (PyDict [], r1)
                else
                  '(pairs, rest) <- parse_pairs fuel' s1 ;;
                  ret (PyDict (Py.dict_of_pairs pairs), rest)
            end
          else if Ascii.eqb c "[" then
            match skip_ws r with
            | EmptyString => raise JSONDecodeError
            | String c1 r1 as s1 =>
                if Ascii.eqb c1 "]" then ret (PyList [], r1)
                else
                  '(items, rest) <- parse_items fuel' s1 ;;
                  ret (PyList items, rest)
            end
          else scan_atom s
      end
  end

(** The members of an object, entered at the quote of a key, up to and
    including the closing brace. *)
with parse_pairs (fuel : nat) (s : string) {struct fuel}
  : result (list (string * pyval) * string) :=
  match fuel with
  | O => raise RecursionError
  | S fuel' =>
      match s with
      | EmptyString => raise JSONDecodeError
      | String c r =>
          if negb (Ascii.eqb c quote) then raise JSONDecodeError
          else
            '(key, r1) <- scanstring r ;;
            match skip_ws r1 with
            | EmptyString => raise JSONDecodeError
            | String c2 r2 =>
                if negb (Ascii.eqb c2 ":") then raise JSONDecodeError
                else
                  '(v, r3) <- scan_once fuel' (skip_ws r2) ;;
                  match skip_ws r3 with
                  | EmptyString => raise JSONDecodeError
                  | String c4 r4 =>
                      if Ascii.eqb c4 "}" then ret ([(key, v)], r4)
                      else if Ascii.eqb c4 "," then
                        '(more, r5) <- parse_pairs fuel' (skip_ws r4) ;;
                        ret ((key, v) :: more, r5)
                      else raise JSONDecodeError
                  end
            end
      end
  end

(** The elements of an array, entered at the first element, up to and
    including the closing bracket. *)
with parse_items (fuel : nat) (s : string) {struct fuel}
  : result (list pyval * string) :=
  match fuel with
  | O => raise RecursionError
  | S fuel' =>
      '(v, r1) <- scan_once fuel' s ;;
      match skip_ws r1 with
      | EmptyString => raise JSONDecodeError
      | String c2 r2 =>
          if Ascii.eqb c2 "]" then ret ([v], r2)
          else if Ascii.eqb c2 "," then
            '(more, r3) <- parse_items fuel' (skip_ws r2) ;;
            ret (v :: more, r3)
          else raise JSONDecodeError
      end
  end.

(** [json.loads(s)]: one value, white space around it, nothing more. *)
Definition loads (s : string) : result pyval :=
  '(obj, rest) <- scan_once (2 * String.length s + 2) (skip_ws s) ;;
  match skip_ws rest with
  | EmptyString => ret obj
  | String _ _ => raise JSONDecodeError
  end.

(** What holds of a scan of the text [s]: the rest is shorter, and a
    failure is a decoding error. *)
Definition consumes {A : Type} (s : string) (m : result (A * string)) : Prop :=
  match m with
  | inr (_, rest) => (String.length rest < String.length s)%nat
  | inl e => e = JSONDecodeError
  end.

End Json.

(** ** The data classes of [app.py] *)

Record IdeaInput : Type := {
  idea : string;
  target_users : string;
  time_constraint : Z;
  team_size : Z;
  goals : string
}.

Record EvaluationScore : Type := {
  dimension : pyval;
  score : pyval;
  reasoning : pyval
}.

Record AnalysisResult : Type := {
  executive_summary : pyval;
  scores : list EvaluationScore;
  detailed_plan : pyval;
  risk_flags : pyval;
  build_checklist : pyval;
  tech_stack : pyval;
  pitch_deck : pyval;
  overall_score : pyfloat
}.

(** ** [HackathonIdeaCoach] *)

(** [self.evaluation_dimensions]. *)
Definition evaluation_dimensions : list string :=
  [ "Problem clarity";
    "User value";
    "Market size & urgency";
    "Differentiation/moat";
    "Technical feasibility in 48 hours";
    "Scalability path";
    "Data dependencies";
    "Risks & compliance" ].

(** *** [_build_analysis_prompt] *)

(** A text in which each backquote stands for a double quote. *)
Fixpoint backquoted (s : string) : string :=
  match s with
  | EmptyString => EmptyString
  | String c r => String (if Ascii.eqb c "`" then PyStr.quote else c) (backquoted r)
  end.

(** The text before the idea. *)
Definition prompt_head : string :=
  "
You are an expert hackathon mentor analyzing a team's idea. Provide a structured analysis.

IDEA: ".

(** The text between the idea and the target users. *)
Definition prompt_after_idea : string :=
  "
TARGET USERS: ".

(** The text between the target users and the time constraint. *)
Definition prompt_after_target_users : string :=
  "
TIME CONSTRAINT: ".

(** The text between the time constraint and the team size. *)
Definition prompt_after_time_constraint : string :=
  " hours
TEAM SIZE: ".

(** The text between the team size and the goals. *)
Definition prompt_after_team_size : string :=
  " people
GOALS: ".

(** The rest of the template: the dimensions, the pitch deck request and the
    JSON format.  The double quotes of the source are written as backquotes
    here and put back by [backquoted]. *)
Definition prompt_after_goals : string :=
  backquoted "

Analyze this idea across these 8 dimensions (score 0-5 each):
1. Problem clarity (0-5)
2. User value (0-5)
3. Market size & urgency (0-5)
4. Differentiation/moat (0-5)
5. Technical feasibility in 48 hours (0-5)
6. Scalability path (0-5)
7. Data dependencies (0-5)
8. Risks & compliance (0-5)

Also prepare detailed content for a 5-slide pitch deck presentation. Each slide should have substantial, well-developed content that teams can use directly in their presentations. Make the content comprehensive and compelling for hackathon judges.

Please respond in this exact JSON format:
{
    `executive_summary`: `2-3 sentence high-level assessment`,
    `scores`: [
        {`dimension`: `Problem clarity`, `score`: 4, `reasoning`: `Clear explanation`},
        // ... continue for all 8 dimensions
    ],
    `detailed_plan`: `Structured implementation plan with key milestones`,
    `risk_flags`: [`Risk 1`, `Risk 2`, `Risk 3`],
    `build_checklist`: [`Task 1`, `Task 2`, `Task 3`, `...`],
    `tech_stack`: {
        `Frontend`: [`React`, `TypeScript`, `Tailwind CSS`],
        `Backend`: [`Node.js`, `Express`, `PostgreSQL`],
        `AI/ML`: [`OpenAI API`, `Langchain`],
        `Infrastructure`: [`Vercel`, `Supabase`],
        `Tools`: [`Git`, `VS Code`, `Figma`]
    },
    `pitch_deck`: {
        `slide1_problem`: `Detailed problem statement (3-4 paragraphs): Start with a compelling hook, describe the pain points in detail, quantify the problem with statistics if possible, clearly define the target audience and their struggles, and explain why this problem matters now. Include emotional impact and urgency.`,
        `slide2_solution`: `Comprehensive solution description (3-4 paragraphs): Clearly explain your solution approach, detail 3-4 key features with specific benefits, highlight what makes your solution unique compared to alternatives, describe the user experience and journey, and explain the core value proposition with concrete examples.`,
        `slide3_techstack`: `Detailed technical approach (3-4 paragraphs): Explain your technology choices and why they're optimal for this problem, describe the system architecture and key components, highlight any innovative technical approaches or algorithms, discuss scalability and performance considerations, and mention specific frameworks, APIs, or tools that make your solution powerful.`,
        `slide4_market`: `Comprehensive market analysis (3-4 paragraphs): Provide market size data with specific numbers (TAM, SAM, SOM if possible), identify target customer segments with demographics, analyze competitors and your competitive advantages, discuss market timing and trends that favor your solution, and include validation evidence like user interviews or early traction.`,
        `slide5_business_model`: `Detailed business strategy (3-4 paragraphs): Clearly explain your revenue model with specific pricing strategy, describe customer acquisition channels and growth tactics, outline key partnerships and distribution strategies, provide financial projections or unit economics, discuss scalability plans and expansion opportunities, and explain your competitive moat and defensibility.`
    }
}
".

(** The f-string: the literal parts with the five fields between them. *)
Definition _build_analysis_prompt (idea_input : IdeaInput) : string :=
  prompt_head ++ idea idea_input
  ++ prompt_after_idea ++ target_users idea_input
  ++ prompt_after_target_users ++ PyStr.of_int (time_constraint idea_input)
  ++ prompt_after_time_constraint ++ PyStr.of_int (team_size idea_input)
  ++ prompt_after_team_size ++ goals idea_input
  ++ prompt_after_goals.

(** *** [_create_empty_result] *)

Definition _create_empty_result : AnalysisResult :=
  {| executive_summary := PyStr "Analysis failed";
     scores := [];
     detailed_plan := PyStr "";
     risk_flags := PyList [];
     build_checklist := PyList [];
     tech_stack := PyDict [];
     pitch_deck := PyDict [];
     overall_score := FFin 0 |}.

(** *** [_parse_claude_response] *)

(** The parameters of the [__init__] the dataclass decorator generates. *)
Definition EvaluationScore_fields : list string :=
  ["dimension"; "score"; "reasoning"].

(** The constructor called with the entries of [kw] as keyword arguments:
    [kw] has to be a mapping, each of its keys a parameter, and each parameter
    has to be given. *)
Definition EvaluationScore_init (kw : pyval) : result EvaluationScore :=
  match kw with
  | PyDict kvs =>
      if forallb (fun k => existsb (String.eqb k) EvaluationScore_fields) (Py.keys kvs)
      then
        match Py.lookup "dimension" kvs, Py.lookup "score" kvs, Py.lookup "reasoning" kvs with
        | Some d, Some s, Some r => ret {| dimension := d; score := s; reasoning := r |}
        | _, _, _ => raise TypeError
        end
      else raise TypeError
  | _ => raise TypeError
  end.

(** [response[start:end]] with [start] the first opening brace and [end] one
    past the last closing brace. *)
Definition json_str (response : string) : string :=
  let start := PyStr.find "{" response in
  let end_ := PyStr.rfind "}" response + 1 in
  PyStr.slice response start end_.

(** Lines 125 to 137: the result built from the decoded reply. *)
Definition result_of_data (data : pyval) : result AnalysisResult :=
  entries <- Py.getitem data "scores" ;;
  items <- Py.iter entries ;;
  scores_ <- mapM EvaluationScore_init items ;;
  total <- Py.sum (map score scores_) ;;
  overall <- Py.truediv total (Z.of_nat (List.length scores_)) ;;
  summary <- Py.getitem data "executive_summary" ;;
  plan <- Py.getitem data "detailed_plan" ;;
  risks <- Py.getitem data "risk_flags" ;;
  checklist <- Py.getitem data "build_checklist" ;;
  stack <- Py.get data "tech_stack" (PyDict []) ;;
  deck <- Py.get data "pitch_deck" (PyDict []) ;;
  ret {| executive_summary := summary;
         scores := scores_;
         detailed_plan := plan;
         risk_flags := risks;
         build_checklist := checklist;
         tech_stack := stack;
         pitch_deck := deck;
         overall_score := overall |}.

(** The body of the [try]: lines 120 to 123, then the lines above. *)
Definition parse_body (response : string) : result AnalysisResult :=
  data <- Json.loads (json_str response) ;;
  result_of_data data.

(** The method with its effect: the value returned, and the exceptions
    reported through [st.error]. *)
Definition run_parse_claude_response (response : string) : AnalysisResult * list exn :=
  match parse_body response with
  | inr r => (r, [])
  | inl e => (_create_empty_result, [e])
  end.

Definition _parse_claude_response (response : string) : AnalysisResult :=
  fst (run_parse_claude_response response).

(** *** [analyze_idea]

    The call of the remote model is a parameter: from the prompt it gives the
    text of the reply, or raises. *)
Definition analyze_idea (client : string -> result string) (idea_input : IdeaInput)
  : AnalysisResult :=
  let prompt := _build_analysis_prompt idea_input in
  match client prompt with
  | inr text => _parse_claude_response text
  | inl _ => _create_empty_result
  end.

(** ** The page: the parts of [main] that compute

    [main] draws the page with Streamlit.  What it computes on the way is
    modelled here: the guards before the analysis (lines 287 to 335), the
    test that lets the results be shown (line 338), the columns of the tech
    stack (lines 368 to 376), the keys of the check list (lines 380 and 381)
    and the paragraphs of a slide (lines 390 to 397, and the same for the
    other four slides).  The calls of Streamlit themselves are not.  Nothing
    in [main] catches an exception: where a function below gives [inl], the
    run of the page stops there. *)

Module PyText.

Definition bytes (l : list nat) : string :=
  string_of_list_ascii (map ascii_of_nat l).

(** The characters [str.isspace] is true of, in UTF-8. *)
Definition whitespace : list string :=
  map bytes
    [ [9];
      [10];
      [11];
      [12];
      [13];
      [28];
      [29];
      [30];
      [31];
      [32];
      [194; 133];
      [194; 160];
      [225; 154; 128];
      [226; 128; 128];
      [226; 128; 129];
      [226; 128; 130];
      [226; 128; 131];
      [226; 128; 132];
      [226; 128; 133];
      [226; 128; 134];
      [226; 128; 135];
      [226; 128; 136];
      [226; 128; 137];
      [226; 128; 138];
      [226; 128; 168];
      [226; 128; 169];
      [226; 128; 175];
      [226; 129; 159];
      [227; 128; 128] ]%nat.

Fixpoint drop (n : nat) (s : string) : string :=
  match n, s with
  | O, _ => s
  | S n', String _ r => drop n' r
  | S _, EmptyString => EmptyString
  end.

Definition rev (s : string) : string :=
  string_of_list_ascii (List.rev (list_ascii_of_string s)).

(** What is left of [s] when the texts of [ws] are taken off its start, one
    after the other, as long as one of them is there. *)
Fixpoint strip_prefixes (ws : list string) (fuel : nat) (s : string) : string :=
  match fuel with
  | O => s
  | S fuel' =>
      match List.find (fun w => String.prefix w s) ws with
      | Some w => strip_prefixes ws fuel' (drop (String.length w) s)
      | None => s
      end
  end.

(** [s.lstrip()], [s.rstrip()] and [s.strip()]. *)
Definition lstrip (s : string) : string :=
  strip_prefixes whitespace (String.length s) s.

Definition rstrip (s : string) : string :=
  rev (strip_prefixes (map rev whitespace) (String.length s) (rev s)).

Definition strip (s : string) : string := lstrip (rstrip s).

Definition cons_head (c : ascii) (l : list string) : list string :=
  match l with
  | h :: t => String c h :: t
  | [] => [String c ""]
  end.

(** [s.split('. ')]. *)
Fixpoint split_sentences (s : string) : list string :=
  match s with
  | EmptyString => [""]
  | String c r =>
      match r with
      | String c2 r' =>
          if Ascii.eqb c "." && Ascii.eqb c2 " " then "" :: split_sentences r'
          else cons_head c (split_sentences r)
      | EmptyString => cons_head c (split_sentences r)
      end
  end.

(** A byte that continues a character of several bytes. *)
Definition is_continuation (c : ascii) : bool :=
  (128 <=? Json.code c) && (Json.code c <? 192).

(** The characters of [s], each with all its bytes. *)
Fixpoint chars (s : string) : list string :=
  match s with
  | EmptyString => []
  | String c r =>
      match r with
      | String c2 _ =>
          if is_continuation c2 then cons_head c (chars r)
          else String c "" :: chars r
      | EmptyString => [String c ""]
      end
  end.

End PyText.

Module Page.

(** [bool(v)]. *)
Definition truthy (v : pyval) : bool :=
  match v with
  | PyNone => false
  | PyBool b => b
  | PyInt z => negb (z =? 0)
  | PyFloat (FFin q) => negb (Qeq_bool q 0)
  | PyFloat _ => true
  | PyStr s => negb (String.eqb s "")
  | PyList l => negb (Nat.eqb (List.length l) 0)
  | PyDict kvs => negb (Nat.eqb (List.length kvs) 0)
  end.

(** [f > 0] for a float [f]. *)
Definition positive (f : pyfloat) : bool :=
  match f with
  | FNaN => false
  | FInf neg => negb neg
  | FFin q => negb (Qle_bool q 0)
  end.

(** [enumerate(l, start)]. *)
Fixpoint enumerate {A : Type} (start : Z) (l : list A) : list (Z * A) :=
  match l with
  | [] => []
  | a :: l' => (start, a) :: enumerate (start + 1) l'
  end.

(** The items of a value that has a length and can be run over: the elements
    of a list, the keys of a dictionary, the characters of a string. *)
Definition sized_items (v : pyval) : result (list pyval) :=
  match v with
  | PyList l => ret l
  | PyDict kvs => ret (map PyStr (Py.keys kvs))
  | PyStr s => ret (map PyStr (PyText.chars s))
  | _ => raise TypeError
  end.

(** *** The guards of [main] and the test of line 338 *)

(** What the widgets of the form give. *)
Record Form : Type := {
  form_idea : string;
  form_target_users : string;
  form_time_constraint : Z;
  form_team_size : Z;
  form_goals : string;
  form_submitted : bool
}.

(** The error an analysis shows: from [analyze_idea] or from
    [_parse_claude_response]. *)
Inductive notice : Type :=
| ErrorAnalyzing (e : exn)
| ErrorParsing (e : exn).

(** [analyze_idea] with its effect: the value returned and the errors shown. *)
Definition run_analyze_idea (client : string -> result string) (idea_input : IdeaInput)
  : AnalysisResult * list notice :=
  match client (_build_analysis_prompt idea_input) with
  | inr text =>
      let '(r, errors) := run_parse_claude_response text in
      (r, map ErrorParsing errors)
  | inl e => (_create_empty_result, [ErrorAnalyzing e])
  end.

(** How a run of [main] ends. *)
Inductive page : Type :=
| KeyMissing
| FormOnly
| Analysed (r : AnalysisResult) (errors : list notice) (results_shown : bool).

(** Lines 287 to 338: [api_key] is what [os.getenv] gives. *)
Definition main (api_key : option string) (form : Form)
    (client : string -> result string) : page :=
  if negb (match api_key with Some k => negb (String.eqb k "") | None => false end)
  then KeyMissing
  else if form_submitted form
          && negb (String.eqb (form_idea form) "")
          && negb (String.eqb (form_target_users form) "")
          && negb (String.eqb (form_goals form) "")
  then
    let idea_input :=
      {| idea := form_idea form;
         target_users := form_target_users form;
         time_constraint := form_time_constraint form;
         team_size := form_team_size form;
         goals := form_goals form |} in
    let '(r, errors) := run_analyze_idea client idea_input in
    Analysed r errors (positive (overall_score r))
  else FormOnly.

(** *** The tech stack: lines 368 to 376 *)

(** [st.columns(n)]: the columns, as their numbers from 0. *)
Definition columns (n : Z) : list Z :=
  map Z.of_nat (seq 0 (Z.to_nat n)).

(** Lines 372 to 375 for one category: the number of columns asked for, and
    for each technology the column [tech_cols[i % 3]] it goes to, [None]
    where the index is out of range and Python raises [IndexError]. *)
Definition place_technologies (technologies : pyval)
  : result (Z * list (option Z * pyval)) :=
  items <- sized_items technologies ;;
  let n := Z.min (Z.of_nat (List.length items)) 3 in
  let tech_cols := columns n in
  ret (n, map (fun it => (nth_error tech_cols (Z.to_nat (fst it mod 3)), snd it))
            (enumerate 0 items)).

(** Lines 368 to 376: for each category with technologies, its layout. *)
Definition tech_stack_layout (stack : pyval)
  : result (list (string * (Z * list (option Z * pyval)))) :=
  if truthy stack then
    match stack with
    | PyDict kvs =>
        mapM (fun kv => placed <- place_technologies (snd kv) ;; ret (fst kv, placed))
             (filter (fun kv => truthy (snd kv)) kvs)
    | _ => raise AttributeError
    end
  else ret [].

(** *** The check list: lines 380 and 381 *)

(** The keys of the check boxes. *)
Definition checklist_keys (checklist : pyval) : result (list string) :=
  items <- sized_items checklist ;;
  ret (map (fun it => "task_" ++ PyStr.of_int (fst it)) (enumerate 1 items)).

(** *** A slide: lines 390 to 397 *)

(** The lines of the loop, from the paragraph of number [i] on. *)
Fixpoint paragraph_lines (i : Z) (paragraphs : list string) : list string :=
  match paragraphs with
  | [] => []
  | paragraph :: rest =>
      (if negb (String.eqb (PyText.strip paragraph) "")
       then [if i =? 0 then "**" ++ PyText.strip paragraph ++ ".**"
             else PyText.strip paragraph ++ "."]
       else [])
      ++ paragraph_lines (i + 1) rest
  end.

(** The texts given to [st.markdown] for a slide with the text [content]. *)
Definition slide_lines (content : string) : list string :=
  paragraph_lines 0 (PyText.split_sentences content).

(** *** The pitch deck: lines 387 to 445 *)

(** The keys of the five slides, each with the text shown when the deck has
    no such key. *)
Definition slides : list (string * string) :=
  [("slide1_problem", "Problem statement not available");
   ("slide2_solution", "Solution description not available");
   ("slide3_techstack", "Technical details not available");
   ("slide4_market", "Market analysis not available");
   ("slide5_business_model", "Business model not available")].

(** One slide: [pitch_deck.get(key, default)], then [content.split], which
    only a text has. *)
Definition slide (deck : pyval) (key default : string) : result (list string) :=
  content <- Py.get deck key (PyStr default) ;;
  match content with
  | PyStr s => ret (slide_lines s)
  | _ => raise AttributeError
  end.

(** The five slides, or [None] for the warning of line 445. *)
Definition pitch_deck_lines (deck : pyval) : result (option (list (list string))) :=
  if truthy deck then
    shown <- mapM (fun kd => slide deck (fst kd) (snd kd)) slides ;;
    ret (Some shown)
  else ret None.

End Page.

(** ** Notions of the specification *)

(** The result in which every field is empty or zero. *)
Definition all_empty_result : AnalysisResult :=
  {| executive_summary := PyStr "";
     scores := [];
     detailed_plan := PyStr "";
     risk_flags := PyList [];
     build_checklist := PyList [];
     tech_stack := PyDict [];
     pitch_deck := PyDict [];
     overall_score := FFin 0 |}.

(** The top-level fields a reply has to have. *)
Definition required_fields : list string :=
  ["executive_summary"; "scores"; "detailed_plan"; "risk_flags"; "build_checklist"].

(** A decoded reply lacks a required top-level field, or one of the entries of
    its scores lacks one of its three fields. *)
Definition lacks_required_field (kvs : list (string * pyval)) : Prop :=
  (exists k, In k required_fields /\ Py.lookup k kvs = None)
  \/ (exists items entry f,
        Py.lookup "scores" kvs = Some (PyList items)
        /\ In (PyDict entry) items
        /\ In f EvaluationScore_fields
        /\ Py.lookup f entry = None).

(** A call of [analyze_idea] takes a failure path: the client raises, or the
    body of the [try] of [_parse_claude_response] does. *)
Definition failure_path (client : string -> result string) (idea_input : IdeaInput) : Prop :=
  match client (_build_analysis_prompt idea_input) with
  | inl _ => True
  | inr text => exists e, parse_body text = inl e
  end.

(** The value of [d.get(k, {})] for a dictionary [d]. *)
Definition get_default (k : string) (kvs : list (string * pyval)) : pyval :=
  match Py.lookup k kvs with
  | Some v => v
  | None => PyDict []
  end.

(** The entry of a score as the schema has it: a mapping with the three keys
    and no other, whose score is an integer from 0 to 5.  (The values under
    the other two keys are not looked at by the code.) *)
Definition is_score_entry (v : pyval) : bool :=
  match v with
  | PyDict entry =>
      forallb (fun k => existsb (String.eqb k) EvaluationScore_fields) (Py.keys entry)
      && match Py.lookup "dimension" entry, Py.lookup "score" entry,
               Py.lookup "reasoning" entry with
         | Some _, Some (PyInt z), Some _ => (0 <=? z) && (z <=? 5)
         | _, _, _ => false
         end
  | _ => false
  end.

Definition present (k : string) (kvs : list (string * pyval)) : bool :=
  match Py.lookup k kvs with
  | Some _ => true
  | None => false
  end.

(** The required part of a reply: the scores are a non-empty array of entries
    of the schema, and the other four required fields are there. *)
Definition required_part_ok (kvs : list (string * pyval)) : bool :=
  match Py.lookup "scores" kvs with
  | Some (PyList (item :: items)) => forallb is_score_entry (item :: items)
  | _ => false
  end
  && present "executive_summary" kvs
  && present "detailed_plan" kvs
  && present "risk_flags" kvs
  && present "build_checklist" kvs.

(** A number that arithmetic with floats takes whatever it meets: a float, a
    boolean, or an integer of at most [2 ^ 53] in absolute value, which is a
    float as it is. *)
Definition is_plain_number (v : pyval) : bool :=
  match v with
  | PyInt z => Z.abs z <=? 2 ^ 53
  | PyBool _ | PyFloat _ => true
  | _ => false
  end.

(** How much of the range of the floats a plain number takes when it is an
    integer. *)
Definition magnitude (v : pyval) : Z :=
  match v with
  | PyInt z => Z.abs z
  | PyBool _ => 1
  | _ => 0
  end.

(** An entry the constructor takes, with a score that can be averaged: a
    mapping with the three keys and no other, whose score is such a number. *)
Definition is_usable_entry (v : pyval) : bool :=
  match v with
  | PyDict entry =>
      forallb (fun k => existsb (String.eqb k) EvaluationScore_fields) (Py.keys entry)
      && match Py.lookup "dimension" entry, Py.lookup "score" entry,
               Py.lookup "reasoning" entry with
         | Some _, Some s, Some _ => is_plain_number s
         | _, _, _ => false
         end
  | _ => false
  end.

(** The required part of a reply as the code needs it: the scores are a
    non-empty array of fewer than [2 ^ 53] usable entries, and the other
    four required fields are there. *)
Definition required_part_usable (kvs : list (string * pyval)) : bool :=
  match Py.lookup "scores" kvs with
  | Some (PyList (item :: items)) =>
      forallb is_usable_entry (item :: items)
      && (Z.of_nat (List.length (item :: items)) <? 2 ^ 53)
  | _ => false
  end
  && present "executive_summary" kvs
  && present "detailed_plan" kvs
  && present "risk_flags" kvs
  && present "build_checklist" kvs.

(** The keys of the fixed schema. *)
Definition schema_fields : list string :=
  required_fields ++ ["tech_stack"; "pitch_deck"].

(** The full fixed schema: the required part with eight scores, the tech stack
    and the pitch deck, and no other key. *)
Definition full_schema (kvs : list (string * pyval)) : bool :=
  required_part_ok kvs
  && match Py.lookup "scores" kvs with
     | Some (PyList items) => (List.length items =? 8)%nat
     | _ => false
     end
  && present "tech_stack" kvs
  && present "pitch_deck" kvs
  && forallb (fun k => existsb (String.eqb k) schema_fields) (Py.keys kvs).

(** The mapping a score stands for. *)
Definition entry_of (s : EvaluationScore) : list (string * pyval) :=
  [("dimension", dimension s); ("score", score s); ("reasoning", reasoning s)].

(** The mapping a result stands for, the derived overall score left out. *)
Definition payload_of (r : AnalysisResult) : list (string * pyval) :=
  [("executive_summary", executive_summary r);
   ("scores", PyList (map (fun s => PyDict (entry_of s)) (scores r)));
   ("detailed_plan", detailed_plan r);
   ("risk_flags", risk_flags r);
   ("build_checklist", build_checklist r);
   ("tech_stack", tech_stack r);
   ("pitch_deck", pitch_deck r)].

(** Two mappings with the same value, or none, under every key. *)
Definition same_mapping (d1 d2 : list (string * pyval)) : Prop :=
  forall k, Py.lookup k d1 = Py.lookup k d2.

(** The result reproduces the payload: field by field, and entry by entry in
    the scores. *)
Definition reproduces (kvs : list (string * pyval)) (r : AnalysisResult) : Prop :=
  (forall k, k <> "scores" -> Py.lookup k kvs = Py.lookup k (payload_of r))
  /\ exists items,
       Py.lookup "scores" kvs = Some (PyList items)
       /\ Forall2 (fun item s => exists entry,
                      item = PyDict entry /\ same_mapping entry (entry_of s))
            items (scores r).

(** A value that arithmetic takes. *)
Definition is_number (v : pyval) : bool :=
  match v with
  | PyBool _ | PyInt _ | PyFloat _ => true
  | _ => false
  end.

(** The real number a finite number stands for. *)
Definition value_of (v : pyval) : option Q :=
  match v with
  | PyBool b => Some (inject_Z (if b then 1 else 0))
  | PyInt z => Some (inject_Z z)
  | PyFloat (FFin q) => Some q
  | _ => None
  end.

Fixpoint values_of (vs : list pyval) : option (list Q) :=
  match vs with
  | [] => Some []
  | v :: vs' =>
      match value_of v, values_of vs' with
      | Some q, Some qs => Some (q :: qs)
      | _, _ => None
      end
  end.

Definition Qsum (qs : list Q) : Q := fold_right Qplus 0%Q qs.

(** The arithmetic mean of finite numbers: their sum over their count. *)
Definition arithmetic_mean (vs : list pyval) : option Q :=
  match values_of vs with
  | Some qs => Some (Qsum qs / inject_Z (Z.of_nat (List.length qs)))%Q
  | None => None
  end.

(** The integer a score that is an [int] is ([bool] is a subclass of it). *)
Definition integer_of (v : pyval) : option Z :=
  match v with
  | PyInt z => Some z
  | PyBool b => Some (if b then 1 else 0)
  | _ => None
  end.

Fixpoint integers_of (vs : list pyval) : option (list Z) :=
  match vs with
  | [] => Some []
  | v :: vs' =>
      match integer_of v, integers_of vs' with
      | Some z, Some zs => Some (z :: zs)
      | _, _ => None
      end
  end.

(** A multiple of [2 ^ -k]. *)
Definition on_grid (k : Z) (q : Q) : Prop :=
  exists m, (q == inject_Z m * Py.pow2 (- k))%Q.

(** Reals that binary64 adds without rounding, in any order: multiples of
    [2 ^ -k] whose absolute values add up to less than [2 ^ (53 - k)], so
    that every partial sum has at most 53 bits; and fewer than [2 ^ 53] of
    them, so that their number is a float. *)
Definition exactly_summable (k : Z) (qs : list Q) : Prop :=
  0 <= k <= 1074
  /\ Forall (on_grid k) qs
  /\ (Qsum (map Qabs qs) < Py.pow2 (53 - k))%Q
  /\ Z.of_nat (List.length qs) < 2 ^ 53.

(** The invariant of a result.  Without scores the overall score is 0.0.
    With scores, each is a number, and the overall score is what [sum] and
    [/] give for them:
    - for integers, the float nearest to their arithmetic mean, which is the
      mean up to one rounding, at most [2 ^ -53] of it away;
    - for numbers that are added without rounding, integers or floats, the
      float nearest to their arithmetic mean.
    For other floats the running sum is rounded at each step, or leaves the
    range, and the overall score is not their mean. *)
Definition mean_invariant (r : AnalysisResult) : Prop :=
  match scores r with
  | [] => overall_score r = FFin 0
  | _ :: _ =>
      let vs := map score (scores r) in
      Forall (fun v => is_number v = true) vs
      /\ (forall zs, integers_of vs = Some zs ->
            let mean := (inject_Z (Py.Zsum zs)
                         / inject_Z (Z.of_nat (List.length zs)))%Q in
            overall_score r = FFin (Py.round53 mean)
            /\ (Qabs (Py.round53 mean - mean) <= Qabs mean * (1 # 2 ^ 53))%Q)
      /\ (forall k qs mean,
            values_of vs = Some qs -> exactly_summable k qs ->
            arithmetic_mean vs = Some mean ->
            overall_score r = FFin (Py.round64 mean))
  end.

(** The text [v] occurs in the text [s]. *)
Definition occurs_in (v s : string) : Prop :=
  exists before after, s = before ++ v ++ after.

(** The texts of [labels] occur in [s] one after the other, in that order. *)
Fixpoint occur_in_order (labels : list string) (s : string) : Prop :=
  match labels with
  | [] => True
  | l :: ls => exists before after, s = before ++ l ++ after /\ occur_in_order ls after
  end.

(** The lines that list [labels], numbered from [k], each with the range of
    its score. *)
Fixpoint numbered (k : Z) (labels : list string) : string :=
  match labels with
  | [] => ""
  | l :: ls =>
      PyStr.of_int k ++ ". " ++ l ++ " (0-5)" ++ String PyStr.newline (numbered (k + 1) ls)
  end.


(** The result built from every field of a payload with no scores, as the
    specification has it: the overall score 0.0. *)
Definition populated_without_scores (kvs : list (string * pyval)) : AnalysisResult :=
  {| executive_summary := get_default "executive_summary" kvs;
     scores := [];
     detailed_plan := get_default "detailed_plan" kvs;
     risk_flags := get_default "risk_flags" kvs;
     build_checklist := get_default "build_checklist" kvs;
     tech_stack := get_default "tech_stack" kvs;
     pitch_deck := get_default "pitch_deck" kvs;
     overall_score := FFin 0 |}.

(** The text [v] is in the text [s], as a test. *)
Fixpoint contains (v s : string) : bool :=
  String.prefix v s
  || match s with
     | String _ r => contains v r
     | EmptyString => false
     end.

(** The key [k] as a JSON object has it: in quotes, with a colon after it. *)
Definition quoted_key (k : string) : string :=
  String PyStr.quote (k ++ String PyStr.quote ":").

(** The text [w] starts with a character other than a period. *)
Definition starts_without_dot (w : string) : bool :=
  match w with
  | String c _ => negb (Ascii.eqb c ".")
  | EmptyString => false
  end.

(** ** Sample inputs *)

(** A text in which each apostrophe stands for a double quote: replies are
    written this way below. *)
Fixpoint apostrophed (s : string) : string :=
  match s with
  | EmptyString => EmptyString
  | String c r => String (if Ascii.eqb c "'" then PyStr.quote else c) (apostrophed r)
  end.

Definition sample_idea : IdeaInput :=
  {| idea := "A bot that reviews pitches";
     target_users := "Hackathon teams";
     time_constraint := 48;
     team_size := 4;
     goals := "Win the demo day" |}.

Definition reply_without_plan : string :=
  apostrophed "{'executive_summary': 'Good', 'scores': [{'dimension': 'User value', 'score': 4, 'reasoning': 'Clear'}], 'risk_flags': [], 'build_checklist': []}".

Definition reply_without_reasoning : string :=
  apostrophed "{'executive_summary': 'Good', 'scores': [{'dimension': 'User value', 'score': 4}], 'detailed_plan': 'Plan', 'risk_flags': [], 'build_checklist': []}".

Definition reply_with_confidence : string :=
  apostrophed "{'executive_summary': 'Good', 'scores': [{'dimension': 'User value', 'score': 4, 'reasoning': 'Clear', 'confidence': 1}], 'detailed_plan': 'Plan', 'risk_flags': [], 'build_checklist': []}".

Definition reply_with_empty_scores : string :=
  apostrophed "{'executive_summary': 'Good', 'scores': [], 'detailed_plan': 'Plan', 'risk_flags': ['Late'], 'build_checklist': ['Start']}".



Definition reply_with_half_scores : string :=
  apostrophed "{'executive_summary': 'Good', 'scores': [{'dimension': 'User value', 'score': 4.5, 'reasoning': 'Clear'}, {'dimension': 'Data dependencies', 'score': 3, 'reasoning': 'Few'}], 'detailed_plan': 'Plan', 'risk_flags': ['Late'], 'build_checklist': ['Start']}".

Definition reply_with_large_scores : string :=
  apostrophed "{'executive_summary': 'Good', 'scores': [{'dimension': 'User value', 'score': 1.7e308, 'reasoning': 'Clear'}, {'dimension': 'Data dependencies', 'score': 1.7e308, 'reasoning': 'Few'}], 'detailed_plan': 'Plan', 'risk_flags': ['Late'], 'build_checklist': ['Start']}".

Definition reply_without_optional : string :=
  apostrophed "{'executive_summary': 'Good', 'scores': [{'dimension': 'User value', 'score': 4, 'reasoning': 'Clear'}, {'dimension': 'Data dependencies', 'score': 3, 'reasoning': 'Few'}], 'detailed_plan': 'Plan', 'risk_flags': ['Late'], 'build_checklist': ['Start']}".

(** A reply in a code fence, with prose around it: the text before the
    payload, the payload without its outer braces, and the text after it. *)
Definition fenced_reply_before : string :=
  "Here is the result:
```json
".

Definition fenced_reply_inside : string :=
  apostrophed "
  'executive_summary': 'A focused idea with a clear user.',
  'scores': [
    {'dimension': 'Problem clarity', 'score': 4, 'reasoning': 'Reason 1'},
    {'dimension': 'User value', 'score': 5, 'reasoning': 'Reason 2'},
    {'dimension': 'Market size & urgency', 'score': 3, 'reasoning': 'Reason 3'},
    {'dimension': 'Differentiation/moat', 'score': 2, 'reasoning': 'Reason 4'},
    {'dimension': 'Technical feasibility in 48 hours', 'score': 4, 'reasoning': 'Reason 5'},
    {'dimension': 'Scalability path', 'score': 3, 'reasoning': 'Reason 6'},
    {'dimension': 'Data dependencies', 'score': 5, 'reasoning': 'Reason 7'},
    {'dimension': 'Risks & compliance', 'score': 1, 'reasoning': 'Reason 8'}
  ],
  'detailed_plan': 'Day 1: build. Day 2: polish.',
  'risk_flags': ['Scope creep', 'API limits'],
  'build_checklist': ['Set up repo', 'Build demo'],
  'tech_stack': {'Frontend': ['React'], 'Backend': ['FastAPI', 'SQLite']},
  'pitch_deck': {'slide1_problem': 'Problem', 'slide2_solution': 'Solution', 'slide3_techstack': 'Stack', 'slide4_market': 'Market', 'slide5_business_model': 'Model'}
".

Definition fenced_reply_after : string :=
  "
```
Thanks!".

Definition fenced_reply : string :=
  fenced_reply_before ++ String "{" (fenced_reply_inside ++ String "}" fenced_reply_after).

(** Replies and values for the further properties: a reply with a key the
    schema does not have and its keys in another order, replies whose scores
    are an object, a text or all 0, a reply with a slide that is a list, a
    form and a tech stack. *)
Definition reply_with_notes : string :=
  apostrophed "{'notes': 'extra', 'build_checklist': ['Start'], 'risk_flags': ['Late'], 'detailed_plan': 'Plan', 'scores': [{'dimension': 'User value', 'score': 4, 'reasoning': 'Clear'}, {'dimension': 'Data dependencies', 'score': 3, 'reasoning': 'Few'}], 'executive_summary': 'Good'}".

Definition reply_with_scores_object : string :=
  apostrophed "{'executive_summary': 'Good', 'scores': {'User value': 4}, 'detailed_plan': 'Plan', 'risk_flags': [], 'build_checklist': []}".

Definition reply_with_text_score : string :=
  apostrophed "{'executive_summary': 'Good', 'scores': [{'dimension': 'User value', 'score': '4', 'reasoning': 'Clear'}], 'detailed_plan': 'Plan', 'risk_flags': [], 'build_checklist': []}".

Definition reply_with_zero_scores : string :=
  apostrophed "{'executive_summary': 'Weak', 'scores': [{'dimension': 'User value', 'score': 0, 'reasoning': 'None'}, {'dimension': 'Data dependencies', 'score': 0, 'reasoning': 'None'}], 'detailed_plan': 'Plan', 'risk_flags': ['Late'], 'build_checklist': ['Start']}".

Definition sample_form : Page.Form :=
  {| Page.form_idea := "A bot that reviews pitches";
     Page.form_target_users := "Hackathon teams";
     Page.form_time_constraint := 48;
     Page.form_team_size := 4;
     Page.form_goals := "Win the demo day";
     Page.form_submitted := true |}.

Definition sample_stack : pyval :=
  PyDict [("Frontend", PyList [PyStr "React"; PyStr "TypeScript"]);
          ("Backend", PyList [PyStr "Node.js"; PyStr "Express"; PyStr "PostgreSQL";
                              PyStr "Redis"]);
          ("Tools", PyList [])].

Definition reply_with_slide_list : string :=
  apostrophed "{'executive_summary': 'Good', 'scores': [{'dimension': 'User value', 'score': 4, 'reasoning': 'Clear'}], 'detailed_plan': 'Plan', 'risk_flags': [], 'build_checklist': [], 'pitch_deck': {'slide1_problem': 'Teams pitch badly. ', 'slide2_solution': ['A bot', 'A score']}}".

(** * Properties *)

(** ** The monad *)

Lemma bind_inr {A B : Type} (m : result A) (k : A -> result B) (b : B) :
  bind m k = inr b -> exists a, m = inr a /\ k a = inr b.
Proof.
  destruct m as [e | a]; simpl; intros H; [discriminate | eauto].
Qed.

Lemma mapM_length {A B : Type} (f : A -> result B) (l : list A) (bs : list B) :
  mapM f l = inr bs -> List.length bs = List.length l.
Proof.
  revert bs. induction l as [| a l IH]; simpl; intros bs H.
  - inversion H. reflexivity.
  - destruct (f a) as [e | b]; simpl in H; [discriminate |].
    destruct (mapM f l) as [e | bs']; simpl in H; [discriminate |].
    inversion H. simpl. f_equal. apply IH. reflexivity.
Qed.

Lemma mapM_Forall2 {A B : Type} (f : A -> result B) (l : list A) (bs : list B) :
  mapM f l = inr bs -> Forall2 (fun a b => f a = inr b) l bs.
Proof.
  revert bs. induction l as [| a l IH]; simpl; intros bs H.
  - inversion H. constructor.
  - destruct (f a) as [e | b] eqn:Ha; simpl in H; [discriminate |].
    destruct (mapM f l) as [e | bs'] eqn:Hl; simpl in H; [discriminate |].
    inversion H. subst. constructor; auto.
Qed.

(** ** Rounding to binary64 *)

Module FloatFacts.

Import Py.
Local Open Scope Q_scope.

Lemma pow2_pos (e : Z) : 0 < pow2 e.
Proof. apply Qpower_0_lt. reflexivity. Qed.

Lemma pow2_add (a b : Z) : pow2 (a + b) == pow2 a * pow2 b.
Proof. apply Qpower_plus. discriminate. Qed.

Lemma pow2_cancel (e : Z) : pow2 (- e) * pow2 e == 1.
Proof. rewrite <- pow2_add. replace (- e + e)%Z with 0%Z by lia. reflexivity. Qed.

Lemma pow2_le (a b : Z) : (a <= b)%Z -> pow2 a <= pow2 b.
Proof. intros H. apply Qpower_le_compat_l; [exact H | discriminate]. Qed.

Lemma pow2_succ (e : Z) : pow2 (e + 1) == 2 * pow2 e.
Proof. rewrite pow2_add. unfold pow2 at 2. rewrite Qpower_1_r. ring. Qed.

Lemma pow2_Z (e : Z) : (0 <= e)%Z -> pow2 e == inject_Z (2 ^ e).
Proof. intros H. unfold pow2. rewrite Zpower_Qpower by exact H. reflexivity. Qed.

(** *** The nearest integer *)

Lemma round_half_even_cases (q : Q) :
  (round_half_even q = Qfloor q /\ q - inject_Z (Qfloor q) <= 1 # 2)
  \/ (round_half_even q = (Qfloor q + 1)%Z /\ 1 # 2 <= q - inject_Z (Qfloor q)).
Proof.
  unfold round_half_even.
  destruct (Qcompare_spec (q - inject_Z (Qfloor q)) (1 # 2)) as [H | H | H].
  - destruct (Z.even (Qfloor q)); [left | right]; split; try reflexivity;
      rewrite H; apply Qle_refl.
  - left. split; [reflexivity | apply Qlt_le_weak; exact H].
  - right. split; [reflexivity | apply Qlt_le_weak; exact H].
Qed.

Lemma round_half_even_near (q : Q) :
  Qabs (inject_Z (round_half_even q) - q) <= 1 # 2.
Proof.
  pose proof (Qfloor_le q) as Hlo. pose proof (Qlt_floor q) as Hhi.
  rewrite inject_Z_plus in Hhi. change (inject_Z 1) with 1 in Hhi.
  apply Qabs_Qle_condition.
  destruct (round_half_even_cases q) as [[-> H] | [-> H]].
  - split; lra.
  - rewrite inject_Z_plus. change (inject_Z 1) with 1. split; lra.
Qed.

Lemma round_half_even_ge (j : Z) (q : Q) :
  inject_Z j <= q -> (j <= round_half_even q)%Z.
Proof.
  intros H. assert (Hf : (j <= Qfloor q)%Z).
  { rewrite <- (Qfloor_Z j). apply Qfloor_resp_le. exact H. }
  destruct (round_half_even_cases q) as [[-> _] | [-> _]]; lia.
Qed.

Lemma round_half_even_le (j : Z) (q : Q) :
  q <= inject_Z j -> (round_half_even q <= j)%Z.
Proof.
  intros H. assert (Hf : (Qfloor q <= j)%Z).
  { rewrite <- (Qfloor_Z j). apply Qfloor_resp_le. exact H. }
  destruct (round_half_even_cases q) as [[-> _] | [-> Hhalf]]; [exact Hf |].
  assert (Hlt : inject_Z (Qfloor q) < inject_Z j) by lra.
  rewrite <- Zlt_Qlt in Hlt. lia.
Qed.

Lemma round_half_even_Z (j : Z) (q : Q) : q == inject_Z j -> round_half_even q = j.
Proof.
  intros H. apply Z.le_antisymm.
  - apply round_half_even_le. rewrite H. apply Qle_refl.
  - apply round_half_even_ge. rewrite H. apply Qle_refl.
Qed.

(** *** The exponent *)

Lemma Qabs_num (q : Q) : Qabs q == inject_Z (Z.abs (Qnum q)) / inject_Z (Zpos (Qden q)).
Proof.
  destruct q as [n d]. unfold Qabs. cbn [Qnum Qden].
  rewrite (Qmake_Qdiv (Z.abs n) d). reflexivity.
Qed.

Lemma log2_bounds (a : Z) :
  (0 < a)%Z -> pow2 (Z.log2 a) <= inject_Z a < pow2 (Z.log2 a + 1).
Proof.
  intros Ha. pose proof (Z.log2_nonneg a) as Hn.
  destruct (Z.log2_spec a Ha) as [Hlo Hhi].
  rewrite !pow2_Z by lia. rewrite <- Zle_Qle, <- Zlt_Qlt.
  replace (Z.log2 a + 1)%Z with (Z.succ (Z.log2 a)) by lia. split; assumption.
Qed.

Lemma ilog2_spec (q : Q) :
  ~ q == 0 -> pow2 (ilog2 q) <= Qabs q /\ Qabs q < pow2 (ilog2 q + 1).
Proof.
  intros Hq.
  assert (Ha : (0 < Z.abs (Qnum q))%Z).
  { destruct q as [n d]. unfold Qeq in Hq. cbn [Qnum Qden] in *. lia. }
  destruct (log2_bounds _ Ha) as [Ha1 Ha2].
  destruct (log2_bounds (Zpos (Qden q)) eq_refl) as [Hb1 Hb2].
  rewrite pow2_succ in Ha2, Hb2.
  set (la := Z.log2 (Z.abs (Qnum q))) in *.
  set (lb := Z.log2 (Zpos (Qden q))) in *.
  assert (Hsplit : pow2 (la - lb) * pow2 lb == pow2 la).
  { rewrite <- pow2_add. replace (la - lb + lb)%Z with la by lia. reflexivity. }
  pose proof (pow2_pos la) as Pa. pose proof (pow2_pos lb) as Pb.
  pose proof (pow2_pos (la - lb)) as Pab.
  assert (Hb : 0 < inject_Z (Zpos (Qden q))) by reflexivity.
  assert (Hval : Qabs q * inject_Z (Zpos (Qden q)) == inject_Z (Z.abs (Qnum q))).
  { rewrite Qabs_num. field. intros H0. rewrite H0 in Hb. discriminate. }
  set (A := inject_Z (Z.abs (Qnum q))) in *.
  set (B := inject_Z (Zpos (Qden q))) in *.
  assert (Hlow : pow2 (la - lb - 1) <= Qabs q).
  { assert (E : pow2 (la - lb) == 2 * pow2 (la - lb - 1)).
    { rewrite <- pow2_succ. replace (la - lb - 1 + 1)%Z with (la - lb)%Z by lia.
      reflexivity. }
    pose proof (pow2_pos (la - lb - 1)) as P1.
    apply Qnot_lt_le. intros Hlt.
    assert (Qabs q * B < pow2 (la - lb - 1) * (2 * pow2 lb)).
    { apply Qle_lt_trans with (pow2 (la - lb - 1) * B).
      - apply Qmult_le_compat_r; [lra | lra].
      - apply Qmult_lt_l; [exact P1 | lra]. }
    assert (pow2 (la - lb - 1) * (2 * pow2 lb) == pow2 la)
      by (rewrite <- Hsplit, E; ring).
    lra. }
  assert (Hup : Qabs q < pow2 (la - lb + 1)).
  { rewrite pow2_succ. apply Qnot_le_lt. intros Hge.
    assert (2 * pow2 (la - lb) * pow2 lb <= Qabs q * B).
    { apply Qle_trans with (Qabs q * pow2 lb).
      - apply Qmult_le_compat_r; [exact Hge | lra].
      - apply Qmult_le_l; [|exact Hb1].
        apply Qlt_le_trans with (2 * pow2 (la - lb)); lra. }
    assert (2 * pow2 (la - lb) * pow2 lb == 2 * pow2 la)
      by (rewrite <- Hsplit; ring).
    lra. }
  unfold ilog2. fold la lb.
  destruct (Qle_bool (pow2 (la - lb)) (Qabs q)) eqn:E.
  - apply Qle_bool_iff in E. split; [exact E | exact Hup].
  - split; [exact Hlow |].
    replace (la - lb - 1 + 1)%Z with (la - lb)%Z by lia.
    apply Qnot_le_lt. intros H. apply Qle_bool_iff in H. congruence.
Qed.

Lemma ilog2_unique (q : Q) (e : Z) :
  pow2 e <= Qabs q -> Qabs q < pow2 (e + 1) -> ilog2 q = e.
Proof.
  intros Hlo Hhi.
  assert (Hq : ~ q == 0).
  { intros H. rewrite H in Hlo. pose proof (pow2_pos e). simpl in Hlo. lra. }
  destruct (ilog2_spec q Hq) as [Hlo' Hhi'].
  assert (H1 : (e < ilog2 q + 1)%Z).
  { apply (Qpower_lt_compat_l_inv 2); [| reflexivity].
    apply Qle_lt_trans with (Qabs q); assumption. }
  assert (H2 : (ilog2 q < e + 1)%Z).
  { apply (Qpower_lt_compat_l_inv 2); [| reflexivity].
    apply Qle_lt_trans with (Qabs q); assumption. }
  lia.
Qed.

Lemma ilog2_comp (q q' : Q) : q == q' -> ~ q == 0 -> ilog2 q' = ilog2 q.
Proof.
  intros H Hq. destruct (ilog2_spec q Hq) as [Hlo Hhi].
  apply ilog2_unique; rewrite <- H; assumption.
Qed.

Lemma round_half_even_comp (q q' : Q) : q == q' -> round_half_even q = round_half_even q'.
Proof.
  intros H. unfold round_half_even. rewrite (Qfloor_comp _ _ H).
  assert (E : Qcompare (q - inject_Z (Qfloor q')) (1 # 2)
              = Qcompare (q' - inject_Z (Qfloor q')) (1 # 2))
    by (rewrite H; reflexivity).
  rewrite E. reflexivity.
Qed.

(** *** Rounding *)

Lemma round_at_eq (e : Z) (q : Q) :
  round_at e q == inject_Z (round_half_even (q * pow2 (- e))) * pow2 e.
Proof. apply Qred_correct. Qed.

Lemma round_at_comp (e : Z) (q q' : Q) : q == q' -> round_at e q = round_at e q'.
Proof.
  intros H. unfold round_at.
  rewrite (round_half_even_comp (q * pow2 (- e)) (q' * pow2 (- e)));
    [reflexivity | rewrite H; reflexivity].
Qed.

Lemma scaled_back (e : Z) (q : Q) : q * pow2 (- e) * pow2 e == q.
Proof. rewrite <- Qmult_assoc, pow2_cancel. ring. Qed.

Lemma round_at_near (e : Z) (q : Q) :
  Qabs (round_at e q - q) <= (1 # 2) * pow2 e.
Proof.
  rewrite round_at_eq. pose proof (pow2_pos e) as P.
  pose proof (round_half_even_near (q * pow2 (- e))) as H.
  assert (E : inject_Z (round_half_even (q * pow2 (- e))) * pow2 e - q
              == (inject_Z (round_half_even (q * pow2 (- e))) - q * pow2 (- e)) * pow2 e).
  { rewrite <- (scaled_back e q) at 2. ring. }
  rewrite E, Qabs_Qmult, (Qabs_pos (pow2 e)) by lra.
  apply Qmult_le_compat_r; [exact H | lra].
Qed.

Lemma round_at_ge (j : Z) (e : Z) (q : Q) :
  inject_Z j * pow2 e <= q -> inject_Z j * pow2 e <= round_at e q.
Proof.
  intros H. pose proof (pow2_pos e) as P. pose proof (pow2_pos (- e)) as P'.
  rewrite round_at_eq. apply Qmult_le_compat_r; [| lra].
  rewrite <- Zle_Qle. apply round_half_even_ge.
  apply Qle_trans with (inject_Z j * pow2 e * pow2 (- e)).
  - rewrite <- Qmult_assoc, (Qmult_comm (pow2 e)), pow2_cancel. lra.
  - apply Qmult_le_compat_r; [exact H | lra].
Qed.

Lemma round_at_le (j : Z) (e : Z) (q : Q) :
  q <= inject_Z j * pow2 e -> round_at e q <= inject_Z j * pow2 e.
Proof.
  intros H. pose proof (pow2_pos e) as P. pose proof (pow2_pos (- e)) as P'.
  rewrite round_at_eq. apply Qmult_le_compat_r; [| lra].
  rewrite <- Zle_Qle. apply round_half_even_le.
  apply Qle_trans with (inject_Z j * pow2 e * pow2 (- e)).
  - apply Qmult_le_compat_r; [exact H | lra].
  - rewrite <- Qmult_assoc, (Qmult_comm (pow2 e)), pow2_cancel. lra.
Qed.

(** A multiple of [2 ^ e] is rounded to itself. *)
Lemma round_at_exact (j : Z) (e : Z) (q : Q) :
  q == inject_Z j * pow2 e -> round_at e q == q.
Proof.
  intros H. apply Qle_antisym.
  - rewrite H at 2. apply round_at_le. rewrite H. apply Qle_refl.
  - rewrite H at 1. apply round_at_ge. rewrite H. apply Qle_refl.
Qed.

Lemma Qeq_bool_false (q : Q) : ~ q == 0 -> Qeq_bool q 0 = false.
Proof.
  intros H. destruct (Qeq_bool q 0) eqn:E; [| reflexivity].
  apply Qeq_bool_eq in E. contradiction.
Qed.

Lemma round53_zero (q : Q) : q == 0 -> round53 q = 0.
Proof. intros H. unfold round53. rewrite (proj2 (Qeq_bool_iff q 0) H). reflexivity. Qed.

Lemma round53_nonzero (q : Q) : ~ q == 0 -> round53 q = round_at (ilog2 q - 52) q.
Proof. intros H. unfold round53. rewrite (Qeq_bool_false q H). reflexivity. Qed.

Lemma round64_zero (q : Q) : q == 0 -> round64 q = 0.
Proof. intros H. unfold round64. rewrite (proj2 (Qeq_bool_iff q 0) H). reflexivity. Qed.

Lemma round64_nonzero (q : Q) :
  ~ q == 0 -> round64 q = round_at (Z.max (ilog2 q - 52) (-1074)) q.
Proof. intros H. unfold round64. rewrite (Qeq_bool_false q H). reflexivity. Qed.

Lemma round64_comp (q q' : Q) : q == q' -> round64 q = round64 q'.
Proof.
  intros H. destruct (Qeq_dec q 0) as [Hz | Hnz].
  - rewrite (round64_zero q Hz), (round64_zero q'); [reflexivity | now rewrite <- H].
  - rewrite (round64_nonzero q Hnz), (round64_nonzero q') by (now rewrite <- H).
    rewrite (ilog2_comp q q' H Hnz). apply round_at_comp. exact H.
Qed.

Lemma pow2_52 (e : Z) : inject_Z (2 ^ 52) * pow2 (e - 52) == pow2 e.
Proof.
  rewrite <- (pow2_Z 52) by lia. rewrite <- pow2_add.
  replace (52 + (e - 52))%Z with e by lia. reflexivity.
Qed.

(** Rounding to 53 bits keeps the sign. *)
Lemma round53_pos (q : Q) : 0 < q -> 0 < round53 q.
Proof.
  intros Hq. assert (Hnz : ~ q == 0) by lra.
  rewrite (round53_nonzero q Hnz).
  destruct (ilog2_spec q Hnz) as [Hlo _]. rewrite Qabs_pos in Hlo by lra.
  pose proof (pow2_pos (ilog2 q)) as P.
  apply Qlt_le_trans with (inject_Z (2 ^ 52) * pow2 (ilog2 q - 52)).
  - rewrite pow2_52. exact P.
  - apply round_at_ge. rewrite pow2_52. exact Hlo.
Qed.

Lemma round53_neg (q : Q) : q < 0 -> round53 q < 0.
Proof.
  intros Hq. assert (Hnz : ~ q == 0) by lra.
  rewrite (round53_nonzero q Hnz).
  destruct (ilog2_spec q Hnz) as [Hlo _]. rewrite Qabs_neg in Hlo by lra.
  pose proof (pow2_pos (ilog2 q)) as P.
  assert (E : inject_Z (- 2 ^ 52) * pow2 (ilog2 q - 52) == - pow2 (ilog2 q)).
  { rewrite <- (pow2_52 (ilog2 q)). rewrite inject_Z_opp. ring. }
  apply Qle_lt_trans with (inject_Z (- 2 ^ 52) * pow2 (ilog2 q - 52)).
  - apply round_at_le. rewrite E. lra.
  - rewrite E. lra.
Qed.

(** The error of rounding to 53 bits, relative to the real. *)
Lemma round53_error (q : Q) :
  Qabs (round53 q - q) <= Qabs q * (1 # 2 ^ 53).
Proof.
  destruct (Qeq_dec q 0) as [Hz | Hnz].
  - rewrite (round53_zero q Hz), Hz. vm_compute. discriminate.
  - rewrite (round53_nonzero q Hnz).
    destruct (ilog2_spec q Hnz) as [Hlo _].
    apply Qle_trans with ((1 # 2) * pow2 (ilog2 q - 52)); [apply round_at_near |].
    rewrite <- (pow2_52 (ilog2 q)) in Hlo.
    pose proof (pow2_pos (ilog2 q - 52)) as P.
    change (inject_Z (2 ^ 52)) with (4503599627370496 # 1) in Hlo.
    change (1 # 2 ^ 53) with (1 # 9007199254740992).
    lra.
Qed.

Lemma pow2_53 : pow2 53 == inject_Z (2 ^ 53).
Proof. apply pow2_Z. lia. Qed.

Lemma scale_Z (j e : Z) :
  (e <= 0)%Z -> inject_Z (j * 2 ^ (- e)) * pow2 e == inject_Z j.
Proof.
  intros H. rewrite inject_Z_mult, <- (pow2_Z (- e)) by lia.
  rewrite <- Qmult_assoc, pow2_cancel. ring.
Qed.

(** Rounding to 53 bits does not cross an integer that has no more bits. *)
Lemma round53_ge_Z (lo : Z) (q : Q) :
  (- 2 ^ 53 <= lo <= 2 ^ 53)%Z -> inject_Z lo <= q -> inject_Z lo <= round53 q.
Proof.
  intros Hlo Hq. destruct (Qeq_dec q 0) as [Hz | Hnz].
  - rewrite (round53_zero q Hz). rewrite <- Hz. exact Hq.
  - rewrite (round53_nonzero q Hnz). destruct (ilog2_spec q Hnz) as [Hlow Hup].
    set (e := (ilog2 q - 52)%Z) in *. pose proof (pow2_pos e) as P.
    destruct (Z.le_gt_cases e 0) as [He | He].
    + rewrite <- (scale_Z lo e He). apply round_at_ge. rewrite (scale_Z lo e He).
      exact Hq.
    + assert (H53 : pow2 53 <= pow2 (ilog2 q)) by (apply pow2_le; lia).
      assert (B : inject_Z lo <= inject_Z (2 ^ 53)) by (rewrite <- Zle_Qle; lia).
      assert (B' : inject_Z (- 2 ^ 53) <= inject_Z lo) by (rewrite <- Zle_Qle; lia).
      rewrite <- pow2_53 in B.
      destruct (Qlt_le_dec 0 q) as [Hpos | Hneg].
      * rewrite Qabs_pos in Hlow by lra.
        apply Qle_trans with (inject_Z (2 ^ 52) * pow2 e).
        -- unfold e. rewrite pow2_52. lra.
        -- apply round_at_ge. unfold e. rewrite pow2_52. exact Hlow.
      * rewrite Qabs_neg in Hlow, Hup by exact Hneg.
        rewrite inject_Z_opp, <- pow2_53 in B'.
        assert (He53 : (ilog2 q <= 53)%Z).
        { apply (Qpower_le_compat_l_inv 2); [| reflexivity].
          change (pow2 (ilog2 q) <= pow2 53). lra. }
        assert (E : inject_Z (- 2 ^ (53 - e)) * pow2 e == - pow2 53).
        { rewrite inject_Z_opp, <- (pow2_Z (53 - e)) by (unfold e; lia).
          setoid_replace (- pow2 (53 - e) * pow2 e) with (- (pow2 (53 - e) * pow2 e))
            by ring.
          rewrite <- pow2_add. replace (53 - e + e)%Z with 53%Z by lia. reflexivity. }
        apply Qle_trans with (inject_Z (- 2 ^ (53 - e)) * pow2 e).
        -- rewrite E. lra.
        -- apply round_at_ge. rewrite E. lra.
Qed.

Lemma round53_le_Z (hi : Z) (q : Q) :
  (- 2 ^ 53 <= hi <= 2 ^ 53)%Z -> q <= inject_Z hi -> round53 q <= inject_Z hi.
Proof.
  intros Hhi Hq. destruct (Qeq_dec q 0) as [Hz | Hnz].
  - rewrite (round53_zero q Hz). rewrite <- Hz. exact Hq.
  - rewrite (round53_nonzero q Hnz). destruct (ilog2_spec q Hnz) as [Hlow Hup].
    set (e := (ilog2 q - 52)%Z) in *. pose proof (pow2_pos e) as P.
    destruct (Z.le_gt_cases e 0) as [He | He].
    + rewrite <- (scale_Z hi e He). apply round_at_le. rewrite (scale_Z hi e He).
      exact Hq.
    + assert (H53 : pow2 53 <= pow2 (ilog2 q)) by (apply pow2_le; lia).
      assert (B : inject_Z hi <= inject_Z (2 ^ 53)) by (rewrite <- Zle_Qle; lia).
      assert (B' : inject_Z (- 2 ^ 53) <= inject_Z hi) by (rewrite <- Zle_Qle; lia).
      rewrite <- pow2_53 in B. rewrite inject_Z_opp, <- pow2_53 in B'.
      destruct (Qlt_le_dec q 0) as [Hneg | Hpos].
      * rewrite Qabs_neg in Hlow by lra.
        assert (E : inject_Z (- 2 ^ 52) * pow2 e == - pow2 (ilog2 q)).
        { unfold e. rewrite <- (pow2_52 (ilog2 q)). rewrite inject_Z_opp. ring. }
        apply Qle_trans with (inject_Z (- 2 ^ 52) * pow2 e).
        -- apply round_at_le. rewrite E. lra.
        -- rewrite E. lra.
      * rewrite Qabs_pos in Hlow, Hup by exact Hpos.
        assert (He53 : (ilog2 q <= 53)%Z).
        { apply (Qpower_le_compat_l_inv 2); [| reflexivity].
          change (pow2 (ilog2 q) <= pow2 53). lra. }
        assert (E : inject_Z (2 ^ (53 - e)) * pow2 e == pow2 53).
        { rewrite <- (pow2_Z (53 - e)) by (unfold e; lia).
          rewrite <- pow2_add. replace (53 - e + e)%Z with 53%Z by lia. reflexivity. }
        apply Qle_trans with (inject_Z (2 ^ (53 - e)) * pow2 e).
        -- apply round_at_le. rewrite E. lra.
        -- rewrite E. lra.
Qed.

(** Above the least normal number binary64 has 53 bits. *)
Lemma round64_normal (q : Q) : pow2 (- 1022) <= Qabs q -> round64 q = round53 q.
Proof.
  intros H.
  assert (Hnz : ~ q == 0).
  { intros Hz. rewrite Hz in H. pose proof (pow2_pos (- 1022)).
    change (Qabs 0) with 0 in H. lra. }
  rewrite (round64_nonzero q Hnz), (round53_nonzero q Hnz).
  destruct (ilog2_spec q Hnz) as [_ Hup].
  assert ((- 1022 < ilog2 q + 1)%Z).
  { apply (Qpower_lt_compat_l_inv 2); [| reflexivity].
    change (pow2 (- 1022) < pow2 (ilog2 q + 1)). lra. }
  f_equal. lia.
Qed.

(** A multiple of [2 ^ -k] with fewer than 54 bits is a binary64 number. *)
Lemma round64_exact (m k : Z) (q : Q) :
  (0 <= k <= 1074)%Z -> Qabs q < pow2 (53 - k) ->
  q == inject_Z m * pow2 (- k) -> round64 q == q.
Proof.
  intros Hk Hq Hm. destruct (Qeq_dec q 0) as [Hz | Hnz].
  - rewrite (round64_zero q Hz). symmetry. exact Hz.
  - rewrite (round64_nonzero q Hnz). destruct (ilog2_spec q Hnz) as [Hlow _].
    set (e := Z.max (ilog2 q - 52) (- 1074)).
    assert (He : (e <= - k)%Z).
    { assert ((ilog2 q < 53 - k)%Z).
      { apply (Qpower_lt_compat_l_inv 2); [| reflexivity].
        change (pow2 (ilog2 q) < pow2 (53 - k)). lra. }
      unfold e. lia. }
    apply (round_at_exact (m * 2 ^ (- k - e))).
    rewrite Hm, inject_Z_mult, <- (pow2_Z (- k - e)) by lia.
    rewrite <- Qmult_assoc, <- pow2_add.
    replace (- k - e + e)%Z with (- k)%Z by lia. reflexivity.
Qed.

Lemma round64_Z (z : Z) : (Z.abs z < 2 ^ 53)%Z -> round64 (inject_Z z) == inject_Z z.
Proof.
  intros H. apply (round64_exact z 0); [lia | |].
  - change (53 - 0)%Z with 53%Z. rewrite pow2_53.
    change (Qabs (inject_Z z)) with (inject_Z (Z.abs z)).
    rewrite <- Zlt_Qlt. exact H.
  - change (pow2 (- 0)) with 1. ring.
Qed.

End FloatFacts.

(** ** Strings: [find], [rfind] and slices *)

Module PyStrFacts.

Import PyStr.

Lemma length_app (s t : string) :
  String.length (s ++ t) = (String.length s + String.length t)%nat.
Proof. induction s as [| c s IH]; simpl; [reflexivity | now rewrite IH]. Qed.

Lemma app_assoc (s t u : string) : (s ++ t) ++ u = s ++ t ++ u.
Proof. induction s as [| c s IH]; simpl; [reflexivity | now rewrite IH]. Qed.

Lemma rfind_range (c : ascii) (s : string) :
  -1 <= rfind c s < Z.of_nat (String.length s) \/ (rfind c s = -1 /\ s = "").
Proof.
  induction s as [| a s IH]; simpl String.length; [right; auto | left].
  simpl rfind. destruct (Z.leb_spec 0 (rfind c s)); [lia |].
  destruct (Ascii.eqb a c); lia.
Qed.

Lemma find_absent (c : ascii) (s : string) : mem c s = false -> find c s = -1.
Proof.
  induction s as [| a s IH]; simpl; [reflexivity |].
  destruct (Ascii.eqb a c); simpl; [discriminate |].
  intros H. rewrite (IH H). reflexivity.
Qed.

Lemma rfind_absent (c : ascii) (s : string) : mem c s = false -> rfind c s = -1.
Proof.
  induction s as [| a s IH]; simpl; [reflexivity |].
  destruct (Ascii.eqb a c); simpl; [discriminate |].
  intros H. rewrite (IH H). reflexivity.
Qed.

Lemma mem_app (c : ascii) (s t : string) : mem c (s ++ t) = mem c s || mem c t.
Proof.
  induction s as [| a s IH]; simpl; [reflexivity |].
  rewrite IH. apply orb_assoc.
Qed.

(** A text that has a character splits at its first occurrence. *)
Lemma mem_split_first (c : ascii) (s : string) :
  mem c s = true ->
  exists pre rest, s = pre ++ String c rest /\ mem c pre = false.
Proof.
  induction s as [| a s IH]; simpl; [discriminate |].
  destruct (Ascii.eqb_spec a c) as [-> | Hac]; simpl.
  - intros _. exists "", s. split; reflexivity.
  - intros H. destruct (IH H) as (pre & rest & -> & Hpre).
    exists (String a pre), rest. split; [reflexivity |].
    simpl. rewrite Hpre. destruct (Ascii.eqb_spec a c); [contradiction | reflexivity].
Qed.

(** And at its last occurrence. *)
Lemma mem_split_last (c : ascii) (s : string) :
  mem c s = true ->
  exists front post, s = front ++ String c post /\ mem c post = false.
Proof.
  induction s as [| a s IH]; simpl; [discriminate |].
  destruct (mem c s) eqn:Hs.
  - intros _. destruct (IH eq_refl) as (front & post & -> & Hpost).
    exists (String a front), post. split; [reflexivity | exact Hpost].
  - rewrite orb_false_r. intros Hac. apply Ascii.eqb_eq in Hac. subst a.
    exists "", s. split; [reflexivity | exact Hs].
Qed.

Lemma rfind_app_absent (c : ascii) (s t : string) :
  mem c t = false -> rfind c (s ++ t) = rfind c s.
Proof.
  intros H. induction s as [| a s IH]; simpl.
  - apply rfind_absent. exact H.
  - rewrite IH. reflexivity.
Qed.

Lemma rfind_below_length (c : ascii) (s : string) :
  0 <= rfind c s + 1 <= Z.of_nat (String.length s).
Proof. destruct (rfind_range c s) as [H | [-> ->]]; simpl; lia. Qed.

(** The first occurrence is right after a prefix that has none. *)
Lemma find_after (c : ascii) (pre s : string) :
  mem c pre = false ->
  find c (pre ++ String c s) = Z.of_nat (String.length pre).
Proof.
  induction pre as [| a pre IH]; simpl append; simpl String.length.
  - intros _. simpl. now rewrite Ascii.eqb_refl.
  - simpl mem. destruct (Ascii.eqb a c) eqn:E; simpl; [discriminate |].
    intros H. rewrite E, (IH H).
    destruct (Z.ltb_spec (Z.of_nat (String.length pre)) 0); lia.
Qed.

(** The last occurrence is right before a suffix that has none. *)
Lemma rfind_before (c : ascii) (s post : string) :
  mem c post = false ->
  rfind c (s ++ String c post) = Z.of_nat (String.length s).
Proof.
  intros H. induction s as [| a s IH]; simpl append; simpl String.length.
  - simpl. rewrite (rfind_absent c post H), Ascii.eqb_refl. reflexivity.
  - simpl rfind. rewrite IH.
    destruct (Z.leb_spec 0 (Z.of_nat (String.length s))); lia.
Qed.

Lemma substring_0_app (s t : string) :
  substring 0 (String.length s) (s ++ t) = s.
Proof.
  induction s as [| a s IH]; simpl.
  - destruct t; reflexivity.
  - now rewrite IH.
Qed.

Lemma substring_skip (pre s : string) (n : nat) :
  substring (String.length pre) n (pre ++ s) = substring 0 n s.
Proof. induction pre as [| a pre IH]; simpl; [reflexivity | exact IH]. Qed.

(** The slice that cuts a middle part out of a text. *)
Lemma slice_middle (pre mid post : string) :
  mid <> "" ->
  slice (pre ++ mid ++ post)
    (Z.of_nat (String.length pre))
    (Z.of_nat (String.length pre) + Z.of_nat (String.length mid)) = mid.
Proof.
  intros Hmid. unfold slice, clip. rewrite !length_app.
  assert (0 < String.length mid)%nat by (destruct mid; simpl; [congruence | lia]).
  destruct (Z.ltb_spec (Z.of_nat (String.length pre)) 0); [lia |].
  destruct (Z.ltb_spec (Z.of_nat (String.length pre) + Z.of_nat (String.length mid)) 0); [lia |].
  rewrite !Z.min_l by lia.
  destruct (Z.ltb_spec (Z.of_nat (String.length pre))
              (Z.of_nat (String.length pre) + Z.of_nat (String.length mid))); [| lia].
  rewrite Nat2Z.id.
  replace (Z.to_nat _) with (String.length mid) by lia.
  rewrite substring_skip. apply substring_0_app.
Qed.

(** When the last character is the last occurrence, it is that character. *)
Lemma rfind_last (c : ascii) (s : string) :
  rfind c s = Z.of_nat (String.length s) - 1 -> s <> "" ->
  substring (String.length s - 1) 1 s = String c "".
Proof.
  induction s as [| a s IH]; [congruence |].
  intros H _. simpl String.length in *. simpl rfind in H.
  destruct s as [| b s].
  - simpl in *. destruct (Ascii.eqb_spec a c); [subst; reflexivity | discriminate].
  - replace (S (String.length (String b s)) - 1)%nat
      with (S (String.length (String b s) - 1)) by (simpl; lia).
    change (substring (S ?n) 1 (String a ?r)) with (substring n 1 r).
    apply IH; [| congruence].
    destruct (Z.leb_spec 0 (rfind c (String b s))); [lia |].
    simpl String.length in H. destruct (Ascii.eqb a c); lia.
Qed.

End PyStrFacts.

(** ** The decoder: every scan consumes text, and the fuel suffices *)

Module JsonFacts.

Import Json.

Lemma skip_ws_length (s : string) :
  (String.length (skip_ws s) <= String.length s)%nat.
Proof.
  induction s as [| c s IH]; simpl; [lia |].
  destruct (is_ws c); simpl; lia.
Qed.

Lemma consumes_bind {A B : Type} (s s' : string) (m : result (A * string))
    (f : A -> B) :
  consumes s' m -> (String.length s' <= String.length s)%nat ->
  consumes s ('(a, rest) <- m ;; ret (f a, rest)).
Proof.
  unfold consumes. destruct m as [e | [a rest]]; simpl; [trivial | lia].
Qed.

Lemma scanstring_consumes_upto (n : nat) (s : string) :
  (String.length s <= n)%nat -> consumes (String "034" s) (scanstring s).
Proof.
  revert s. induction n as [| n IH]; intros s Hn.
  - destruct s; [reflexivity | simpl in Hn; lia].
  - destruct s as [| c r]; [reflexivity |].
    simpl String.length in Hn. cbn [scanstring].
    destruct (Ascii.eqb c PyStr.quote); [simpl; lia |].
    destruct (Ascii.eqb c "\").
    + destruct r as [| e r1]; [reflexivity |].
      simpl String.length in Hn.
      destruct (Ascii.eqb e "u").
      * destruct r1 as [| h1 [| h2 [| h3 [| h4 r2]]]]; try reflexivity.
        destruct (hex4 h1 h2 h3 h4) as [uni |]; [| reflexivity].
        simpl String.length in Hn.
        destruct (if is_high_surrogate uni then low_surrogate_escape r2 else None)
          as [uni2 |];
          [destruct r2 as [| ? [| ? [| ? [| ? [| ? [| ? r3]]]]]] |].
        all: try (eapply consumes_bind; [apply IH; simpl in *; lia | simpl in *; lia]).
      * destruct (simple_escape e); [| reflexivity].
        eapply consumes_bind; [apply IH; lia | simpl; lia].
    + destruct (code c <? 32); [reflexivity |].
      eapply consumes_bind; [apply IH; lia | simpl; lia].
Qed.

Lemma scanstring_consumes (s : string) : consumes (String "034" s) (scanstring s).
Proof. apply (scanstring_consumes_upto (String.length s)). lia. Qed.


Lemma span_digits_length (s : string) :
  (String.length (snd (span_digits s)) <= String.length s)%nat.
Proof.
  induction s as [| c s IH]; simpl; [lia |].
  destruct (is_digit c); [| simpl; lia].
  destruct (span_digits s) as [ds rest]. simpl in *. lia.
Qed.

Lemma int_part_length (s ip rest : string) :
  int_part s = Some (ip, rest) -> (String.length rest < String.length s)%nat.
Proof.
  destruct s as [| c r]; simpl; [discriminate |].
  destruct (Ascii.eqb c "0"); [intros H; inversion H; lia |].
  destruct (is_digit c); [| discriminate].
  pose proof (span_digits_length r) as Hr.
  destruct (span_digits r) as [ds rest']. intros H. inversion H. subst.
  simpl in Hr. lia.
Qed.

Lemma frac_part_length (s fp rest : string) :
  frac_part s = Some (fp, rest) -> (String.length rest <= String.length s)%nat.
Proof.
  destruct s as [| c r]; simpl; [discriminate |].
  destruct (Ascii.eqb c "."); [| discriminate].
  pose proof (span_digits_length r) as Hr.
  destruct (span_digits r) as [[| d ds] rest']; [discriminate |].
  intros H. inversion H. subst. simpl in Hr. lia.
Qed.

Lemma exp_digits_length (neg : bool) (s rest : string) (e : Z) :
  exp_digits neg s = Some (e, rest) -> (String.length rest <= String.length s)%nat.
Proof.
  unfold exp_digits. pose proof (span_digits_length s) as Hs.
  destruct (span_digits s) as [[| d ds] rest']; [discriminate |].
  intros H. inversion H. subst. simpl in Hs. lia.
Qed.

Lemma exp_part_length (s rest : string) (e : Z) :
  exp_part s = Some (e, rest) -> (String.length rest <= String.length s)%nat.
Proof.
  destruct s as [| c r]; simpl; [discriminate |].
  destruct (Ascii.eqb c "e" || Ascii.eqb c "E"); [| discriminate].
  destruct r as [| sg r']; [discriminate |].
  destruct (Ascii.eqb sg "-"); [| destruct (Ascii.eqb sg "+")];
    intros H; apply exp_digits_length in H; simpl in *; lia.
Qed.

Lemma number_after_sign_length (neg : bool) (s rest : string) (v : pyval) :
  number_after_sign neg s = Some (v, rest) ->
  (String.length rest < String.length s)%nat.
Proof.
  unfold number_after_sign.
  destruct (int_part s) as [[ip s2] |] eqn:Hip; [| discriminate].
  apply int_part_length in Hip.
  destruct (frac_part s2) as [[fp s3] |] eqn:Hfp.
  - apply frac_part_length in Hfp.
    destruct (exp_part s3) as [[e s4] |] eqn:Hep; intros H; inversion H; subst.
    + apply exp_part_length in Hep. lia.
    + lia.
  - destruct (exp_part s2) as [[e s3] |] eqn:Hep; intros H; inversion H; subst.
    + apply exp_part_length in Hep. lia.
    + lia.
Qed.

Lemma match_number_length (s rest : string) (v : pyval) :
  match_number s = Some (v, rest) -> (String.length rest < String.length s)%nat.
Proof.
  unfold match_number. destruct s as [| c r]; [discriminate |].
  destruct (Ascii.eqb c "-"); intros H; apply number_after_sign_length in H;
    simpl in *; lia.
Qed.

Lemma prefix_length (p s : string) :
  String.prefix p s = true -> (String.length p <= String.length s)%nat.
Proof.
  revert p. induction s as [| b s IH]; intros [| a p]; simpl; try lia;
    try discriminate.
  destruct (Ascii.ascii_dec a b); [| discriminate].
  intros H. apply IH in H. lia.
Qed.

Lemma substring_length (n m : nat) (s : string) :
  (n + m <= String.length s)%nat -> String.length (substring n m s) = m.
Proof.
  revert n m. induction s as [| c s IH]; intros n m H; simpl in H.
  - assert (n = 0 /\ m = 0)%nat as [-> ->] by lia. reflexivity.
  - destruct n as [| n]; simpl.
    + destruct m as [| m]; simpl; [reflexivity |]. rewrite IH; lia.
    + apply IH. lia.
Qed.

Lemma literal_length (lit s rest : string) (v v' : pyval) :
  lit <> "" -> literal lit v s = Some (v', rest) ->
  (String.length rest < String.length s)%nat.
Proof.
  unfold literal, PyStr.startswith. intros Hlit.
  destruct (String.prefix lit s) eqn:Hp; [| discriminate].
  apply prefix_length in Hp. intros H. inversion H.
  rewrite substring_length by lia.
  destruct lit; [congruence | simpl in *; lia].
Qed.

Lemma scan_atom_consumes (s : string) : consumes s (scan_atom s).
Proof.
  unfold scan_atom, consumes, first_of. cbn [fold_right].
  repeat match goal with
    | |- context [literal ?lit ?v s] =>
        let H := fresh "H" in
        destruct (literal lit v s) as [[? ?] |] eqn:H;
        [apply literal_length in H; [exact H | discriminate] |]
    end.
  destruct (match_number s) as [[v rest] |] eqn:Hnum; [| reflexivity].
  apply match_number_length in Hnum. exact Hnum.
Qed.


(** The step of a scanner that calls another one: the call fails, and so does
    the scanner, or it leaves a shorter text to go on with. *)
Ltac scan_call Hcall :=
  unfold consumes in Hcall |- *;
  match type of Hcall with
  | match ?call with _ => _ end =>
      destruct call as [? | [? ?]]; [exact Hcall | cbn [bind]]
  end.

(** The step of a scanner that reads one character after white space. *)
Ltac scan_char r c' r' :=
  let Hws := fresh "Hws" in
  pose proof (skip_ws_length r) as Hws;
  destruct (skip_ws r) as [| c' r']; [reflexivity |];
  simpl String.length in Hws.

(** Every scan with enough fuel for the text consumes some of it, and
    fails with a decoding error only. *)
Lemma scan_consumes (fuel : nat) :
  (forall s, (2 * String.length s < fuel)%nat -> consumes s (scan_once fuel s))
  /\ (forall s, (2 * String.length s < fuel)%nat -> consumes s (parse_pairs fuel s))
  /\ (forall s, (2 * String.length s + 1 < fuel)%nat -> consumes s (parse_items fuel s)).
Proof.
  induction fuel as [| fuel (IHv & IHp & IHi)];
    [repeat split; intros s H; lia |].
  split; [| split].
  - intros s Hs. destruct s as [| c r]; [reflexivity |].
    simpl String.length in Hs. cbn [scan_once].
    destruct (Ascii.eqb c PyStr.quote).
    { pose proof (scanstring_consumes r) as Hstr.
      scan_call Hstr. simpl in *. lia. }
    destruct (Ascii.eqb c "{").
    { scan_char r c1 r1.
      destruct (Ascii.eqb c1 "}"); [simpl; lia |].
      assert (Hmem : consumes (String c1 r1) (parse_pairs fuel (String c1 r1)))
        by (apply IHp; simpl; lia).
      scan_call Hmem. simpl in *. lia. }
    destruct (Ascii.eqb c "[").
    { scan_char r c1 r1.
      destruct (Ascii.eqb c1 "]"); [simpl; lia |].
      assert (Hel : consumes (String c1 r1) (parse_items fuel (String c1 r1)))
        by (apply IHi; simpl; lia).
      scan_call Hel. simpl in *. lia. }
    apply scan_atom_consumes.
  - intros s Hs. destruct s as [| c r]; [reflexivity |].
    simpl String.length in Hs. cbn [parse_pairs].
    destruct (Ascii.eqb c PyStr.quote); [| reflexivity]. cbn [negb].
    pose proof (scanstring_consumes r) as Hstr. scan_call Hstr.
    simpl String.length in Hstr.
    match goal with |- context [skip_ws ?r1] => scan_char r1 c2 r2 end.
    destruct (Ascii.eqb c2 ":"); [| reflexivity]. cbn [negb].
    pose proof (skip_ws_length r2) as Hws2.
    assert (Hval : consumes (skip_ws r2) (scan_once fuel (skip_ws r2)))
      by (apply IHv; lia).
    scan_call Hval.
    match goal with |- context [skip_ws ?r3] => scan_char r3 c4 r4 end.
    destruct (Ascii.eqb c4 "}"); [simpl; lia |].
    destruct (Ascii.eqb c4 ","); [| reflexivity].
    pose proof (skip_ws_length r4) as Hws4.
    assert (Hmore : consumes (skip_ws r4) (parse_pairs fuel (skip_ws r4)))
      by (apply IHp; lia).
    scan_call Hmore. simpl in *. lia.
  - intros s Hs. cbn [parse_items].
    assert (Hval : consumes s (scan_once fuel s)) by (apply IHv; lia).
    scan_call Hval.
    match goal with |- context [skip_ws ?r1] => scan_char r1 c2 r2 end.
    destruct (Ascii.eqb c2 "]"); [simpl; lia |].
    destruct (Ascii.eqb c2 ","); [| reflexivity].
    pose proof (skip_ws_length r2) as Hws2.
    assert (Hmore : consumes (skip_ws r2) (parse_items fuel (skip_ws r2)))
      by (apply IHi; lia).
    scan_call Hmore. simpl in *. lia.
Qed.

(** [loads] never runs out of fuel: it returns a value, or fails with a
    decoding error. *)
Theorem loads_total (s : string) :
  (exists v, loads s = inr v) \/ loads s = inl JSONDecodeError.
Proof.
  unfold loads.
  pose proof (skip_ws_length s) as Hws.
  assert (H : consumes (skip_ws s) (scan_once (2 * String.length s + 2) (skip_ws s)))
    by (apply scan_consumes; lia).
  unfold consumes in H.
  destruct (scan_once _ (skip_ws s)) as [e | [v rest]]; cbn [bind].
  - right. now subst e.
  - destruct (skip_ws rest); [left; eauto | right; reflexivity].
Qed.

End JsonFacts.

(** ** The candidate payload *)

Import PyStr PyStrFacts.

(** A payload in braces is cut out of prose that surrounds it. *)
Lemma json_str_wrapped (pre mid post : string) :
  mem "{" pre = false -> mem "}" post = false ->
  json_str (pre ++ String "{" (mid ++ String "}" post)) = String "{" (mid ++ "}").
Proof.
  intros Hpre Hpost. unfold json_str.
  rewrite (find_after "{" pre _ Hpre).
  replace (pre ++ String "{" (mid ++ String "}" post))
    with ((pre ++ String "{" mid) ++ String "}" post)
    by (rewrite app_assoc; reflexivity).
  rewrite (rfind_before "}" _ post Hpost).
  replace ((pre ++ String "{" mid) ++ String "}" post)
    with (pre ++ String "{" (mid ++ "}") ++ post)
    by (rewrite !app_assoc; simpl; rewrite app_assoc; reflexivity).
  replace (Z.of_nat (String.length (pre ++ String "{" mid)) + 1)
    with (Z.of_nat (String.length pre)
          + Z.of_nat (String.length (String "{" (mid ++ "}")))).
  - apply slice_middle. discriminate.
  - rewrite !length_app. simpl String.length. rewrite length_app. simpl. lia.
Qed.

(** Without an opening brace the candidate is empty, or a lone closing brace. *)
Lemma json_str_no_open (response : string) :
  mem "{" response = false ->
  json_str response = "" \/ json_str response = "}".
Proof.
  intros H. unfold json_str. rewrite (find_absent _ _ H).
  unfold slice, clip. change (-1 <? 0) with true. cbv iota.
  set (len := Z.of_nat (String.length response)).
  destruct (rfind_range "}" response) as [Hr | [Hr ->]]; [| left; reflexivity].
  fold len in Hr.
  destruct (Z.ltb_spec (rfind "}" response + 1) 0); [lia |].
  rewrite Z.min_l by lia.
  destruct (Z.ltb_spec (Z.max (-1 + len) 0) (rfind "}" response + 1)); [| left; reflexivity].
  right.
  assert (Hlast : rfind "}" response = len - 1) by lia.
  assert (Hne : response <> "") by (intros ->; simpl in *; lia).
  replace (Z.to_nat (Z.max (-1 + len) 0)) with (String.length response - 1)%nat by lia.
  replace (Z.to_nat _) with 1%nat by lia.
  apply rfind_last; assumption.
Qed.

(** A reply is a payload in braces with text around it, or its candidate is
    empty or a lone closing brace. *)
Lemma json_str_shape (response : string) :
  (exists pre mid post,
      response = pre ++ String "{" (mid ++ String "}" post)
      /\ mem "{" pre = false /\ mem "}" post = false)
  \/ json_str response = "" \/ json_str response = "}".
Proof.
  destruct (mem "{" response) eqn:Hopen; [| right; now apply json_str_no_open].
  destruct (mem_split_first _ _ Hopen) as (pre & rest & -> & Hpre).
  destruct (mem "}" rest) eqn:Hclose.
  - destruct (mem_split_last _ _ Hclose) as (mid & post & -> & Hpost).
    left. exists pre, mid, post. auto.
  - right. left. unfold json_str.
    rewrite (find_after "{" pre rest Hpre).
    rewrite rfind_app_absent by (simpl; exact Hclose).
    pose proof (rfind_below_length "}" pre) as Hr.
    unfold slice, clip. rewrite length_app. simpl String.length.
    destruct (Z.ltb_spec (Z.of_nat (String.length pre)) 0); [lia |].
    destruct (Z.ltb_spec (rfind "}" pre + 1) 0); [lia |].
    rewrite !Z.min_l by lia.
    destruct (Z.ltb_spec (Z.of_nat (String.length pre)) (rfind "}" pre + 1));
      [lia | reflexivity].
Qed.

Lemma loads_empty : Json.loads "" = inl JSONDecodeError.
Proof. reflexivity. Qed.

Lemma loads_closing_brace : Json.loads "}" = inl JSONDecodeError.
Proof. reflexivity. Qed.

(** ** The body of the [try] *)

Lemma getitem_inr (data : pyval) (k : string) (v : pyval) :
  Py.getitem data k = inr v ->
  exists kvs, data = PyDict kvs /\ Py.lookup k kvs = Some v.
Proof.
  destruct data; simpl; try discriminate.
  destruct (Py.lookup k kvs) eqn:E; [| discriminate].
  intros H. inversion H. subst. eauto.
Qed.

(** What a result that was built tells about the reply it was built from. *)
Lemma result_of_data_inr (data : pyval) (r : AnalysisResult) :
  result_of_data data = inr r ->
  exists kvs entries items total,
    data = PyDict kvs
    /\ Py.lookup "scores" kvs = Some entries
    /\ Py.iter entries = inr items
    /\ mapM EvaluationScore_init items = inr (scores r)
    /\ Py.sum (map score (scores r)) = inr total
    /\ Py.truediv total (Z.of_nat (List.length (scores r))) = inr (overall_score r)
    /\ Py.lookup "executive_summary" kvs = Some (executive_summary r)
    /\ Py.lookup "detailed_plan" kvs = Some (detailed_plan r)
    /\ Py.lookup "risk_flags" kvs = Some (risk_flags r)
    /\ Py.lookup "build_checklist" kvs = Some (build_checklist r)
    /\ tech_stack r = get_default "tech_stack" kvs
    /\ pitch_deck r = get_default "pitch_deck" kvs.
Proof.
  unfold result_of_data. intros H.
  apply bind_inr in H as (entries & Hent & H).
  apply getitem_inr in Hent as (kvs & -> & Hscores).
  apply bind_inr in H as (items & Hitems & H).
  apply bind_inr in H as (ss & Hss & H).
  apply bind_inr in H as (total & Htotal & H).
  apply bind_inr in H as (overall & Hov & H).
  apply bind_inr in H as (summary & Hsum & H).
  apply getitem_inr in Hsum as (? & Heq & Hsum). inversion Heq; subst x.
  apply bind_inr in H as (plan & Hplan & H).
  apply getitem_inr in Hplan as (? & Heq1 & Hplan). inversion Heq1; subst x.
  apply bind_inr in H as (risks & Hrisks & H).
  apply getitem_inr in Hrisks as (? & Heq2 & Hrisks). inversion Heq2; subst x.
  apply bind_inr in H as (checklist & Hcheck & H).
  apply getitem_inr in Hcheck as (? & Heq3 & Hcheck). inversion Heq3; subst x.
  unfold Py.get in H. fold (get_default "tech_stack" kvs) in H.
  assert (Hr : r = {| executive_summary := summary; scores := ss;
                      detailed_plan := plan; risk_flags := risks;
                      build_checklist := checklist;
                      tech_stack := get_default "tech_stack" kvs;
                      pitch_deck := get_default "pitch_deck" kvs;
                      overall_score := overall |}).
  { unfold get_default.
    destruct (Py.lookup "tech_stack" kvs), (Py.lookup "pitch_deck" kvs);
      simpl in H; inversion H; reflexivity. }
  subst r. simpl. exists kvs, entries, items, total. repeat split; assumption.
Qed.

(** The converse: the steps that have to go through for a result. *)
Lemma result_of_data_ok (kvs : list (string * pyval)) (entries : pyval)
    (items : list pyval) (ss : list EvaluationScore) (total : pyval) (overall : pyfloat)
    (summary plan risks checklist : pyval) :
  Py.lookup "scores" kvs = Some entries ->
  Py.iter entries = inr items ->
  mapM EvaluationScore_init items = inr ss ->
  Py.sum (map score ss) = inr total ->
  Py.truediv total (Z.of_nat (List.length ss)) = inr overall ->
  Py.lookup "executive_summary" kvs = Some summary ->
  Py.lookup "detailed_plan" kvs = Some plan ->
  Py.lookup "risk_flags" kvs = Some risks ->
  Py.lookup "build_checklist" kvs = Some checklist ->
  result_of_data (PyDict kvs)
  = inr {| executive_summary := summary; scores := ss;
           detailed_plan := plan; risk_flags := risks;
           build_checklist := checklist;
           tech_stack := get_default "tech_stack" kvs;
           pitch_deck := get_default "pitch_deck" kvs;
           overall_score := overall |}.
Proof.
  intros Hs Hi Hm Ht Ho He Hp Hr Hc.
  unfold result_of_data, Py.getitem, Py.get, get_default.
  rewrite Hs. simpl bind. rewrite Hi. simpl bind. rewrite Hm. simpl bind.
  rewrite Ht. simpl bind. rewrite Ho. simpl bind.
  rewrite He, Hp, Hr, Hc. simpl bind.
  destruct (Py.lookup "tech_stack" kvs), (Py.lookup "pitch_deck" kvs); reflexivity.
Qed.

Lemma run_parse_inl (response : string) (e : exn) :
  parse_body response = inl e ->
  run_parse_claude_response response = (_create_empty_result, [e]).
Proof. unfold run_parse_claude_response. intros ->. reflexivity. Qed.

Lemma run_parse_inr (response : string) (r : AnalysisResult) :
  parse_body response = inr r ->
  run_parse_claude_response response = (r, []).
Proof. unfold run_parse_claude_response. intros ->. reflexivity. Qed.

Lemma parse_body_loads (response : string) (data : pyval) :
  Json.loads (json_str response) = inr data ->
  parse_body response = result_of_data data.
Proof. unfold parse_body. intros ->. reflexivity. Qed.

(** ** Failure paths *)

(** C3, as amended.  A reply with no opening brace at all, or whose text
    between the first opening and the last closing brace is not valid JSON,
    makes [_parse_claude_response] return, without raising, the result of
    [_create_empty_result]: the summary is the text "Analysis failed", every
    other field is empty and the overall score is 0.0; the decoding error is
    the one error shown. *)
Theorem malformed_reply_yields_failure_result (response : string) :
  mem "{" response = false \/ (exists e, Json.loads (json_str response) = inl e) ->
  _parse_claude_response response = _create_empty_result
  /\ executive_summary (_parse_claude_response response) = PyStr "Analysis failed"
  /\ overall_score (_parse_claude_response response) = FFin 0
  /\ run_parse_claude_response response = (_create_empty_result, [JSONDecodeError]).
Proof.
  intros H.
  assert (He : Json.loads (json_str response) = inl JSONDecodeError).
  { destruct H as [H | [e He]].
    - destruct (json_str_no_open response H) as [-> | ->];
        [exact loads_empty | exact loads_closing_brace].
    - destruct (JsonFacts.loads_total (json_str response)) as [[v Hv] | Herr];
        [congruence | exact Herr]. }
  assert (Hrun : run_parse_claude_response response
                 = (_create_empty_result, [JSONDecodeError])).
  { apply run_parse_inl. unfold parse_body. rewrite He. reflexivity. }
  unfold _parse_claude_response. rewrite Hrun. simpl. auto.
Qed.

Lemma malformed_reply_witness :
  _parse_claude_response "Sorry, I cannot help with that." = _create_empty_result
  /\ _parse_claude_response (apostrophed "Result: {'scores': [}") = _create_empty_result.
Proof.
  split.
  - apply (malformed_reply_yields_failure_result "Sorry, I cannot help with that.").
    left. reflexivity.
  - apply (malformed_reply_yields_failure_result (apostrophed "Result: {'scores': [}")).
    right. exists JSONDecodeError. reflexivity.
Defined.

(** C3 as it is written fails: for a reply without any brace the result is not
    the one with every field empty. *)
Lemma malformed_reply_not_all_empty :
  mem "{" "Sorry, I cannot help with that." = false
  /\ _parse_claude_response "Sorry, I cannot help with that." <> all_empty_result.
Proof. split; [reflexivity | discriminate]. Qed.

(** C4, as amended.  Every failure path of [analyze_idea], the client raising
    or the body of the [try] of [_parse_claude_response] raising, returns the
    fixed result of [_create_empty_result]: the summary is the text
    "Analysis failed", the scores, the plan, the risk flags, the check list,
    the tech stack and the pitch deck are empty, the overall score is 0.0. *)
Theorem failure_path_returns_fixed_result
    (client : string -> result string) (idea_input : IdeaInput) :
  failure_path client idea_input ->
  let r := analyze_idea client idea_input in
  r = _create_empty_result
  /\ executive_summary r = PyStr "Analysis failed"
  /\ scores r = []
  /\ detailed_plan r = PyStr ""
  /\ risk_flags r = PyList []
  /\ build_checklist r = PyList []
  /\ tech_stack r = PyDict []
  /\ pitch_deck r = PyDict []
  /\ overall_score r = FFin 0.
Proof.
  unfold failure_path, analyze_idea. intros H.
  destruct (client (_build_analysis_prompt idea_input)) as [e | text].
  - cbv zeta. repeat split.
  - destruct H as [e He]. unfold _parse_claude_response.
    rewrite (run_parse_inl _ _ He). cbv zeta. repeat split.
Qed.

Lemma failure_path_witness :
  analyze_idea (fun _ => raise APIError) sample_idea = _create_empty_result
  /\ analyze_idea (fun _ => ret "not json") sample_idea = _create_empty_result.
Proof.
  split.
  - apply (failure_path_returns_fixed_result (fun _ => raise APIError) sample_idea).
    exact I.
  - apply (failure_path_returns_fixed_result (fun _ => ret "not json") sample_idea).
    exists JSONDecodeError. reflexivity.
Defined.

(** C4 as it is written fails: on the failure path of a raising client the
    summary of the result is not the empty string. *)
Lemma failure_result_summary_not_empty :
  failure_path (fun _ => raise APIError) sample_idea
  /\ executive_summary (analyze_idea (fun _ => raise APIError) sample_idea) <> PyStr "".
Proof. split; [exact I | discriminate]. Qed.

(** ** The entries of the scores *)

Lemma EvaluationScore_init_inr (v : pyval) (s : EvaluationScore) :
  EvaluationScore_init v = inr s ->
  exists entry,
    v = PyDict entry
    /\ (forall k, In k (Py.keys entry) -> In k EvaluationScore_fields)
    /\ Py.lookup "dimension" entry = Some (dimension s)
    /\ Py.lookup "score" entry = Some (score s)
    /\ Py.lookup "reasoning" entry = Some (reasoning s).
Proof.
  destruct v as [| | | | | | entry]; unfold EvaluationScore_init; try discriminate.
  destruct (forallb _ (Py.keys entry)) eqn:Hkeys; [| discriminate].
  destruct (Py.lookup "dimension" entry) as [d |] eqn:Hd; [| discriminate].
  destruct (Py.lookup "score" entry) as [sc |] eqn:Hsc; [| discriminate].
  destruct (Py.lookup "reasoning" entry) as [re |] eqn:Hre; [| discriminate].
  intros H. inversion H. subst s. simpl. exists entry.
  split; [reflexivity |]. split; [| auto].
  intros k Hk. rewrite forallb_forall in Hkeys. specialize (Hkeys k Hk).
  apply existsb_exists in Hkeys as (f & Hf & Heq).
  apply String.eqb_eq in Heq. subst f. exact Hf.
Qed.

Lemma EvaluationScore_init_ok (entry : list (string * pyval)) (d sc re : pyval) :
  (forall k, In k (Py.keys entry) -> In k EvaluationScore_fields) ->
  Py.lookup "dimension" entry = Some d ->
  Py.lookup "score" entry = Some sc ->
  Py.lookup "reasoning" entry = Some re ->
  EvaluationScore_init (PyDict entry)
  = inr {| dimension := d; score := sc; reasoning := re |}.
Proof.
  intros Hkeys Hd Hs Hr. unfold EvaluationScore_init.
  replace (forallb _ (Py.keys entry)) with true.
  - rewrite Hd, Hs, Hr. reflexivity.
  - symmetry. apply forallb_forall. intros k Hk.
    apply existsb_exists. exists k. split; [auto | apply String.eqb_refl].
Qed.

Lemma Forall2_In_l {A B : Type} (P : A -> B -> Prop) (l : list A) (bs : list B) (a : A) :
  Forall2 P l bs -> In a l -> exists b, In b bs /\ P a b.
Proof.
  induction 1 as [| x y l bs Hxy _ IH]; simpl; [contradiction |].
  intros [-> | Hin]; [eauto |].
  destruct (IH Hin) as (b & Hb & HP). eauto.
Qed.

Section ScoreEntries.

Variables (kvs : list (string * pyval)) (items : list pyval).
Hypothesis Hscores : Py.lookup "scores" kvs = Some (PyList items).

(** The entries of the scores that a built result rests on were accepted by
    the constructor. *)
Lemma built_result_entries (r : AnalysisResult) :
  result_of_data (PyDict kvs) = inr r ->
  Forall2 (fun item s => EvaluationScore_init item = inr s) items (scores r).
Proof.
  intros H.
  apply result_of_data_inr in H
    as (kvs' & entries & items' & total & Heq & Hs' & Hit & Hm & _).
  inversion Heq; subst kvs'. rewrite Hscores in Hs'. inversion Hs'; subst entries.
  simpl in Hit. inversion Hit; subst items'.
  apply mapM_Forall2. exact Hm.
Qed.

(** One entry the constructor rejects, and no result is built. *)
Lemma rejected_entry_fails (item : pyval) :
  In item items ->
  (forall s, EvaluationScore_init item <> inr s) ->
  forall r, result_of_data (PyDict kvs) <> inr r.
Proof.
  intros Hin Hrej r Hr.
  destruct (Forall2_In_l _ _ _ _ (built_result_entries r Hr) Hin) as (s & _ & Hs).
  exact (Hrej s Hs).
Qed.

End ScoreEntries.

Lemma parse_failure (response : string) (data : pyval) :
  Json.loads (json_str response) = inr data ->
  (forall r, result_of_data data <> inr r) ->
  exists e, run_parse_claude_response response = (_create_empty_result, [e]).
Proof.
  intros Hl Hno. destruct (result_of_data data) as [e | r] eqn:E.
  - exists e. apply run_parse_inl. rewrite (parse_body_loads _ _ Hl). exact E.
  - destruct (Hno r). reflexivity.
Qed.

(** C6.  A reply whose payload is valid JSON but lacks one of the required
    top-level fields (executive_summary, scores, detailed_plan, risk_flags,
    build_checklist), or has a score entry that lacks one of dimension, score
    and reasoning, makes [_parse_claude_response] return the result of
    [_create_empty_result] and show one error: no result is built from a part
    of the payload. *)
Theorem missing_required_field_fails_closed
    (response : string) (kvs : list (string * pyval)) :
  Json.loads (json_str response) = inr (PyDict kvs) ->
  lacks_required_field kvs ->
  _parse_claude_response response = _create_empty_result
  /\ exists e, run_parse_claude_response response = (_create_empty_result, [e]).
Proof.
  intros Hl Hlack.
  assert (Hrun : exists e, run_parse_claude_response response = (_create_empty_result, [e])).
  { apply (parse_failure _ _ Hl).
    destruct Hlack as [(k & Hk & Hnone) | (items & entry & f & Hs & Hin & Hf & Hnone)].
    - intros r Hr. apply result_of_data_inr in Hr
        as (kvs' & entries & _ & _ & Heq & Hs & _ & _ & _ & _ & He & Hp & Hrf & Hb & _).
      inversion Heq; subst kvs'.
      simpl in Hk. destruct Hk as [<- | [<- | [<- | [<- | [<- | []]]]]]; congruence.
    - apply (rejected_entry_fails kvs items Hs (PyDict entry) Hin).
      intros s Hinit.
      apply EvaluationScore_init_inr in Hinit as (entry' & Heq & _ & Hd & Hsc & Hre).
      inversion Heq; subst entry'.
      simpl in Hf. destruct Hf as [<- | [<- | [<- | []]]]; congruence. }
  split; [| exact Hrun].
  destruct Hrun as [e Hrun]. unfold _parse_claude_response. rewrite Hrun. reflexivity.
Qed.

Lemma missing_required_field_witness :
  _parse_claude_response reply_without_plan = _create_empty_result
  /\ _parse_claude_response reply_without_reasoning = _create_empty_result.
Proof.
  split.
  - eapply (missing_required_field_fails_closed reply_without_plan).
    + vm_compute. reflexivity.
    + left. exists "detailed_plan". split; [simpl; auto | reflexivity].
  - eapply (missing_required_field_fails_closed reply_without_reasoning).
    + vm_compute. reflexivity.
    + right. eexists _, _, "reasoning". split; [reflexivity |].
      split; [left; reflexivity |]. split; [simpl; auto | reflexivity].
Defined.

(** C10.  A reply whose payload is valid JSON and has a score entry with a key
    other than dimension, score and reasoning makes [_parse_claude_response]
    return the result of [_create_empty_result] and show one error: the key is
    not ignored. *)
Theorem unknown_score_key_fails
    (response : string) (kvs : list (string * pyval)) (items : list pyval)
    (entry : list (string * pyval)) (k : string) :
  Json.loads (json_str response) = inr (PyDict kvs) ->
  Py.lookup "scores" kvs = Some (PyList items) ->
  In (PyDict entry) items ->
  In k (Py.keys entry) ->
  ~ In k EvaluationScore_fields ->
  _parse_claude_response response = _create_empty_result
  /\ exists e, run_parse_claude_response response = (_create_empty_result, [e]).
Proof.
  intros Hl Hs Hin Hk Hnot.
  assert (Hrun : exists e, run_parse_claude_response response = (_create_empty_result, [e])).
  { apply (parse_failure _ _ Hl).
    apply (rejected_entry_fails kvs items Hs (PyDict entry) Hin).
    intros s Hinit.
    apply EvaluationScore_init_inr in Hinit as (entry' & Heq & Hkeys & _).
    inversion Heq; subst entry'. auto. }
  split; [| exact Hrun].
  destruct Hrun as [e Hrun]. unfold _parse_claude_response. rewrite Hrun. reflexivity.
Qed.

Lemma unknown_score_key_witness :
  _parse_claude_response reply_with_confidence = _create_empty_result.
Proof.
  eapply (unknown_score_key_fails reply_with_confidence _ _ _ "confidence").
  - vm_compute. reflexivity.
  - vm_compute. reflexivity.
  - left. reflexivity.
  - simpl. auto.
  - simpl. intros [H | [H | [H | []]]]; discriminate.
Defined.

(** ** Arithmetic on the scores *)

Module PyFacts.

Import Py.

Lemma as_number_inr (v : pyval) (n : number) :
  as_number v = inr n -> is_number v = true.
Proof. destruct v; simpl; intros H; try discriminate; reflexivity. Qed.

Lemma add_inr (a b c : pyval) :
  add a b = inr c -> is_number b = true /\ is_number c = true.
Proof.
  unfold add. intros H.
  apply bind_inr in H as (x & Hx & H).
  apply bind_inr in H as (y & Hy & H).
  split; [exact (as_number_inr _ _ Hy) |].
  destruct x, y.
  - inversion H. reflexivity.
  - apply bind_inr in H as (f' & _ & H). inversion H. reflexivity.
  - apply bind_inr in H as (g & _ & H). inversion H. reflexivity.
  - inversion H. reflexivity.
Qed.

(** A sum that is computed has added numbers only. *)
Lemma sum_from_numbers (l : list pyval) (acc total : pyval) :
  sum_from acc l = inr total -> Forall (fun v => is_number v = true) l.
Proof.
  revert acc. induction l as [| v l IH]; simpl; intros acc H; [constructor |].
  apply bind_inr in H as (acc' & Hadd & H).
  constructor; [exact (proj1 (add_inr _ _ _ Hadd)) | exact (IH _ H)].
Qed.

Lemma sum_from_ints (zs : list Z) (a : Z) :
  sum_from (PyInt a) (map PyInt zs) = inr (PyInt (a + Py.Zsum zs)).
Proof.
  revert a. induction zs as [| z zs IH]; simpl; intros a.
  - now rewrite Z.add_0_r.
  - unfold Py.Zsum in *. rewrite IH. simpl. f_equal. f_equal. lia.
Qed.

Lemma sum_ints (zs : list Z) : sum (map PyInt zs) = inr (PyInt (Py.Zsum zs)).
Proof. unfold sum. rewrite sum_from_ints. reflexivity. Qed.

Lemma bound_above_five : 5 < float_overflow_bound.
Proof. reflexivity. Qed.

Lemma quotient_no_overflow (s m : Z) (p : positive) :
  Z.abs s <= m * Zpos p -> m < float_overflow_bound ->
  overflows (inject_Z s / inject_Z (Zpos p)) = false.
Proof.
  intros Hs Hm. unfold overflows, Qle_bool, Qdiv, Qmult, Qinv, Qabs, inject_Z.
  cbn [Qnum Qden]. apply Z.leb_gt.
  rewrite Z.mul_1_r, Pos.mul_1_l, Z.mul_1_r.
  generalize dependent float_overflow_bound. intros b Hm. nia.
Qed.

(** The mean of integers from a bounded range is computed. *)
Lemma truediv_ints (s m n : Z) :
  0 < n -> Z.abs s <= m * n -> m < float_overflow_bound ->
  truediv (PyInt s) n = inr (FFin (round53 (inject_Z s / inject_Z n))).
Proof.
  intros Hn Hs Hm. unfold truediv. simpl bind.
  destruct (Z.eqb_spec n 0); [lia |].
  destruct n as [| p | p]; try lia.
  rewrite (quotient_no_overflow s m p Hs Hm). reflexivity.
Qed.

Lemma truediv_by_zero (total : pyval) (f : pyfloat) :
  truediv total 0 <> inr f.
Proof.
  unfold truediv. destruct (as_number total) as [e | [z | g]]; simpl; discriminate.
Qed.

End PyFacts.

(** ** Replies without scores, and scores out of range *)

(** C5, as amended.  A reply whose payload is valid JSON with an empty scores
    array makes the mean divide by zero: the exception is caught, and
    [_parse_claude_response] returns the result of [_create_empty_result]
    (scores empty, overall score 0.0) and shows the error, whatever the other
    fields of the payload are. *)
Theorem empty_scores_is_failure (response : string) (kvs : list (string * pyval)) :
  Json.loads (json_str response) = inr (PyDict kvs) ->
  Py.lookup "scores" kvs = Some (PyList []) ->
  run_parse_claude_response response = (_create_empty_result, [ZeroDivisionError])
  /\ _parse_claude_response response = _create_empty_result.
Proof.
  intros Hl Hs.
  assert (Hrun : run_parse_claude_response response
                 = (_create_empty_result, [ZeroDivisionError])).
  { apply run_parse_inl. rewrite (parse_body_loads _ _ Hl).
    unfold result_of_data, Py.getitem. rewrite Hs. reflexivity. }
  split; [exact Hrun |].
  unfold _parse_claude_response. rewrite Hrun. reflexivity.
Qed.

Lemma empty_scores_witness :
  run_parse_claude_response reply_with_empty_scores
  = (_create_empty_result, [ZeroDivisionError]).
Proof.
  eapply (empty_scores_is_failure reply_with_empty_scores).
  - vm_compute. reflexivity.
  - vm_compute. reflexivity.
Defined.

(** C5 as it is written fails: the payload below is valid JSON, has every
    required field and an empty scores array, and the result is not the one
    built from its fields. *)
Lemma empty_scores_not_populated :
  exists kvs,
    Json.loads (json_str reply_with_empty_scores) = inr (PyDict kvs)
    /\ required_fields = filter (fun k => present k kvs) required_fields
    /\ Py.lookup "scores" kvs = Some (PyList [])
    /\ _parse_claude_response reply_with_empty_scores <> populated_without_scores kvs
    /\ _parse_claude_response reply_with_empty_scores = _create_empty_result.
Proof.
  eexists. split; [vm_compute; reflexivity |].
  split; [vm_compute; reflexivity |].
  split; [vm_compute; reflexivity |].
  split; [vm_compute; discriminate | vm_compute; reflexivity].
Qed.




(** ** Replies that match the schema *)

Lemma lookup_in_keys (k : string) (kvs : list (string * pyval)) (v : pyval) :
  Py.lookup k kvs = Some v -> In k (Py.keys kvs).
Proof.
  induction kvs as [| [k' v'] kvs IH]; simpl; [discriminate |].
  destruct (String.eqb_spec k' k); [auto | intros H; right; auto].
Qed.

Lemma lookup_not_in_keys (k : string) (kvs : list (string * pyval)) :
  ~ In k (Py.keys kvs) -> Py.lookup k kvs = None.
Proof.
  intros Hnot. destruct (Py.lookup k kvs) eqn:E; [| reflexivity].
  destruct Hnot. exact (lookup_in_keys _ _ _ E).
Qed.

Lemma keys_within (fields : list string) (kvs : list (string * pyval)) :
  forallb (fun k => existsb (String.eqb k) fields) (Py.keys kvs) = true ->
  forall k, In k (Py.keys kvs) -> In k fields.
Proof.
  intros H k Hk. rewrite forallb_forall in H. specialize (H k Hk).
  apply existsb_exists in H as (f & Hf & Heq).
  apply String.eqb_eq in Heq. now subst f.
Qed.

Lemma present_lookup (k : string) (kvs : list (string * pyval)) :
  present k kvs = true -> exists v, Py.lookup k kvs = Some v.
Proof. unfold present. destruct (Py.lookup k kvs); [eauto | discriminate]. Qed.

(** An entry whose keys are the three fields is the mapping of its score. *)
Lemma entry_same_mapping (entry : list (string * pyval)) (s : EvaluationScore) :
  (forall k, In k (Py.keys entry) -> In k EvaluationScore_fields) ->
  Py.lookup "dimension" entry = Some (dimension s) ->
  Py.lookup "score" entry = Some (score s) ->
  Py.lookup "reasoning" entry = Some (reasoning s) ->
  same_mapping entry (entry_of s).
Proof.
  intros Hkeys Hd Hs Hr k. unfold entry_of. cbn [Py.lookup].
  destruct (String.eqb_spec "dimension" k); [subst; exact Hd |].
  destruct (String.eqb_spec "score" k); [subst; exact Hs |].
  destruct (String.eqb_spec "reasoning" k); [subst; exact Hr |].
  apply lookup_not_in_keys. intros Hin. apply Hkeys in Hin. simpl in Hin.
  intuition congruence.
Qed.

(** An accepted entry is reproduced by its score. *)
Lemma accepted_entry_reproduced (item : pyval) (s : EvaluationScore) :
  EvaluationScore_init item = inr s ->
  exists entry, item = PyDict entry /\ same_mapping entry (entry_of s).
Proof.
  intros H. apply EvaluationScore_init_inr in H as (entry & -> & Hk & Hd & Hs & Hr).
  exists entry. split; [reflexivity | now apply entry_same_mapping].
Qed.

(** Entries of the schema are accepted, and their scores are integers from 0
    to 5. *)
Lemma schema_entries_accepted (items : list pyval) :
  forallb is_score_entry items = true ->
  exists ss zs,
    mapM EvaluationScore_init items = inr ss
    /\ map score ss = map PyInt zs
    /\ Forall (fun z => 0 <= z <= 5) zs.
Proof.
  induction items as [| item items IH]; simpl; intros H.
  - exists [], []. repeat split. constructor.
  - apply andb_true_iff in H as [Hitem Hitems].
    destruct (IH Hitems) as (ss & zs & Hm & Hsc & Hrange).
    destruct item as [| | | | | | entry]; unfold is_score_entry in Hitem;
      try discriminate.
    apply andb_true_iff in Hitem as [Hkeys Hfields].
    destruct (Py.lookup "dimension" entry) as [d |] eqn:Hd; [| discriminate].
    destruct (Py.lookup "score" entry) as [[| | z | | | |] |] eqn:Hs; try discriminate.
    destruct (Py.lookup "reasoning" entry) as [re |] eqn:Hr; [| discriminate].
    exists ({| dimension := d; score := PyInt z; reasoning := re |} :: ss), (z :: zs).
    rewrite (EvaluationScore_init_ok entry d (PyInt z) re
               (keys_within _ _ Hkeys) Hd Hs Hr).
    simpl bind. rewrite Hm. simpl. rewrite Hsc. repeat split.
    constructor; [lia | exact Hrange].
Qed.

Lemma Zsum_range (zs : list Z) :
  Forall (fun z => 0 <= z <= 5) zs ->
  0 <= Py.Zsum zs <= 5 * Z.of_nat (List.length zs).
Proof.
  induction 1 as [| z zs Hz _ IH]; unfold Py.Zsum in *; simpl fold_right;
    simpl List.length; lia.
Qed.

(** The result built from a reply whose required part matches the schema. *)
Lemma schema_reply_parses (response : string) (kvs : list (string * pyval)) :
  Json.loads (json_str response) = inr (PyDict kvs) ->
  required_part_ok kvs = true ->
  exists r zs,
    parse_body response = inr r
    /\ Py.lookup "executive_summary" kvs = Some (executive_summary r)
    /\ Py.lookup "detailed_plan" kvs = Some (detailed_plan r)
    /\ Py.lookup "risk_flags" kvs = Some (risk_flags r)
    /\ Py.lookup "build_checklist" kvs = Some (build_checklist r)
    /\ tech_stack r = get_default "tech_stack" kvs
    /\ pitch_deck r = get_default "pitch_deck" kvs
    /\ (exists items,
          Py.lookup "scores" kvs = Some (PyList items)
          /\ Forall2 (fun item s => exists entry,
                        item = PyDict entry /\ same_mapping entry (entry_of s))
               items (scores r))
    /\ scores r <> []
    /\ map score (scores r) = map PyInt zs
    /\ overall_score r
       = FFin (Py.round53 (inject_Z (Py.Zsum zs) / inject_Z (Z.of_nat (List.length zs)))).
Proof.
  intros Hl Hok. unfold required_part_ok in Hok.
  repeat (apply andb_true_iff in Hok as [Hok ?]).
  destruct (Py.lookup "scores" kvs) as [[| | | | | [| item items] |] |] eqn:Hs;
    try discriminate.
  destruct (schema_entries_accepted _ Hok) as (ss & zs & Hm & Hsc & Hrange).
  destruct (present_lookup _ _ H) as [checklist Hc].
  destruct (present_lookup _ _ H0) as [risks Hr].
  destruct (present_lookup _ _ H1) as [plan Hp].
  destruct (present_lookup _ _ H2) as [summary He].
  assert (Hlen : List.length ss = List.length zs).
  { rewrite <- (length_map score ss), Hsc. apply length_map. }
  assert (Hpos : (0 < List.length ss)%nat).
  { rewrite (mapM_length _ _ _ Hm). simpl. lia. }
  pose proof (Zsum_range zs Hrange) as Hsum.
  eexists _, zs. split.
  - rewrite (parse_body_loads _ _ Hl).
    apply (result_of_data_ok kvs (PyList (item :: items)) (item :: items) ss
             (PyInt (Py.Zsum zs))
             (FFin (Py.round53 (inject_Z (Py.Zsum zs) / inject_Z (Z.of_nat (List.length ss)))))
             summary plan risks checklist);
      try eassumption.
    + reflexivity.
    + rewrite Hsc. apply PyFacts.sum_ints.
    + apply (PyFacts.truediv_ints _ 5); [lia | lia | exact PyFacts.bound_above_five].
  - simpl. rewrite Hlen. repeat split; try assumption.
    + exists (item :: items). split; [reflexivity |].
      apply mapM_Forall2 in Hm. clear - Hm.
      induction Hm as [| x y l l' Hxy _ IH]; constructor;
        [exact (accepted_entry_reproduced _ _ Hxy) | exact IH].
    + intros ->. simpl in Hpos. lia.
Qed.

(** The result built from a reply of the full schema reproduces the payload. *)
Lemma schema_reply_reproduced (response : string) (kvs : list (string * pyval)) :
  Json.loads (json_str response) = inr (PyDict kvs) ->
  full_schema kvs = true ->
  reproduces kvs (_parse_claude_response response)
  /\ run_parse_claude_response response = (_parse_claude_response response, []).
Proof.
  intros Hl Hfull. unfold full_schema in Hfull.
  apply andb_true_iff in Hfull as [Hfull Hkeys].
  apply andb_true_iff in Hfull as [Hfull Hdeck].
  apply andb_true_iff in Hfull as [Hfull Hstack].
  apply andb_true_iff in Hfull as [Hfull _].
  destruct (schema_reply_parses response kvs Hl Hfull)
    as (r & zs & Hr & He & Hp & Hrf & Hb & Ht & Hd & Hsc & _).
  unfold _parse_claude_response. rewrite (run_parse_inr _ _ Hr). simpl fst.
  split; [| reflexivity].
  split; [| exact Hsc].
  intros k Hk. unfold payload_of. cbn [Py.lookup].
  destruct (present_lookup _ _ Hstack) as [stack Hstack'].
  destruct (present_lookup _ _ Hdeck) as [deck Hdeck'].
  unfold get_default in Ht, Hd. rewrite Hstack' in Ht. rewrite Hdeck' in Hd.
  destruct (String.eqb_spec "executive_summary" k); [subst; exact He |].
  destruct (String.eqb_spec "scores" k); [congruence |].
  destruct (String.eqb_spec "detailed_plan" k); [subst; exact Hp |].
  destruct (String.eqb_spec "risk_flags" k); [subst; exact Hrf |].
  destruct (String.eqb_spec "build_checklist" k); [subst; exact Hb |].
  destruct (String.eqb_spec "tech_stack" k); [subst; congruence |].
  destruct (String.eqb_spec "pitch_deck" k); [subst; congruence |].
  apply lookup_not_in_keys. intros Hin.
  apply (keys_within _ _ Hkeys) in Hin. simpl in Hin. intuition congruence.
Qed.

(** C1.  Take a payload in braces that [json.loads] decodes to a mapping of
    the full fixed schema (eight score entries with exactly dimension, score
    and reasoning, the score an integer from 0 to 5; executive_summary,
    detailed_plan, risk_flags, build_checklist, tech_stack and pitch_deck
    present; no other key), and wrap it in any text that has no opening brace
    before it and no closing brace after it, such as prose and a code fence.
    Then [_parse_claude_response] shows no error and returns a result that
    reproduces the payload: every key of the payload has its value in the
    field of that name, and the scores reproduce the entries in their order.
    (By [json_str_shape] every reply with a payload between its first opening
    and its last closing brace is such a text.) *)
Theorem schema_round_trip (pre mid post : string) (kvs : list (string * pyval)) :
  mem "{" pre = false ->
  mem "}" post = false ->
  Json.loads (String "{" (mid ++ "}")) = inr (PyDict kvs) ->
  full_schema kvs = true ->
  let response := pre ++ String "{" (mid ++ String "}" post) in
  reproduces kvs (_parse_claude_response response)
  /\ run_parse_claude_response response = (_parse_claude_response response, []).
Proof.
  intros Hpre Hpost Hl Hfull response.
  apply schema_reply_reproduced; [| exact Hfull].
  unfold response. rewrite (json_str_wrapped pre mid post Hpre Hpost). exact Hl.
Qed.

Lemma schema_round_trip_witness :
  exists kvs,
    Json.loads (String "{" (fenced_reply_inside ++ "}")) = inr (PyDict kvs)
    /\ reproduces kvs (_parse_claude_response fenced_reply).
Proof.
  eexists. split.
  - vm_compute. reflexivity.
  - eapply (schema_round_trip fenced_reply_before fenced_reply_inside fenced_reply_after).
    + vm_compute. reflexivity.
    + vm_compute. reflexivity.
    + vm_compute. reflexivity.
    + vm_compute. reflexivity.
Defined.

(** Usable entries are accepted, and their scores are plain numbers. *)
Lemma usable_entries_accepted (items : list pyval) :
  forallb is_usable_entry items = true ->
  exists ss,
    mapM EvaluationScore_init items = inr ss
    /\ Forall (fun v => is_plain_number v = true) (map score ss).
Proof.
  induction items as [| item items IH]; cbn [forallb]; intros H.
  - exists []. split; [reflexivity | constructor].
  - apply andb_true_iff in H as [Hitem Hitems].
    destruct (IH Hitems) as (ss & Hm & Hnum).
    destruct item as [| | | | | | entry]; unfold is_usable_entry in Hitem;
      try discriminate.
    apply andb_true_iff in Hitem as [Hkeys Hfields].
    destruct (Py.lookup "dimension" entry) as [d |] eqn:Hd; [| discriminate].
    destruct (Py.lookup "score" entry) as [sc |] eqn:Hs; [| discriminate].
    destruct (Py.lookup "reasoning" entry) as [re |] eqn:Hr; [| discriminate].
    exists ({| dimension := d; score := sc; reasoning := re |} :: ss).
    cbn [mapM]. rewrite (EvaluationScore_init_ok entry d sc re
                           (keys_within _ _ Hkeys) Hd Hs Hr).
    cbn [bind]. rewrite Hm. split; [reflexivity |].
    constructor; [exact Hfields | exact Hnum].
Qed.

Lemma magnitude_plain (v : pyval) :
  is_plain_number v = true -> 0 <= magnitude v <= 2 ^ 53.
Proof.
  destruct v; simpl; try discriminate; intros H; try lia.
  apply Z.leb_le in H. lia.
Qed.

Lemma Zsum_magnitude (vs : list pyval) :
  Forall (fun v => is_plain_number v = true) vs ->
  0 <= Py.Zsum (map magnitude vs) <= 2 ^ 53 * Z.of_nat (List.length vs).
Proof.
  induction 1 as [| v vs Hv _ IH]; unfold Py.Zsum in *;
    cbn [map fold_right List.length]; [lia |].
  pose proof (magnitude_plain v Hv). lia.
Qed.

Lemma int_no_overflow (z : Z) :
  Z.abs z < Py.float_overflow_bound -> Py.overflows (inject_Z z) = false.
Proof.
  intros H. unfold Py.overflows.
  change (Qabs (inject_Z z)) with (inject_Z (Z.abs z)).
  destruct (Qle_bool _ _) eqn:E; [| reflexivity].
  apply Qle_bool_iff in E. rewrite <- Zle_Qle in E. lia.
Qed.

(** The sum of plain numbers is computed: no conversion of an integer to a
    float fails. *)
Lemma sum_from_plain (l : list pyval) (acc : pyval) :
  Forall (fun v => is_plain_number v = true) l ->
  (exists f, acc = PyFloat f) /\ Py.Zsum (map magnitude l) < Py.float_overflow_bound
  \/ (exists a, acc = PyInt a
                /\ Z.abs a + Py.Zsum (map magnitude l) < Py.float_overflow_bound) ->
  exists total,
    Py.sum_from acc l = inr total
    /\ ((exists f, total = PyFloat f)
        \/ exists t, total = PyInt t /\ Z.abs t < Py.float_overflow_bound).
Proof.
  intros Hl. revert acc.
  induction Hl as [| v l Hv Hl IH]; intros acc Hacc; cbn [Py.sum_from].
  - exists acc. split; [reflexivity |].
    destruct Hacc as [[Hf _] | (a & -> & Ha)]; [left; exact Hf | right].
    exists a. split; [reflexivity |]. unfold Py.Zsum in Ha. simpl in Ha. lia.
  - pose proof (magnitude_plain v Hv) as Hmag.
    pose proof (Zsum_magnitude l Hl) as Hrest.
    assert (Hone : 1 < Py.float_overflow_bound) by (vm_compute; reflexivity).
    unfold Py.Zsum in Hacc, Hrest, IH. cbn [map fold_right] in Hacc.
    assert (Hstep : exists acc',
               Py.add acc v = inr acc'
               /\ ((exists f, acc' = PyFloat f)
                   /\ fold_right Z.add 0 (map magnitude l) < Py.float_overflow_bound
                   \/ exists a, acc' = PyInt a
                        /\ Z.abs a + fold_right Z.add 0 (map magnitude l)
                           < Py.float_overflow_bound)).
    { destruct Hacc as [[[f ->] Hb] | (a & -> & Ha)].
      - destruct v as [| b | z | g | | |]; try discriminate Hv; unfold Py.add;
          cbn [Py.as_number bind ret].
        + unfold Py.float_of_int.
          rewrite int_no_overflow by (destruct b; cbn [Z.abs]; lia).
          cbn [bind ret]. eexists. split; [reflexivity |]. left. split; [eauto | lia].
        + cbn [magnitude] in Hmag, Hb.
          unfold Py.float_of_int. rewrite int_no_overflow by lia.
          cbn [bind ret]. eexists. split; [reflexivity |]. left. split; [eauto | lia].
        + cbn [magnitude] in Hb.
          eexists. split; [reflexivity |]. left. split; [eauto | lia].
      - destruct v as [| b | z | g | | |]; try discriminate Hv; unfold Py.add;
          cbn [Py.as_number bind ret].
        + cbn [magnitude] in Ha.
          eexists. split; [reflexivity |]. right. eexists. split; [reflexivity |].
          destruct b; lia.
        + cbn [magnitude] in Ha.
          eexists. split; [reflexivity |]. right. eexists. split; [reflexivity |].
          lia.
        + cbn [magnitude] in Ha.
          unfold Py.float_of_int. rewrite int_no_overflow by lia.
          cbn [bind ret]. eexists. split; [reflexivity |]. left. split; [eauto | lia]. }
    destruct Hstep as (acc' & -> & Hacc'). cbn [bind]. apply IH. exact Hacc'.
Qed.

(** The mean of fewer than [2 ^ 53] plain numbers is computed. *)
Lemma mean_of_plain (vs : list pyval) :
  Forall (fun v => is_plain_number v = true) vs ->
  0 < Z.of_nat (List.length vs) < 2 ^ 53 ->
  exists total overall,
    Py.sum vs = inr total
    /\ Py.truediv total (Z.of_nat (List.length vs)) = inr overall.
Proof.
  intros Hvs Hn. pose proof (Zsum_magnitude vs Hvs) as Hmag.
  assert (Hb : 2 ^ 53 * 2 ^ 53 < Py.float_overflow_bound) by (vm_compute; reflexivity).
  destruct (sum_from_plain vs (PyInt 0) Hvs) as (total & Hsum & Htotal).
  { right. exists 0. split; [reflexivity |]. simpl Z.abs. nia. }
  exists total. unfold Py.sum. rewrite Hsum.
  destruct (Z.of_nat (List.length vs)) as [| p | p] eqn:Hp; try lia.
  destruct Htotal as [[f ->] | (t & -> & Ht)]; unfold Py.truediv;
    cbn [Py.as_number bind ret].
  - unfold Py.float_of_int. rewrite int_no_overflow by (simpl Z.abs; lia).
    cbn [bind ret Z.eqb]. eexists. split; reflexivity.
  - cbn [Z.eqb]. rewrite (PyFacts.quotient_no_overflow t (Z.abs t) p) by nia.
    eexists. split; reflexivity.
Qed.

(** The result built from a reply whose required part is usable. *)
Lemma usable_reply_parses (response : string) (kvs : list (string * pyval)) :
  Json.loads (json_str response) = inr (PyDict kvs) ->
  required_part_usable kvs = true ->
  exists r,
    parse_body response = inr r
    /\ Py.lookup "executive_summary" kvs = Some (executive_summary r)
    /\ Py.lookup "detailed_plan" kvs = Some (detailed_plan r)
    /\ Py.lookup "risk_flags" kvs = Some (risk_flags r)
    /\ Py.lookup "build_checklist" kvs = Some (build_checklist r)
    /\ tech_stack r = get_default "tech_stack" kvs
    /\ pitch_deck r = get_default "pitch_deck" kvs
    /\ exists items,
         Py.lookup "scores" kvs = Some (PyList items)
         /\ Forall2 (fun item s => exists entry,
                       item = PyDict entry /\ same_mapping entry (entry_of s))
              items (scores r).
Proof.
  intros Hl Hok. unfold required_part_usable in Hok.
  repeat (apply andb_true_iff in Hok as [Hok ?]).
  destruct (Py.lookup "scores" kvs) as [[| | | | | [| item items] |] |] eqn:Hs;
    try discriminate.
  apply andb_true_iff in Hok as [Hentries Hcount]. apply Z.ltb_lt in Hcount.
  destruct (usable_entries_accepted _ Hentries) as (ss & Hm & Hnum).
  destruct (present_lookup _ _ H) as [checklist Hc].
  destruct (present_lookup _ _ H0) as [risks Hr].
  destruct (present_lookup _ _ H1) as [plan Hp].
  destruct (present_lookup _ _ H2) as [summary He].
  assert (Hlen : List.length ss = List.length (item :: items))
    by exact (mapM_length _ _ _ Hm).
  destruct (mean_of_plain (map score ss) Hnum) as (total & overall & Hsum & Hdiv).
  { rewrite length_map, Hlen. cbn [List.length] in *. lia. }
  rewrite length_map in Hdiv.
  eexists. split.
  - rewrite (parse_body_loads _ _ Hl).
    apply (result_of_data_ok kvs (PyList (item :: items)) (item :: items) ss
             total overall summary plan risks checklist);
      try eassumption.
    reflexivity.
  - cbn [executive_summary detailed_plan risk_flags build_checklist tech_stack
           pitch_deck scores].
    repeat split; try assumption.
    exists (item :: items). split; [reflexivity |].
    apply mapM_Forall2 in Hm. clear - Hm.
    induction Hm as [| x y l l' Hxy _ IH]; constructor;
      [exact (accepted_entry_reproduced _ _ Hxy) | exact IH].
Qed.

(** C7, as amended.  A reply whose payload is valid JSON, has every required
    field and lacks tech_stack, pitch_deck or both is not a failure when its
    scores can be built and averaged: a non-empty array of entries with
    exactly the keys dimension, score and reasoning, each score a float, a
    boolean or an integer that is a float as it is.  Then
    [_parse_claude_response] shows no error, the field of a key that is
    absent is the empty mapping, the field of one that is there has its
    value, and every other field is taken from the payload. *)
Theorem missing_optional_fields_default
    (response : string) (kvs : list (string * pyval)) :
  Json.loads (json_str response) = inr (PyDict kvs) ->
  required_part_usable kvs = true ->
  Py.lookup "tech_stack" kvs = None \/ Py.lookup "pitch_deck" kvs = None ->
  let r := _parse_claude_response response in
  run_parse_claude_response response = (r, [])
  /\ (Py.lookup "tech_stack" kvs = None -> tech_stack r = PyDict [])
  /\ (Py.lookup "pitch_deck" kvs = None -> pitch_deck r = PyDict [])
  /\ (forall v, Py.lookup "tech_stack" kvs = Some v -> tech_stack r = v)
  /\ (forall v, Py.lookup "pitch_deck" kvs = Some v -> pitch_deck r = v)
  /\ Py.lookup "executive_summary" kvs = Some (executive_summary r)
  /\ Py.lookup "detailed_plan" kvs = Some (detailed_plan r)
  /\ Py.lookup "risk_flags" kvs = Some (risk_flags r)
  /\ Py.lookup "build_checklist" kvs = Some (build_checklist r)
  /\ exists items,
       Py.lookup "scores" kvs = Some (PyList items)
       /\ Forall2 (fun item s => exists entry,
                     item = PyDict entry /\ same_mapping entry (entry_of s))
            items (scores r).
Proof.
  intros Hl Hok _.
  destruct (usable_reply_parses response kvs Hl Hok)
    as (r & Hr & He & Hp & Hrf & Hb & Ht & Hd & Hsc).
  unfold _parse_claude_response. rewrite (run_parse_inr _ _ Hr). simpl fst.
  unfold get_default in Ht, Hd.
  repeat split; try assumption.
  - intros Hnone. rewrite Hnone in Ht. exact Ht.
  - intros Hnone. rewrite Hnone in Hd. exact Hd.
  - intros v Hv. rewrite Hv in Ht. exact Ht.
  - intros v Hv. rewrite Hv in Hd. exact Hd.
Qed.

Lemma missing_optional_fields_witness :
  (tech_stack (_parse_claude_response reply_without_optional) = PyDict []
   /\ pitch_deck (_parse_claude_response reply_without_optional) = PyDict [])
  /\ run_parse_claude_response reply_with_half_scores
     = (_parse_claude_response reply_with_half_scores, []).
Proof.
  split.
  - edestruct (missing_optional_fields_default reply_without_optional)
      as (_ & Hstack & Hdeck & _).
    + vm_compute. reflexivity.
    + vm_compute. reflexivity.
    + left. vm_compute. reflexivity.
    + split; [apply Hstack | apply Hdeck]; vm_compute; reflexivity.
  - edestruct (missing_optional_fields_default reply_with_half_scores) as (Hrun & _).
    + vm_compute. reflexivity.
    + vm_compute. reflexivity.
    + left. vm_compute. reflexivity.
    + exact Hrun.
Defined.

(** C7 as it is written fails: the payload below is valid JSON, has every
    required field and neither tech_stack nor pitch_deck, and the reply is a
    failure, because its scores are empty. *)
Lemma required_fields_not_enough :
  exists kvs,
    Json.loads (json_str reply_with_empty_scores) = inr (PyDict kvs)
    /\ required_fields = filter (fun k => present k kvs) required_fields
    /\ Py.lookup "tech_stack" kvs = None
    /\ Py.lookup "pitch_deck" kvs = None
    /\ run_parse_claude_response reply_with_empty_scores
       = (_create_empty_result, [ZeroDivisionError]).
Proof.
  eexists. split; [vm_compute; reflexivity |].
  repeat split; vm_compute; reflexivity.
Qed.

(** ** The prompt *)

Lemma occurs_in_app (v before s : string) : occurs_in v s -> occurs_in v (before ++ s).
Proof.
  intros (b & a & ->). exists (before ++ b), a. now rewrite app_assoc.
Qed.

Lemma occurs_in_here (v after : string) : occurs_in v (v ++ after).
Proof. exists "", after. reflexivity. Qed.

Create HintDb prompt.
#[local] Hint Resolve occurs_in_app occurs_in_here : prompt.

Lemma occur_in_order_app (labels : list string) (before s : string) :
  occur_in_order labels s -> occur_in_order labels (before ++ s).
Proof.
  destruct labels as [| l ls]; simpl; [trivial |].
  intros (b & a & -> & H). exists (before ++ b), a. split; [| exact H].
  now rewrite app_assoc.
Qed.

Lemma numbered_in_order (labels : list string) (k : Z) (after : string) :
  occur_in_order labels (numbered k labels ++ after).
Proof.
  revert k. induction labels as [| l ls IH]; intros k;
    cbn [numbered occur_in_order]; [trivial |].
  exists (of_int k ++ ". "), (" (0-5)" ++ String newline (numbered (k + 1) ls) ++ after).
  split.
  - rewrite !app_assoc. reflexivity.
  - apply occur_in_order_app.
    change (String newline (numbered (k + 1) ls) ++ after)
      with (String newline "" ++ numbered (k + 1) ls ++ after).
    apply occur_in_order_app. apply IH.
Qed.

(** The part of the template after the goals lists the dimensions. *)
Lemma template_lists_dimensions :
  exists before after,
    prompt_after_goals = before ++ numbered 1 evaluation_dimensions ++ after.
Proof.
  exists (substring 0 64 prompt_after_goals).
  exists (substring (64 + String.length (numbered 1 evaluation_dimensions))
            (String.length prompt_after_goals) prompt_after_goals).
  vm_compute. reflexivity.
Qed.

(** C8.  [_build_analysis_prompt] is a function of the five fields of its
    input and of nothing else, so that two calls on inputs with the same
    fields return the same text; the text has each of the five values in it
    as it is (the two integers in decimal); and it lists the eight dimensions
    of [evaluation_dimensions] with their labels, numbered from 1 in that
    order. *)
Theorem prompt_deterministic_and_complete (i j : IdeaInput) :
  idea i = idea j ->
  target_users i = target_users j ->
  time_constraint i = time_constraint j ->
  team_size i = team_size j ->
  goals i = goals j ->
  _build_analysis_prompt i = _build_analysis_prompt j
  /\ occurs_in (idea i) (_build_analysis_prompt i)
  /\ occurs_in (target_users i) (_build_analysis_prompt i)
  /\ occurs_in (of_int (time_constraint i)) (_build_analysis_prompt i)
  /\ occurs_in (of_int (team_size i)) (_build_analysis_prompt i)
  /\ occurs_in (goals i) (_build_analysis_prompt i)
  /\ (exists before after,
        _build_analysis_prompt i
        = before ++ numbered 1 evaluation_dimensions ++ after)
  /\ occur_in_order evaluation_dimensions (_build_analysis_prompt i)
  /\ evaluation_dimensions
     = [ "Problem clarity"; "User value"; "Market size & urgency";
         "Differentiation/moat"; "Technical feasibility in 48 hours";
         "Scalability path"; "Data dependencies"; "Risks & compliance" ].
Proof.
  intros H1 H2 H3 H4 H5. unfold _build_analysis_prompt.
  split; [now rewrite H1, H2, H3, H4, H5 |].
  do 4 (split; [auto 12 with prompt |]).
  split; [do 9 apply occurs_in_app; exists "", prompt_after_goals; reflexivity |].
  destruct template_lists_dimensions as (before & after & Ht).
  split; [| split; [| reflexivity]].
  - exists (prompt_head ++ idea i ++ prompt_after_idea ++ target_users i
            ++ prompt_after_target_users ++ of_int (time_constraint i)
            ++ prompt_after_time_constraint ++ of_int (team_size i)
            ++ prompt_after_team_size ++ goals i ++ before), after.
    rewrite Ht, !app_assoc. reflexivity.
  - do 10 apply occur_in_order_app. rewrite Ht.
    apply occur_in_order_app, numbered_in_order.
Qed.

Lemma prompt_witness :
  _build_analysis_prompt sample_idea = _build_analysis_prompt sample_idea
  /\ occurs_in "48" (_build_analysis_prompt sample_idea).
Proof.
  destruct (prompt_deterministic_and_complete sample_idea sample_idea)
    as (Hsame & _ & _ & Htime & _); try reflexivity.
  split; [exact Hsame | exact Htime].
Defined.

(** ** The mean *)

Module MeanFacts.

Import Py FloatFacts.
Local Open Scope Q_scope.

(** *** Integers *)

Lemma integers_of_ints (zs : list Z) : integers_of (map PyInt zs) = Some zs.
Proof. induction zs as [| z zs IH]; simpl; [reflexivity | now rewrite IH]. Qed.

Lemma integers_of_length (vs : list pyval) (zs : list Z) :
  integers_of vs = Some zs -> List.length zs = List.length vs.
Proof.
  revert zs. induction vs as [| v vs IH]; simpl; intros zs H.
  - inversion H. reflexivity.
  - destruct (integer_of v); [| discriminate].
    destruct (integers_of vs) as [zs' |]; [| discriminate].
    inversion H. simpl. f_equal. apply IH. reflexivity.
Qed.

(** The sum of [int]s is their sum as integers, whatever their size. *)
Lemma sum_from_integers (vs : list pyval) (zs : list Z) (a : Z) :
  integers_of vs = Some zs ->
  sum_from (PyInt a) vs = inr (PyInt (a + Zsum zs)).
Proof.
  revert zs a. induction vs as [| v vs IH]; simpl; intros zs a H.
  - inversion H. unfold Zsum. simpl. now rewrite Z.add_0_r.
  - destruct (integer_of v) as [z |] eqn:Hv; [| discriminate].
    destruct (integers_of vs) as [zs' |] eqn:Hvs; [| discriminate].
    inversion H. subst zs.
    assert (Ha : add (PyInt a) v = inr (PyInt (a + z))).
    { destruct v; try discriminate; simpl in Hv; inversion Hv; reflexivity. }
    rewrite Ha. cbn [bind]. rewrite (IH zs' _ eq_refl).
    unfold Zsum. simpl. do 2 f_equal. lia.
Qed.

(** The quotient of [int]s is rounded once. *)
Lemma truediv_int (s n : Z) (overall : pyfloat) :
  truediv (PyInt s) n = inr overall ->
  n <> 0%Z /\ overall = FFin (round53 (inject_Z s / inject_Z n)).
Proof.
  unfold truediv. cbn [as_number bind]. unfold ret at 1. cbn [bind].
  destruct (Z.eqb_spec n 0) as [| Hn]; [discriminate |].
  destruct (overflows _); [discriminate |].
  intros H. split; [exact Hn |]. unfold ret in H. congruence.
Qed.

Lemma integers_mean (vs : list pyval) (zs : list Z) (total : pyval) (overall : pyfloat) :
  integers_of vs = Some zs -> sum vs = inr total ->
  truediv total (Z.of_nat (List.length vs)) = inr overall ->
  overall = FFin (round53 (inject_Z (Zsum zs) / inject_Z (Z.of_nat (List.length zs)))).
Proof.
  intros Hzs Hsum Hdiv. unfold sum in Hsum.
  rewrite (sum_from_integers vs zs 0 Hzs) in Hsum. inversion Hsum. subst total.
  rewrite (integers_of_length vs zs Hzs).
  apply truediv_int in Hdiv as [_ ->]. reflexivity.
Qed.

(** *** Numbers added without rounding *)

Lemma grid_comp (k : Z) (q q' : Q) : q == q' -> on_grid k q -> on_grid k q'.
Proof. intros H [m Hm]. exists m. rewrite <- H. exact Hm. Qed.

Lemma grid_plus (k : Z) (x y : Q) : on_grid k x -> on_grid k y -> on_grid k (x + y).
Proof.
  intros [m Hm] [n Hn]. exists (m + n)%Z. rewrite Hm, Hn, inject_Z_plus. ring.
Qed.

Lemma grid_Z (k z : Z) : (0 <= k)%Z -> on_grid k (inject_Z z).
Proof.
  intros Hk. exists (z * 2 ^ k)%Z. rewrite inject_Z_mult, <- (pow2_Z k Hk).
  rewrite <- Qmult_assoc, (Qmult_comm (pow2 k)), pow2_cancel. ring.
Qed.

Lemma small_no_overflow (q : Q) : Qabs q < pow2 53 -> overflows q = false.
Proof.
  intros H. unfold overflows.
  destruct (Qle_bool (inject_Z float_overflow_bound) (Qabs q)) eqn:E; [| reflexivity].
  apply Qle_bool_iff in E. rewrite pow2_53 in H.
  assert (B : inject_Z (2 ^ 53) < inject_Z float_overflow_bound)
    by (rewrite <- Zlt_Qlt; vm_compute; reflexivity).
  lra.
Qed.

Lemma pow2_53_minus (k : Z) : (0 <= k)%Z -> pow2 (53 - k) <= pow2 53.
Proof. intros H. apply pow2_le. lia. Qed.

Lemma float_of_Q_exact (k : Z) (q : Q) :
  (0 <= k <= 1074)%Z -> on_grid k q -> Qabs q < pow2 (53 - k) ->
  exists q', float_of_Q q = FFin q' /\ q' == q.
Proof.
  intros Hk [m Hm] Hq. unfold float_of_Q.
  pose proof (pow2_53_minus k (proj1 Hk)) as H53.
  rewrite small_no_overflow by lra.
  exists (round64 q). split; [reflexivity |]. exact (round64_exact m k q Hk Hq Hm).
Qed.

Lemma float_of_int_exact (k z : Z) :
  (0 <= k <= 1074)%Z -> Qabs (inject_Z z) < pow2 (53 - k) ->
  exists q', float_of_int z = inr (FFin q') /\ q' == inject_Z z.
Proof.
  intros Hk Hz. unfold float_of_int.
  pose proof (pow2_53_minus k (proj1 Hk)) as H53.
  rewrite small_no_overflow by lra.
  exists (round64 (inject_Z z)). split; [reflexivity |].
  destruct (grid_Z k z (proj1 Hk)) as [m Hm].
  exact (round64_exact m k _ Hk Hz Hm).
Qed.

(** How a finite number enters arithmetic. *)
Lemma as_number_value (v : pyval) (x : Q) :
  value_of v = Some x ->
  (exists z, as_number v = inr (NInt z) /\ x = inject_Z z)
  \/ as_number v = inr (NFloat (FFin x)).
Proof.
  destruct v as [| b | z | [| s | q] | | |]; simpl; intros H; try discriminate;
    inversion H; subst; eauto.
Qed.

Lemma add_exact (k : Z) (a b c : pyval) (x y : Q) :
  (0 <= k <= 1074)%Z ->
  add a b = inr c -> value_of a = Some x -> value_of b = Some y ->
  on_grid k x -> on_grid k y -> Qabs x + Qabs y < pow2 (53 - k) ->
  exists z, value_of c = Some z /\ z == x + y.
Proof.
  intros Hk H Ha Hb Gx Gy Hsmall. unfold add in H.
  pose proof (Qabs_nonneg x) as Nx. pose proof (Qabs_nonneg y) as Ny.
  pose proof (Qabs_triangle x y) as Tri.
  destruct (as_number_value a x Ha) as [(m & Hm & ->) | Hm];
    destruct (as_number_value b y Hb) as [(n & Hn & ->) | Hn];
    rewrite Hm, Hn in H; cbn [bind] in H.
  - inversion H. exists (inject_Z (m + n)). split; [reflexivity |].
    rewrite inject_Z_plus. reflexivity.
  - apply bind_inr in H as (f & Hf & H).
    destruct (float_of_int_exact k m Hk) as (q' & Hq' & Eq'); [lra |].
    rewrite Hq' in Hf. inversion Hf. subst f. inversion H. subst c. unfold fadd.
    destruct (float_of_Q_exact k (q' + y) Hk) as (q'' & -> & E'').
    + apply grid_plus; [| exact Gy]. apply (grid_comp k (inject_Z m)); [| exact Gx].
      symmetry. exact Eq'.
    + rewrite Eq'. lra.
    + exists q''. split; [reflexivity |]. rewrite E'', Eq'. reflexivity.
  - apply bind_inr in H as (g & Hg & H).
    destruct (float_of_int_exact k n Hk) as (q' & Hq' & Eq'); [lra |].
    rewrite Hq' in Hg. inversion Hg. subst g. inversion H. subst c. unfold fadd.
    destruct (float_of_Q_exact k (x + q') Hk) as (q'' & -> & E'').
    + apply grid_plus; [exact Gx |]. apply (grid_comp k (inject_Z n)); [| exact Gy].
      symmetry. exact Eq'.
    + rewrite Eq'. lra.
    + exists q''. split; [reflexivity |]. rewrite E'', Eq'. reflexivity.
  - inversion H. subst c. unfold fadd.
    destruct (float_of_Q_exact k (x + y) Hk) as (q'' & -> & E'').
    + apply grid_plus; assumption.
    + lra.
    + exists q''. split; [reflexivity | exact E''].
Qed.

Lemma Qsum_abs_nonneg (qs : list Q) : 0 <= Qsum (map Qabs qs).
Proof.
  induction qs as [| q qs IH]; simpl; [apply Qle_refl |].
  pose proof (Qabs_nonneg q). lra.
Qed.

(** The sum of such numbers is their real sum. *)
Lemma sum_from_exact (k : Z) (l : list pyval) (acc total : pyval) (a : Q) (qs : list Q) :
  (0 <= k <= 1074)%Z ->
  sum_from acc l = inr total -> value_of acc = Some a -> values_of l = Some qs ->
  on_grid k a -> Forall (on_grid k) qs -> Qabs a + Qsum (map Qabs qs) < pow2 (53 - k) ->
  exists t, value_of total = Some t /\ t == a + Qsum qs.
Proof.
  intros Hk. revert acc a qs.
  induction l as [| v l IH]; intros acc a qs H Ha Hv Ga Gqs Hsmall;
    cbn [sum_from values_of] in H, Hv.
  - inversion H. subst total. inversion Hv. subst qs. exists a.
    split; [exact Ha | unfold Qsum; cbn [fold_right]; ring].
  - destruct (value_of v) as [x |] eqn:Hx; [| discriminate].
    destruct (values_of l) as [qs' |] eqn:Hl; [| discriminate].
    inversion Hv. subst qs. inversion Gqs as [| ? ? Gx Gqs']. subst.
    apply bind_inr in H as (acc' & Hadd & H).
    cbn [map Qsum fold_right] in Hsmall. fold (Qsum (map Qabs qs')) in Hsmall.
    pose proof (Qsum_abs_nonneg qs') as Nn.
    destruct (add_exact k _ _ _ _ _ Hk Hadd Ha Hx Ga Gx) as (z & Hz & Ez); [lra |].
    pose proof (Qabs_triangle a x) as Tri.
    destruct (IH acc' z qs' H Hz eq_refl) as (t & Ht & Et).
    + apply (grid_comp k (a + x)); [symmetry; exact Ez | apply grid_plus; assumption].
    + exact Gqs'.
    + rewrite Ez. lra.
    + exists t. split; [exact Ht |]. rewrite Et, Ez.
      unfold Qsum. cbn [fold_right]. ring.
Qed.

Lemma values_of_length (vs : list pyval) (qs : list Q) :
  values_of vs = Some qs -> List.length qs = List.length vs.
Proof.
  revert qs. induction vs as [| v vs IH]; simpl; intros qs H.
  - inversion H. reflexivity.
  - destruct (value_of v); [| discriminate].
    destruct (values_of vs) as [qs' |]; [| discriminate].
    inversion H. simpl. f_equal. apply IH. reflexivity.
Qed.

Lemma Qsum_abs_le (qs : list Q) : Qabs (Qsum qs) <= Qsum (map Qabs qs).
Proof.
  induction qs as [| q qs IH]; unfold Qsum in *; cbn [map fold_right].
  - apply Qle_refl.
  - pose proof (Qabs_triangle q (fold_right Qplus 0 qs)). lra.
Qed.

Lemma Qabs_quotient (t : Q) (n : Z) :
  (0 < n)%Z -> Qabs (t / inject_Z n) * inject_Z n == Qabs t.
Proof.
  intros Hn. assert (Hpos : inject_Z 0 < inject_Z n) by (rewrite <- Zlt_Qlt; exact Hn).
  change (inject_Z 0) with 0 in Hpos.
  unfold Qdiv. rewrite Qabs_Qmult, Qabs_Qinv, (Qabs_pos (inject_Z n)) by lra.
  field. lra.
Qed.

(** The quotient of such a sum by the number of its terms is rounded once. *)
Lemma truediv_exact (k : Z) (total : pyval) (n : Z) (overall : pyfloat) (t : Q) :
  (0 <= k <= 1074)%Z -> (0 < n < 2 ^ 53)%Z ->
  truediv total n = inr overall -> value_of total = Some t ->
  Qabs t < pow2 (53 - k) ->
  overall = FFin (round64 (t / inject_Z n)).
Proof.
  intros Hk Hn H Ht Hsmall.
  pose proof (pow2_53_minus k (proj1 Hk)) as H53.
  assert (Hpos : inject_Z 1 <= inject_Z n) by (rewrite <- Zle_Qle; lia).
  change (inject_Z 1) with 1 in Hpos.
  assert (Hlt : inject_Z n < inject_Z (2 ^ 53)) by (rewrite <- Zlt_Qlt; lia).
  pose proof (Qabs_quotient t n (proj1 Hn)) as Hq.
  pose proof (Qabs_nonneg (t / inject_Z n)) as Nq.
  destruct (as_number_value total t Ht) as [(m & Hm & ->) | Hm].
  - assert (Hd : truediv (PyInt m) n = inr overall)
      by (unfold truediv in *; rewrite Hm in H; exact H).
    apply truediv_int in Hd as [_ ->]. f_equal.
    destruct (Z.eq_dec m 0) as [-> | Hm0].
    + rewrite round53_zero, round64_zero; [reflexivity | |];
        unfold Qdiv; rewrite Qmult_0_l; reflexivity.
    + symmetry. apply round64_normal.
      assert (Habs : inject_Z 1 <= Qabs (inject_Z m)).
      { change (Qabs (inject_Z m)) with (inject_Z (Z.abs m)).
        rewrite <- Zle_Qle. lia. }
      change (inject_Z 1) with 1 in Habs.
      assert (Heps : pow2 (- 1022) * inject_Z (2 ^ 53) <= 1).
      { rewrite <- pow2_53, <- pow2_add.
        apply Qle_trans with (pow2 0); [apply pow2_le; lia | apply Qle_refl]. }
      pose proof (pow2_pos (- 1022)) as Pe.
      apply Qnot_lt_le. intros Hcontra.
      assert (Qabs (inject_Z m / inject_Z n) * inject_Z n
              < pow2 (- 1022) * inject_Z (2 ^ 53)).
      { apply Qle_lt_trans with (pow2 (- 1022) * inject_Z n).
        - apply Qmult_le_compat_r; lra.
        - apply Qmult_lt_l; [exact Pe | exact Hlt]. }
      lra.
  - unfold truediv in H. rewrite Hm in H. cbn [bind] in H.
    apply bind_inr in H as (g & Hg & H).
    unfold float_of_int in Hg. destruct (overflows (inject_Z n)); [discriminate |].
    assert (Eg : g = FFin (round64 (inject_Z n))) by (unfold ret in Hg; congruence).
    destruct (Z.eqb_spec n 0); [lia |].
    assert (E : overall = fdiv (FFin t) g) by (unfold ret in H; congruence).
    rewrite E, Eg. unfold fdiv, float_of_Q.
    assert (En : round64 (inject_Z n) == inject_Z n) by (apply round64_Z; lia).
    assert (Eq : t / round64 (inject_Z n) == t / inject_Z n)
      by (rewrite En; reflexivity).
    rewrite small_no_overflow.
    + f_equal. apply round64_comp. exact Eq.
    + rewrite Eq.
      apply Qle_lt_trans with (Qabs t); [| lra].
      rewrite <- Hq. rewrite <- (Qmult_1_r (Qabs (t / inject_Z n))) at 1.
      apply Qmult_le_compat_nonneg; split; lra.
Qed.

End MeanFacts.

Lemma mean_invariant_of_parse (response : string) :
  mean_invariant (_parse_claude_response response).
Proof.
  unfold _parse_claude_response, run_parse_claude_response, mean_invariant.
  destruct (parse_body response) as [e | r] eqn:E; simpl fst; [reflexivity |].
  unfold parse_body in E. apply bind_inr in E as (data & _ & E).
  apply result_of_data_inr in E
    as (_ & _ & _ & total & _ & _ & _ & _ & Hsum & Hdiv & _).
  rewrite <- (length_map score) in Hdiv.
  destruct (scores r) as [| s ss] eqn:Hs;
    [destruct (PyFacts.truediv_by_zero _ _ Hdiv) |].
  cbv zeta. generalize dependent (map score (s :: ss)). intros vs Hsum Hdiv.
  split; [exact (PyFacts.sum_from_numbers _ _ _ Hsum) |]. split.
  - intros zs Hzs. split; [| apply FloatFacts.round53_error].
    exact (MeanFacts.integers_mean vs zs total _ Hzs Hsum Hdiv).
  - intros k qs mean Hvs (Hk & Hgrid & Hsmall & Hn) Hmean.
    pose proof (MeanFacts.Qsum_abs_le qs) as Habs.
    destruct (MeanFacts.sum_from_exact k vs (PyInt 0) total 0%Q qs Hk Hsum eq_refl Hvs)
      as (t & Ht & Et).
    + exists 0. reflexivity.
    + exact Hgrid.
    + change (Qabs 0) with 0%Q. lra.
    + assert (El : List.length vs = List.length qs)
        by (symmetry; exact (MeanFacts.values_of_length vs qs Hvs)).
      rewrite El in Hdiv.
      assert (Hpos : 0 < Z.of_nat (List.length qs)).
      { destruct (List.length qs); [| lia].
        destruct (PyFacts.truediv_by_zero _ _ Hdiv). }
      rewrite (MeanFacts.truediv_exact k total _ _ t Hk (conj Hpos Hn) Hdiv Ht).
      * f_equal. apply FloatFacts.round64_comp.
        unfold arithmetic_mean in Hmean. rewrite Hvs in Hmean.
        inversion Hmean. rewrite Et. apply Qdiv_comp; [ring | reflexivity].
      * rewrite Et. setoid_replace (0 + Qsum qs)%Q with (Qsum qs) by ring. lra.
Qed.

(** C2, as amended.  Every result the system produces, from
    [_parse_claude_response] on any reply and from [analyze_idea] with any
    client, satisfies the mean invariant.  When its scores are empty its
    overall score is 0.0.  When they are not, each is a number; if they are
    integers the overall score is the float nearest to their arithmetic mean,
    at most [2 ^ -53] of the mean away from it; and if they are numbers that
    binary64 adds without rounding (such as 4.5, 3.25 and 4), the overall
    score is the float nearest to their arithmetic mean as well. *)
Theorem mean_invariant_holds
    (client : string -> result string) (idea_input : IdeaInput) (response : string) :
  mean_invariant (_parse_claude_response response)
  /\ mean_invariant (analyze_idea client idea_input)
  /\ mean_invariant _create_empty_result.
Proof.
  split; [apply mean_invariant_of_parse |].
  split; [| reflexivity].
  unfold analyze_idea.
  destruct (client (_build_analysis_prompt idea_input)) as [e | text];
    [reflexivity | apply mean_invariant_of_parse].
Qed.

Lemma mean_invariant_witness :
  overall_score (_parse_claude_response reply_without_optional) = FFin (7 # 2)
  /\ overall_score (_parse_claude_response reply_with_half_scores) = FFin (15 # 4).
Proof.
  split.
  - pose proof (proj1 (mean_invariant_holds (fun _ => raise APIError) sample_idea
                         reply_without_optional)) as H.
    unfold mean_invariant in H.
    replace (scores (_parse_claude_response reply_without_optional))
      with [ {| dimension := PyStr "User value"; score := PyInt 4;
                reasoning := PyStr "Clear" |};
             {| dimension := PyStr "Data dependencies"; score := PyInt 3;
                reasoning := PyStr "Few" |} ] in H
      by (vm_compute; reflexivity).
    destruct H as (_ & H & _). destruct (H [4; 3] eq_refl) as [-> _].
    vm_compute. reflexivity.
  - pose proof (proj1 (mean_invariant_holds (fun _ => raise APIError) sample_idea
                         reply_with_half_scores)) as H.
    unfold mean_invariant in H.
    replace (scores (_parse_claude_response reply_with_half_scores))
      with [ {| dimension := PyStr "User value"; score := PyFloat (FFin (9 # 2));
                reasoning := PyStr "Clear" |};
             {| dimension := PyStr "Data dependencies"; score := PyInt 3;
                reasoning := PyStr "Few" |} ] in H
      by (vm_compute; reflexivity).
    destruct H as (_ & _ & H).
    rewrite (H 1 [9 # 2; inject_Z 3]%Q (Qsum [9 # 2; inject_Z 3] / inject_Z 2)%Q eq_refl);
      [vm_compute; reflexivity | | reflexivity].
    split; [lia |]. split; [| split; [vm_compute; reflexivity | vm_compute; reflexivity]].
    repeat constructor; [exists 9 | exists 6]; vm_compute; reflexivity.
Defined.

(** C2 as it is written fails.  The reply below has two scores of 1.7e308:
    it is parsed without error, the arithmetic mean of its scores is that
    float, and the overall score is infinite, because the sum of the two
    leaves the range of the floats before it is divided. *)
Lemma large_scores_mean_infinite :
  exists x : Q,
    run_parse_claude_response reply_with_large_scores
    = (_parse_claude_response reply_with_large_scores, [])
    /\ map score (scores (_parse_claude_response reply_with_large_scores))
       = [PyFloat (FFin x); PyFloat (FFin x)]
    /\ (exists mean,
          arithmetic_mean [PyFloat (FFin x); PyFloat (FFin x)] = Some mean
          /\ (mean == x)%Q)
    /\ Py.float_of_Q x = FFin x
    /\ overall_score (_parse_claude_response reply_with_large_scores) = FInf false.
Proof.
  eexists. split; [vm_compute; reflexivity |].
  split; [vm_compute; reflexivity |].
  split; [eexists; split; [reflexivity | vm_compute; reflexivity] |].
  split; vm_compute; reflexivity.
Qed.

(** * Further properties of the code *)

(** ** The candidate payload and the outcome of an analysis *)

(** X1.  The candidate of lines 120 to 122 is the text from the first opening
    brace to the last closing brace when the reply has a closing brace after
    its first opening one.  In every other case (no opening brace, no closing
    brace, or the last closing brace before the first opening one) it is
    empty or a lone closing brace, and [_parse_claude_response] returns the
    result of [_create_empty_result] and shows a decoding error. *)
Theorem candidate_characterised (response : string) :
  (exists pre mid post,
      response = pre ++ String "{" (mid ++ String "}" post)
      /\ mem "{" pre = false /\ mem "}" post = false
      /\ json_str response = String "{" (mid ++ "}"))
  \/ ((json_str response = "" \/ json_str response = "}")
      /\ run_parse_claude_response response = (_create_empty_result, [JSONDecodeError])).
Proof.
  destruct (json_str_shape response) as [(pre & mid & post & -> & Hpre & Hpost) | H].
  - left. exists pre, mid, post. repeat split; try assumption.
    apply json_str_wrapped; assumption.
  - right. split; [exact H |].
    apply run_parse_inl. unfold parse_body.
    destruct H as [-> | ->]; [rewrite loads_empty | rewrite loads_closing_brace];
      reflexivity.
Qed.

Lemma run_analyze_idea_value (client : string -> result string) (idea_input : IdeaInput) :
  fst (Page.run_analyze_idea client idea_input) = analyze_idea client idea_input.
Proof.
  unfold Page.run_analyze_idea, analyze_idea, _parse_claude_response.
  destruct (client (_build_analysis_prompt idea_input)) as [e | text]; [reflexivity |].
  destruct (run_parse_claude_response text) as [r errors]. reflexivity.
Qed.

(** A result that the body of the [try] builds has scores. *)
Lemma built_result_has_scores (response : string) (r : AnalysisResult) :
  parse_body response = inr r -> scores r <> [].
Proof.
  unfold parse_body. intros H. apply bind_inr in H as (data & _ & H).
  apply result_of_data_inr in H as (_ & _ & _ & total & _ & _ & _ & _ & _ & Hdiv & _).
  intros Hnil. rewrite Hnil in Hdiv. exact (PyFacts.truediv_by_zero _ _ Hdiv).
Qed.

(** The two ways a call of [analyze_idea] ends. *)
Lemma analyze_idea_ends (client : string -> result string) (idea_input : IdeaInput) :
  let run := Page.run_analyze_idea client idea_input in
  (fst run = _create_empty_result /\ exists n, snd run = [n])
  \/ (snd run = []
      /\ scores (fst run) <> []
      /\ fst run <> _create_empty_result
      /\ exists text,
           client (_build_analysis_prompt idea_input) = inr text
           /\ parse_body text = inr (fst run)).
Proof.
  unfold Page.run_analyze_idea, run_parse_claude_response.
  destruct (client (_build_analysis_prompt idea_input)) as [e | text];
    [left; split; [reflexivity | simpl; eauto] |].
  destruct (parse_body text) as [e | r] eqn:E; simpl.
  - left. split; [reflexivity | eauto].
  - right. pose proof (built_result_has_scores _ _ E) as Hs.
    repeat split; [exact Hs | | eauto].
    intros ->. apply Hs. reflexivity.
Qed.

(** X2.  A call of [analyze_idea] ends in one of two ways.  Either it returns
    the result of [_create_empty_result] and shows exactly one error; or it
    shows no error, the client gave a reply, the result is the one built from
    that reply, it has at least one score, and so it differs from the result
    of [_create_empty_result]: the two ways can be told apart by the scores. *)
Theorem analysis_outcome (client : string -> result string) (idea_input : IdeaInput) :
  let r := analyze_idea client idea_input in
  let errors := snd (Page.run_analyze_idea client idea_input) in
  (r = _create_empty_result /\ exists n, errors = [n])
  \/ (errors = []
      /\ scores r <> []
      /\ r <> _create_empty_result
      /\ exists text,
           client (_build_analysis_prompt idea_input) = inr text
           /\ parse_body text = inr r).
Proof.
  cbv zeta. rewrite <- run_analyze_idea_value.
  exact (analyze_idea_ends client idea_input).
Qed.

(** X3.  Only the seven keys of the schema are read from a reply: two replies
    whose payloads have the same values under them end the same way, with the
    same result and the same errors, whatever other keys they have and in
    whatever order the keys come. *)
Theorem only_schema_keys_matter
    (response1 response2 : string) (kvs1 kvs2 : list (string * pyval)) :
  Json.loads (json_str response1) = inr (PyDict kvs1) ->
  Json.loads (json_str response2) = inr (PyDict kvs2) ->
  (forall k, In k schema_fields -> Py.lookup k kvs1 = Py.lookup k kvs2) ->
  run_parse_claude_response response1 = run_parse_claude_response response2.
Proof.
  intros H1 H2 Hsame. unfold run_parse_claude_response.
  rewrite (parse_body_loads _ _ H1), (parse_body_loads _ _ H2).
  replace (result_of_data (PyDict kvs1)) with (result_of_data (PyDict kvs2));
    [reflexivity |].
  unfold result_of_data, Py.getitem, Py.get.
  rewrite !Hsame by (simpl; auto 10). reflexivity.
Qed.

Lemma only_schema_keys_witness :
  run_parse_claude_response reply_with_notes
  = run_parse_claude_response reply_without_optional.
Proof.
  eapply (only_schema_keys_matter reply_with_notes reply_without_optional).
  - vm_compute. reflexivity.
  - vm_compute. reflexivity.
  - intros k Hk. simpl in Hk.
    destruct Hk as [<- | [<- | [<- | [<- | [<- | [<- | [<- | []]]]]]]];
      vm_compute; reflexivity.
Defined.

(** ** Scores that are not an array of entries with numbers *)

(** X4.  The scores of a reply have to be a JSON array: when the value under
    scores is anything else (an object, a string, a number, a boolean or
    null, empty or not), [_parse_claude_response] returns the result of
    [_create_empty_result] and shows an error. *)
Theorem scores_not_an_array_fails
    (response : string) (kvs : list (string * pyval)) (v : pyval) :
  Json.loads (json_str response) = inr (PyDict kvs) ->
  Py.lookup "scores" kvs = Some v ->
  (forall l, v <> PyList l) ->
  exists e, run_parse_claude_response response = (_create_empty_result, [e]).
Proof.
  intros Hl Hs Hv. apply (parse_failure _ _ Hl). intros r Hr.
  apply result_of_data_inr in Hr
    as (kvs' & entries & items & total & Heq & Hs' & Hit & Hm & _ & Hdiv & _).
  inversion Heq; subst kvs'. rewrite Hs in Hs'. inversion Hs'; subst entries.
  assert (Hne : items <> []).
  { intros ->. simpl in Hm. inversion Hm as [Hnil]. rewrite <- Hnil in Hdiv.
    exact (PyFacts.truediv_by_zero _ _ Hdiv). }
  destruct v as [| b | z | f | s | l | entry]; simpl in Hit; try discriminate.
  - inversion Hit; subst items.
    destruct (list_ascii_of_string s) as [| c cs]; [now apply Hne |].
    simpl in Hm. discriminate.
  - destruct (Hv l). reflexivity.
  - inversion Hit; subst items.
    destruct entry as [| [k x] entry]; [now apply Hne |].
    simpl in Hm. discriminate.
Qed.

Lemma scores_not_an_array_witness :
  exists e,
    run_parse_claude_response reply_with_scores_object = (_create_empty_result, [e]).
Proof.
  eapply (scores_not_an_array_fails reply_with_scores_object).
  - vm_compute. reflexivity.
  - vm_compute. reflexivity.
  - intros l. discriminate.
Defined.

(** X5.  Every entry of the scores has to be a JSON object whose score is a
    number: an entry that is not an object, or an entry whose score is a
    string, null, an array or an object, makes [_parse_claude_response]
    return the result of [_create_empty_result] and show an error. *)
Theorem malformed_entry_fails
    (response : string) (kvs : list (string * pyval)) (items : list pyval)
    (item : pyval) :
  Json.loads (json_str response) = inr (PyDict kvs) ->
  Py.lookup "scores" kvs = Some (PyList items) ->
  In item items ->
  (forall entry, item <> PyDict entry)
  \/ (exists entry v,
        item = PyDict entry /\ Py.lookup "score" entry = Some v /\ is_number v = false) ->
  exists e, run_parse_claude_response response = (_create_empty_result, [e]).
Proof.
  intros Hl Hs Hin Hbad. apply (parse_failure _ _ Hl).
  destruct Hbad as [Hnot | (entry & v & -> & Hv & Hnum)].
  - apply (rejected_entry_fails kvs items Hs item Hin). intros s Hinit.
    apply EvaluationScore_init_inr in Hinit as (entry & -> & _).
    destruct (Hnot entry). reflexivity.
  - intros r Hr.
    destruct (Forall2_In_l _ _ _ _ (built_result_entries kvs items Hs r Hr) Hin)
      as (s & Hs_in & Hinit).
    apply EvaluationScore_init_inr in Hinit as (entry' & Heq & _ & _ & Hsc & _).
    inversion Heq; subst entry'. rewrite Hv in Hsc. inversion Hsc; subst v.
    apply result_of_data_inr in Hr as (_ & _ & _ & total & _ & _ & _ & _ & Hsum & _).
    apply PyFacts.sum_from_numbers in Hsum. rewrite Forall_forall in Hsum.
    rewrite (Hsum (score s) (in_map score _ _ Hs_in)) in Hnum. discriminate.
Qed.

Lemma malformed_entry_witness :
  exists e,
    run_parse_claude_response reply_with_text_score = (_create_empty_result, [e]).
Proof.
  eapply (malformed_entry_fails reply_with_text_score).
  - vm_compute. reflexivity.
  - vm_compute. reflexivity.
  - left. reflexivity.
  - right. eexists _, (PyStr "4"). split; [reflexivity |].
    split; [vm_compute; reflexivity | reflexivity].
Defined.

(** ** The overall score of integer scores *)

(** The mean lines 126 computes for integer scores. *)
Lemma integer_mean (zs : list Z) (total : pyval) (overall : pyfloat) :
  Py.sum (map PyInt zs) = inr total ->
  Py.truediv total (Z.of_nat (List.length zs)) = inr overall ->
  exists p,
    Z.of_nat (List.length zs) = Zpos p
    /\ overall = FFin (Py.round53 (inject_Z (Py.Zsum zs) / inject_Z (Zpos p))).
Proof.
  rewrite PyFacts.sum_ints. intros Ht Hdiv. inversion Ht; subst total.
  unfold Py.truediv in Hdiv. cbn [Py.as_number bind ret] in Hdiv.
  destruct (Z.of_nat (List.length zs)) as [| p | p] eqn:Hn; [discriminate | | lia].
  exists p. split; [reflexivity |]. cbn [Z.eqb] in Hdiv.
  destruct (Py.overflows _); [discriminate |]. unfold ret in Hdiv. congruence.
Qed.

Lemma Zsum_between (zs : list Z) (lo hi : Z) :
  Forall (fun z => lo <= z <= hi) zs ->
  lo * Z.of_nat (List.length zs) <= Py.Zsum zs <= hi * Z.of_nat (List.length zs).
Proof.
  induction 1 as [| z zs Hz _ IH]; unfold Py.Zsum in *; simpl fold_right;
    simpl List.length; lia.
Qed.

(** What a built result tells about integer scores. *)
Lemma built_integer_scores (response : string) (r : AnalysisResult) (zs : list Z) :
  parse_body response = inr r ->
  map score (scores r) = map PyInt zs ->
  exists p,
    Z.of_nat (List.length zs) = Zpos p
    /\ overall_score r = FFin (Py.round53 (inject_Z (Py.Zsum zs) / inject_Z (Zpos p))).
Proof.
  unfold parse_body. intros H Hzs. apply bind_inr in H as (data & _ & H).
  apply result_of_data_inr in H as (_ & _ & _ & total & _ & _ & _ & _ & Hsum & Hdiv & _).
  rewrite Hzs in Hsum.
  assert (Hlen : List.length (scores r) = List.length zs)
    by (rewrite <- (length_map score), Hzs; apply length_map).
  rewrite Hlen in Hdiv. exact (integer_mean zs total _ Hsum Hdiv).
Qed.

(** The mean of integers from [lo] to [hi] lies between them. *)
Lemma quotient_between (s lo hi : Z) (p : positive) :
  lo * Zpos p <= s <= hi * Zpos p ->
  (inject_Z lo <= inject_Z s / inject_Z (Zpos p) <= inject_Z hi)%Q.
Proof.
  intros H. unfold Qle, Qdiv, Qmult, Qinv, inject_Z. cbn [Qnum Qden].
  rewrite !Z.mul_1_r, Pos.mul_1_l. lia.
Qed.

(** X6.  The overall score of integer scores lies between the least and the
    greatest of them: when every score of a built result is an integer from
    [lo] to [hi], two integers that floats hold exactly (at most [2 ^ 53] in
    absolute value), the overall score is a finite number from [lo] to [hi]:
    the rounding of the mean does not take it out of the range (from 0 to 5
    for scores from 0 to 5). *)
Theorem overall_score_within_score_range
    (response : string) (r : AnalysisResult) (zs : list Z) (lo hi : Z) :
  parse_body response = inr r ->
  map score (scores r) = map PyInt zs ->
  Forall (fun z => lo <= z <= hi) zs ->
  - 2 ^ 53 <= lo -> hi <= 2 ^ 53 ->
  exists q, overall_score r = FFin q /\ (inject_Z lo <= q <= inject_Z hi)%Q.
Proof.
  intros Hr Hzs Hrange Hlo Hhi.
  destruct (built_integer_scores _ _ _ Hr Hzs) as (p & Hp & ->).
  pose proof (Zsum_between zs lo hi Hrange) as Hsum. rewrite Hp in Hsum.
  assert (Hle : lo <= hi) by nia.
  destruct (quotient_between _ _ _ _ Hsum) as [Hge Hle'].
  eexists. split; [reflexivity |]. split.
  - apply FloatFacts.round53_ge_Z; [lia | exact Hge].
  - apply FloatFacts.round53_le_Z; [lia | exact Hle'].
Qed.

Lemma overall_score_range_witness :
  exists q,
    overall_score (_parse_claude_response reply_without_optional) = FFin q
    /\ (0 <= q <= 5)%Q.
Proof.
  assert (Hr : parse_body reply_without_optional
               = inr (_parse_claude_response reply_without_optional))
    by (vm_compute; reflexivity).
  apply (overall_score_within_score_range reply_without_optional _ [4; 3] 0 5 Hr).
  - vm_compute. reflexivity.
  - repeat constructor; lia.
  - vm_compute. discriminate.
  - vm_compute. discriminate.
Defined.

(** ** What [main] shows *)

Lemma quotient_sign (s : Z) (p : positive) :
  (0 < s -> (0 < inject_Z s / inject_Z (Zpos p))%Q)
  /\ (s <= 0 -> (inject_Z s / inject_Z (Zpos p) <= 0)%Q).
Proof.
  unfold Qlt, Qle, Qdiv, Qmult, Qinv, inject_Z. cbn [Qnum Qden]. split; lia.
Qed.

Lemma positive_mean (s : Z) (p : positive) :
  Page.positive (FFin (Py.round53 (inject_Z s / inject_Z (Zpos p)))) = (0 <? s).
Proof.
  unfold Page.positive. destruct (quotient_sign s p) as [Hpos Hneg].
  destruct (Z.ltb_spec 0 s) as [Hs | Hs].
  - pose proof (FloatFacts.round53_pos _ (Hpos Hs)) as Hq.
    destruct (Qle_bool _ 0) eqn:E; [| reflexivity].
    apply Qle_bool_iff in E. lra.
  - specialize (Hneg Hs).
    assert (Hr : (Py.round53 (inject_Z s / inject_Z (Zpos p)) <= 0)%Q).
    { destruct (Qlt_le_dec (inject_Z s / inject_Z (Zpos p)) 0) as [Hlt | Hge].
      - apply Qlt_le_weak, FloatFacts.round53_neg, Hlt.
      - rewrite FloatFacts.round53_zero; [apply Qle_refl | lra]. }
    apply Qle_bool_iff in Hr. rewrite Hr. reflexivity.
Qed.

Lemma positive_sum (zs : list Z) :
  Forall (fun z => 0 <= z) zs ->
  (0 <? Py.Zsum zs) = existsb (fun z => 0 <? z) zs.
Proof.
  induction 1 as [| z zs Hz Hzs IH]; [reflexivity |].
  unfold Py.Zsum in *. simpl. rewrite <- IH.
  assert (0 <= fold_right Z.add 0 zs).
  { clear IH. induction Hzs; simpl; lia. }
  destruct (Z.ltb_spec 0 z), (Z.ltb_spec 0 (fold_right Z.add 0 zs)),
    (Z.ltb_spec 0 (z + fold_right Z.add 0 zs)); simpl; try reflexivity; lia.
Qed.

(** X7.  Line 338 shows the results of a reply only when its overall score is
    above 0.  For a built result whose scores are integers that are not
    negative, that is so exactly when one of the scores is above 0: a reply
    that parses without any error but gives 0 for every dimension has its
    results left out of the page. *)
Theorem results_shown_iff_positive_score
    (response : string) (r : AnalysisResult) (zs : list Z) :
  parse_body response = inr r ->
  map score (scores r) = map PyInt zs ->
  Forall (fun z => 0 <= z) zs ->
  Page.positive (overall_score r) = existsb (fun z => 0 <? z) zs.
Proof.
  intros Hr Hzs Hpos.
  destruct (built_integer_scores _ _ _ Hr Hzs) as (p & _ & ->).
  rewrite positive_mean. apply positive_sum. exact Hpos.
Qed.

Lemma results_not_shown_witness :
  run_parse_claude_response reply_with_zero_scores
  = (_parse_claude_response reply_with_zero_scores, [])
  /\ Page.positive (overall_score (_parse_claude_response reply_with_zero_scores)) = false.
Proof.
  assert (Hr : parse_body reply_with_zero_scores
               = inr (_parse_claude_response reply_with_zero_scores))
    by (vm_compute; reflexivity).
  split; [apply run_parse_inr; exact Hr |].
  rewrite (results_shown_iff_positive_score reply_with_zero_scores _ [0; 0] Hr).
  - reflexivity.
  - vm_compute. reflexivity.
  - repeat constructor; lia.
Defined.

(** X8.  When a run of [main] shows results, they come from a reply that was
    parsed without error: the key was set, the form was submitted with an
    idea, target users and goals that are not empty, the client gave a reply
    to the prompt built from the form, no error was shown, the result is the
    one built from that reply, and it has scores.  The result of
    [_create_empty_result], with its summary "Analysis failed", is never
    shown. *)
Theorem shown_results_come_from_parsed_reply
    (api_key : option string) (form : Page.Form) (client : string -> result string)
    (r : AnalysisResult) (errors : list Page.notice) :
  Page.main api_key form client = Page.Analysed r errors true ->
  errors = []
  /\ r <> _create_empty_result
  /\ scores r <> []
  /\ (exists k, api_key = Some k /\ k <> "")
  /\ Page.form_submitted form = true
  /\ Page.form_idea form <> ""
  /\ Page.form_target_users form <> ""
  /\ Page.form_goals form <> ""
  /\ exists text,
       client (_build_analysis_prompt
                 {| idea := Page.form_idea form;
                    target_users := Page.form_target_users form;
                    time_constraint := Page.form_time_constraint form;
                    team_size := Page.form_team_size form;
                    goals := Page.form_goals form |}) = inr text
       /\ parse_body text = inr r.
Proof.
  unfold Page.main.
  destruct api_key as [k |]; [| discriminate].
  destruct (String.eqb_spec k "") as [| Hk]; [discriminate |]. cbn [negb].
  destruct (Page.form_submitted form); [| discriminate]. cbn [andb].
  destruct (String.eqb_spec (Page.form_idea form) "") as [| Hi]; [discriminate |].
  destruct (String.eqb_spec (Page.form_target_users form) "") as [| Hu]; [discriminate |].
  destruct (String.eqb_spec (Page.form_goals form) "") as [| Hg]; [discriminate |].
  cbn [negb andb].
  set (input := {| idea := Page.form_idea form |}).
  pose proof (analyze_idea_ends client input) as Hcases. cbv zeta in Hcases.
  destruct (Page.run_analyze_idea client input) as [r' errors']. simpl in Hcases.
  intros H. inversion H as [[Hr He Hshown]]. subst r' errors'.
  destruct Hcases as [[-> _] | (-> & Hs & Hne & Htext)]; [discriminate |].
  repeat split; try assumption. exists k. auto.
Qed.

Lemma shown_results_witness :
  exists r,
    Page.main (Some "key") sample_form (fun _ => ret reply_without_optional)
    = Page.Analysed r [] true
    /\ r <> _create_empty_result.
Proof.
  eexists. split; [vm_compute; reflexivity |].
  eapply (shown_results_come_from_parsed_reply (Some "key") sample_form
            (fun _ => ret reply_without_optional)).
  vm_compute. reflexivity.
Defined.

(** ** The prompt and the interpreter together *)

Lemma of_uint_no_brace (d : Decimal.uint) :
  mem "{" (NilEmpty.string_of_uint d) = false.
Proof. induction d; simpl; assumption || reflexivity. Qed.

Lemma of_int_no_brace (n : Z) : mem "{" (of_int n) = false.
Proof.
  unfold of_int, NilEmpty.string_of_int.
  destruct (Z.to_int n); simpl; apply of_uint_no_brace.
Qed.

(** The format the prompt ends with: a block in braces that is not JSON. *)
Lemma template_format_block :
  exists before mid,
    prompt_after_goals = before ++ String "{" (mid ++ String "}" (String newline ""))
    /\ mem "{" before = false
    /\ Json.loads (String "{" (mid ++ "}")) = inl JSONDecodeError.
Proof.
  exists (substring 0 586 prompt_after_goals).
  exists (substring 587 2594 prompt_after_goals).
  repeat split; vm_compute; reflexivity.
Qed.

(** X9.  A reply that merely repeats the prompt is a failure.  The format the
    prompt asks for is shown in it with a comment and a comma before a closing
    bracket, which [json.loads] does not take: when the idea, the target users
    and the goals have no opening brace, [_parse_claude_response] on the
    prompt itself returns the result of [_create_empty_result] with a decoding
    error. *)
Theorem echoed_prompt_is_rejected (idea_input : IdeaInput) :
  mem "{" (idea idea_input) = false ->
  mem "{" (target_users idea_input) = false ->
  mem "{" (goals idea_input) = false ->
  run_parse_claude_response (_build_analysis_prompt idea_input)
  = (_create_empty_result, [JSONDecodeError]).
Proof.
  intros Hi Hu Hg.
  destruct template_format_block as (before & mid & Ht & Hb & Hl).
  apply run_parse_inl. unfold parse_body.
  replace (_build_analysis_prompt idea_input)
    with ((prompt_head ++ idea idea_input
           ++ prompt_after_idea ++ target_users idea_input
           ++ prompt_after_target_users ++ of_int (time_constraint idea_input)
           ++ prompt_after_time_constraint ++ of_int (team_size idea_input)
           ++ prompt_after_team_size ++ goals idea_input ++ before)
          ++ String "{" (mid ++ String "}" (String newline "")))
    by (unfold _build_analysis_prompt; rewrite Ht, !app_assoc; reflexivity).
  rewrite json_str_wrapped; [rewrite Hl; reflexivity | | reflexivity].
  rewrite !mem_app, Hi, Hu, Hg, Hb, !of_int_no_brace. reflexivity.
Qed.

Lemma echoed_prompt_witness :
  _parse_claude_response (_build_analysis_prompt sample_idea) = _create_empty_result.
Proof.
  unfold _parse_claude_response.
  rewrite (echoed_prompt_is_rejected sample_idea); reflexivity.
Defined.

(** X10.  The prompt puts the values of the fields between its lines as they
    are, with nothing that marks where a value ends.  An idea that goes on
    with the line that introduces the target users gives the same prompt as
    the idea cut there with the rest given as target users: different inputs
    can give one prompt. *)
Theorem prompt_fields_not_delimited (a b c g : string) (hours people : Z) :
  a ++ prompt_after_idea ++ b <> a
  /\ _build_analysis_prompt
       {| idea := a ++ prompt_after_idea ++ b; target_users := c;
          time_constraint := hours; team_size := people; goals := g |}
     = _build_analysis_prompt
         {| idea := a; target_users := b ++ prompt_after_idea ++ c;
            time_constraint := hours; team_size := people; goals := g |}.
Proof.
  split.
  - intros H. apply (f_equal String.length) in H.
    rewrite !length_app in H. change (String.length prompt_after_idea) with 15%nat in H.
    lia.
  - unfold _build_analysis_prompt.
    cbn [idea target_users time_constraint team_size goals].
    rewrite !app_assoc. reflexivity.
Qed.

(** ** The columns of the tech stack *)

Module PageFacts.

Import Page.

Lemma enumerate_bounds {A : Type} (l : list A) (start i : Z) (a : A) :
  In (i, a) (enumerate start l) -> start <= i < start + Z.of_nat (List.length l).
Proof.
  revert start. induction l as [| x l IH]; intros start; simpl; [contradiction |].
  intros [H | H].
  - inversion H. lia.
  - apply IH in H. lia.
Qed.

Lemma chars_nonempty (s : string) : s <> "" -> PyText.chars s <> [].
Proof.
  destruct s as [| c r]; [congruence |]. intros _. simpl.
  destruct r as [| c2 r']; [discriminate |].
  destruct (PyText.is_continuation c2); [| discriminate].
  unfold PyText.cons_head. destruct (PyText.chars (String c2 r')); discriminate.
Qed.

(** A value that is true and has items has at least one. *)
Lemma truthy_items (v : pyval) (items : list pyval) :
  truthy v = true -> sized_items v = inr items -> items <> [].
Proof.
  destruct v as [| b | z | f | s | l | kvs]; simpl; try discriminate;
    intros Ht Hi; inversion Hi; subst items.
  - destruct (String.eqb_spec s ""); [discriminate |].
    intros H. apply map_eq_nil in H. now apply (chars_nonempty s).
  - destruct l; [discriminate | discriminate].
  - destruct kvs; [discriminate | discriminate].
Qed.

Lemma nth_error_columns (n k : Z) :
  0 <= k < n -> nth_error (columns n) (Z.to_nat k) = Some k.
Proof.
  intros H. unfold columns. rewrite nth_error_map.
  rewrite (nth_error_nth' _ 0%nat) by (rewrite length_seq; lia).
  rewrite seq_nth by lia. simpl. f_equal. lia.
Qed.

(** The layout of the technologies of one category. *)
Lemma place_technologies_in_range (technologies : pyval) (n : Z)
    (placed : list (option Z * pyval)) :
  truthy technologies = true ->
  place_technologies technologies = inr (n, placed) ->
  1 <= n <= 3
  /\ Forall (fun p => exists c, fst p = Some c /\ 0 <= c < n) placed.
Proof.
  intros Ht H. unfold place_technologies in H.
  apply bind_inr in H as (items & Hitems & H).
  pose proof (truthy_items _ _ Ht Hitems) as Hne.
  inversion H; subst n placed. clear H.
  assert (Hlen : 0 < Z.of_nat (List.length items))
    by (destruct items; [congruence | simpl; lia]).
  split; [lia |].
  apply Forall_forall. intros p Hp. apply in_map_iff in Hp as ([i tech] & <- & Hin).
  apply enumerate_bounds in Hin. cbn [fst snd].
  exists (i mod 3).
  assert (Hmod : 0 <= i mod 3 < Z.min (Z.of_nat (List.length items)) 3).
  { pose proof (Z.mod_pos_bound i 3 ltac:(lia)) as Hb.
    destruct (Z.lt_ge_cases i 3) as [Hsmall | Hbig].
    - rewrite Z.mod_small by lia. lia.
    - lia. }
  split; [apply nth_error_columns; exact Hmod | exact Hmod].
Qed.

(** X11.  The tech stack is laid out without an index out of range.  For each
    category with technologies, lines 372 to 375 ask for between 1 and 3
    columns, and every technology goes to a column that is there: the index
    [i % 3] never leaves the columns asked for, also when there are fewer
    than three technologies. *)
Theorem tech_columns_in_range (stack : pyval)
    (layout : list (string * (Z * list (option Z * pyval)))) :
  tech_stack_layout stack = inr layout ->
  Forall (fun category =>
            1 <= fst (snd category) <= 3
            /\ Forall (fun p => exists c, fst p = Some c /\ 0 <= c < fst (snd category))
                 (snd (snd category)))
    layout.
Proof.
  unfold tech_stack_layout. destruct (truthy stack).
  - destruct stack as [| | | | | | kvs]; try discriminate.
    intros H. apply mapM_Forall2 in H.
    assert (Htruthy : Forall (fun kv => truthy (snd kv) = true)
                        (filter (fun kv => truthy (snd kv)) kvs)).
    { apply Forall_forall. intros kv Hkv. apply filter_In in Hkv. tauto. }
    induction H as [| kv category kvs' layout' Hkv _ IH]; constructor.
    + inversion Htruthy as [| ? ? Hhead _]; subst.
      apply bind_inr in Hkv as ([n placed] & Hplace & Hret).
      inversion Hret; subst category. cbn [fst snd].
      exact (place_technologies_in_range _ _ _ Hhead Hplace).
    + apply IH. inversion Htruthy; assumption.
  - intros H. inversion H. constructor.
Qed.

(** ** The keys of the check list *)

Lemma of_int_injective (m n : Z) : of_int m = of_int n -> m = n.
Proof.
  unfold of_int. intros H. apply DecimalZ.to_int_inj.
  assert (Hs : Some (Z.to_int m) = Some (Z.to_int n))
    by (rewrite <- !NilEmpty.isi, H; reflexivity).
  congruence.
Qed.

Lemma checklist_key_injective (m n : Z) :
  "task_" ++ of_int m = "task_" ++ of_int n -> m = n.
Proof. intros H. simpl in H. inversion H. now apply of_int_injective. Qed.

Lemma enumerate_keys_NoDup {A : Type} (l : list A) (start : Z) :
  NoDup (map (fun it : Z * A => "task_" ++ of_int (fst it)) (enumerate start l)).
Proof.
  revert start. induction l as [| a l IH]; intros start; simpl; constructor.
  - intros Hin. apply in_map_iff in Hin as ([i x] & Hkey & Hin).
    apply checklist_key_injective in Hkey. cbn [fst] in Hkey.
    apply enumerate_bounds in Hin. lia.
  - apply IH.
Qed.

Lemma enumerate_length {A : Type} (l : list A) (start : Z) :
  List.length (enumerate start l) = List.length l.
Proof. revert start. induction l; intros; simpl; [reflexivity | now rewrite IHl]. Qed.

(** X12.  The check boxes of the check list get keys that are all different,
    one for each task: whatever the tasks are, also when two tasks have the
    same text, no two check boxes share a key, and none has the key of the
    form. *)
Theorem checklist_keys_distinct (checklist : pyval) (items : list pyval)
    (keys : list string) :
  sized_items checklist = inr items ->
  checklist_keys checklist = inr keys ->
  NoDup keys
  /\ List.length keys = List.length items
  /\ ~ In "idea_input" keys.
Proof.
  unfold checklist_keys. intros Hi H. rewrite Hi in H. inversion H. subst keys.
  split; [apply enumerate_keys_NoDup |].
  split; [rewrite length_map; apply enumerate_length |].
  intros Hin. apply in_map_iff in Hin as ([i x] & Hkey & _). discriminate Hkey.
Qed.

End PageFacts.

Lemma tech_columns_witness :
  Page.tech_stack_layout sample_stack
  = inr [("Frontend", (2, [(Some 0, PyStr "React"); (Some 1, PyStr "TypeScript")]));
         ("Backend", (3, [(Some 0, PyStr "Node.js"); (Some 1, PyStr "Express");
                          (Some 2, PyStr "PostgreSQL"); (Some 0, PyStr "Redis")]))]
  /\ Forall (fun category =>
               1 <= fst (snd category) <= 3
               /\ Forall (fun p => exists c, fst p = Some c /\ 0 <= c < fst (snd category))
                    (snd (snd category)))
       [("Frontend", (2, [(Some 0, PyStr "React"); (Some 1, PyStr "TypeScript")]));
        ("Backend", (3, [(Some 0, PyStr "Node.js"); (Some 1, PyStr "Express");
                         (Some 2, PyStr "PostgreSQL"); (Some 0, PyStr "Redis")]))].
Proof.
  assert (H : Page.tech_stack_layout sample_stack
              = inr [("Frontend", (2, [(Some 0, PyStr "React"); (Some 1, PyStr "TypeScript")]));
                     ("Backend", (3, [(Some 0, PyStr "Node.js"); (Some 1, PyStr "Express");
                                      (Some 2, PyStr "PostgreSQL"); (Some 0, PyStr "Redis")]))])
    by (vm_compute; reflexivity).
  split; [exact H |].
  exact (PageFacts.tech_columns_in_range sample_stack _ H).
Defined.

Lemma checklist_keys_witness :
  Page.checklist_keys (PyList [PyStr "Set up repo"; PyStr "Build demo"; PyStr "Build demo"])
  = inr ["task_1"; "task_2"; "task_3"]
  /\ NoDup ["task_1"; "task_2"; "task_3"].
Proof.
  assert (H : Page.checklist_keys
                (PyList [PyStr "Set up repo"; PyStr "Build demo"; PyStr "Build demo"])
              = inr ["task_1"; "task_2"; "task_3"])
    by (vm_compute; reflexivity).
  split; [exact H |].
  exact (proj1 (PageFacts.checklist_keys_distinct
                  (PyList [PyStr "Set up repo"; PyStr "Build demo"; PyStr "Build demo"])
                  [PyStr "Set up repo"; PyStr "Build demo"; PyStr "Build demo"]
                  _ eq_refl H)).
Defined.

(** ** Text around the payload *)

(** X14.  Text around the payload does not count: a reply with prose or a
    code fence before the first opening brace and after the last closing
    brace ends as the payload alone does, with the same result and the same
    errors. *)
Theorem surrounding_text_ignored (pre mid post : string) :
  mem "{" pre = false -> mem "}" post = false ->
  run_parse_claude_response (pre ++ String "{" (mid ++ String "}" post))
  = run_parse_claude_response (String "{" (mid ++ "}")).
Proof.
  intros Hpre Hpost. unfold run_parse_claude_response, parse_body.
  rewrite (json_str_wrapped pre mid post Hpre Hpost).
  pose proof (json_str_wrapped "" mid "" eq_refl eq_refl) as Hbare.
  cbn [String.append] in Hbare. rewrite Hbare. reflexivity.
Qed.

Lemma surrounding_text_witness :
  run_parse_claude_response fenced_reply
  = run_parse_claude_response (String "{" (fenced_reply_inside ++ "}")).
Proof.
  apply (surrounding_text_ignored fenced_reply_before fenced_reply_inside
           fenced_reply_after); vm_compute; reflexivity.
Defined.

(** ** The keys the prompt asks for *)

Lemma prefix_app (v s : string) :
  String.prefix v s = true -> exists after, s = v ++ after.
Proof.
  revert s. induction v as [| a v IH]; intros s H; [exists s; reflexivity |].
  destruct s as [| b s]; simpl in H; [discriminate |].
  destruct (Ascii.ascii_dec a b) as [-> | _]; [| discriminate].
  destruct (IH s H) as [after ->]. exists after. reflexivity.
Qed.

Lemma contains_occurs (v s : string) : contains v s = true -> occurs_in v s.
Proof.
  induction s as [| b r IH]; cbn [contains]; intros H;
    apply orb_true_iff in H as [H | H]; try discriminate.
  - apply prefix_app in H as [after H]. exists "", after. exact H.
  - apply prefix_app in H as [after H]. exists "", after. exact H.
  - destruct (IH H) as (before & after & ->). exists (String b before), after.
    reflexivity.
Qed.

(** X15.  The prompt and the code that reads the reply agree on the keys.
    Whatever the idea, the format shown in the prompt has, in quotes and with
    a colon, each of the seven keys [_parse_claude_response] reads, the three
    keys of an entry of the scores, and the five keys of the slides [main]
    reads from the pitch deck. *)
Theorem prompt_asks_for_keys_read (idea_input : IdeaInput) :
  Forall (fun k => occurs_in (quoted_key k) (_build_analysis_prompt idea_input))
    (schema_fields ++ EvaluationScore_fields ++ map fst Page.slides).
Proof.
  assert (H : forallb (fun k => contains (quoted_key k) prompt_after_goals)
                (schema_fields ++ EvaluationScore_fields ++ map fst Page.slides) = true)
    by (vm_compute; reflexivity).
  rewrite forallb_forall in H. apply Forall_forall. intros k Hk.
  unfold _build_analysis_prompt. do 10 apply occurs_in_app.
  apply contains_occurs, H, Hk.
Qed.

(** ** Slides that are not text *)

Lemma mapM_raises {A B : Type} (f : A -> result B) (l : list A) (e : exn) (a : A) :
  In a l -> f a = inl e -> (forall b e', f b = inl e' -> e' = e) ->
  mapM f l = inl e.
Proof.
  intros Hin Ha Honly. induction l as [| x l IH]; [contradiction |].
  cbn [mapM]. destruct (f x) as [e' | b] eqn:Hx.
  - rewrite (Honly x e' Hx). reflexivity.
  - destruct Hin as [-> | Hin]; [congruence |].
    cbn [bind]. rewrite (IH Hin). reflexivity.
Qed.

Lemma slide_raises_only (kvs : list (string * pyval)) (key default : string) (e : exn) :
  Page.slide (PyDict kvs) key default = inl e -> e = AttributeError.
Proof.
  unfold Page.slide, Py.get.
  destruct (Py.lookup key kvs) as [[| b | z | f | s | l | d] |];
    cbn [bind]; unfold ret, raise; cbn [bind]; intros H;
    solve [discriminate H | inversion H; reflexivity].
Qed.

(** X16.  A reply can be parsed without error and still stop the page.  The
    values of the pitch deck are taken from the reply as they are, and [main]
    calls [split] on each slide: when a slide of the deck is not a text (a
    list of paragraphs, a number, null, an object), an [AttributeError] is
    raised while the page is drawn, outside every [try]. *)
Theorem slide_not_text_raises (kvs : list (string * pyval)) (key : string) (v : pyval) :
  In key (map fst Page.slides) ->
  Py.lookup key kvs = Some v ->
  (forall s, v <> PyStr s) ->
  Page.pitch_deck_lines (PyDict kvs) = inl AttributeError.
Proof.
  intros Hkey Hv Hnot. unfold Page.pitch_deck_lines.
  assert (Ht : Page.truthy (PyDict kvs) = true)
    by (destruct kvs; [discriminate Hv | reflexivity]).
  rewrite Ht. apply in_map_iff in Hkey as ([k default] & Hk & Hin).
  cbn [fst] in Hk. subst k.
  rewrite (mapM_raises _ _ AttributeError (key, default) Hin); [reflexivity | |].
  - cbn [fst snd]. unfold Page.slide, Py.get. rewrite Hv. cbn [bind ret].
    destruct v; try reflexivity. destruct (Hnot s). reflexivity.
  - intros [k d] e. apply slide_raises_only.
Qed.

Lemma slide_not_text_witness :
  run_parse_claude_response reply_with_slide_list
  = (_parse_claude_response reply_with_slide_list, [])
  /\ Page.positive (overall_score (_parse_claude_response reply_with_slide_list)) = true
  /\ Page.pitch_deck_lines (pitch_deck (_parse_claude_response reply_with_slide_list))
     = inl AttributeError.
Proof.
  split; [vm_compute; reflexivity |]. split; [vm_compute; reflexivity |].
  assert (E : pitch_deck (_parse_claude_response reply_with_slide_list)
              = PyDict [("slide1_problem", PyStr "Teams pitch badly. ");
                        ("slide2_solution", PyList [PyStr "A bot"; PyStr "A score"])])
    by (vm_compute; reflexivity).
  rewrite E.
  apply (slide_not_text_raises _ "slide2_solution" (PyList [PyStr "A bot"; PyStr "A score"])).
  - simpl. auto.
  - reflexivity.
  - intros s. discriminate.
Defined.

(** ** The paragraphs of a slide *)

Module SlideFacts.

Import PyText.

Lemma list_ascii_app (s t : string) :
  list_ascii_of_string (s ++ t) = (list_ascii_of_string s ++ list_ascii_of_string t)%list.
Proof. induction s as [| c s IH]; simpl; [reflexivity | now rewrite IH]. Qed.

Lemma rev_involutive (s : string) : rev (rev s) = s.
Proof.
  unfold rev. rewrite list_ascii_of_string_of_list_ascii, List.rev_involutive.
  apply string_of_list_ascii_of_string.
Qed.

Lemma rev_app_dot (x : string) : rev (x ++ ".") = String "." (rev x).
Proof.
  unfold rev. rewrite list_ascii_app. simpl list_ascii_of_string.
  rewrite List.rev_unit. reflexivity.
Qed.

Lemma rev_length (s : string) : String.length (rev s) = String.length s.
Proof.
  unfold rev.
  rewrite <- (string_of_list_ascii_of_string s) at 2.
  generalize (list_ascii_of_string s). intros l.
  assert (H : forall l', String.length (string_of_list_ascii l') = List.length l')
    by (induction l'; simpl; congruence).
  rewrite !H. apply List.length_rev.
Qed.

Lemma no_prefix_of_dot (ws : list string) (y : string) :
  forallb starts_without_dot ws = true ->
  List.find (fun w => String.prefix w (String "." y)) ws = None.
Proof.
  induction ws as [| w ws IH]; simpl; [reflexivity |].
  intros H. apply andb_true_iff in H as [Hw Hws].
  destruct w as [| c w]; [discriminate |]. simpl in Hw |- *.
  destruct (Ascii.ascii_dec c ".") as [-> | _]; [discriminate | now apply IH].
Qed.

(** A text that ends with a period keeps it at the end when stripped on the
    right. *)
Lemma rstrip_dot (x : string) : rstrip (x ++ ".") = x ++ ".".
Proof.
  unfold rstrip. rewrite rev_app_dot.
  destruct (String.length (x ++ ".")) as [| fuel]; cbn [strip_prefixes].
  - rewrite <- rev_app_dot. apply rev_involutive.
  - rewrite no_prefix_of_dot by (vm_compute; reflexivity).
    rewrite <- rev_app_dot. apply rev_involutive.
Qed.

Lemma prefix_before_dot (w x : string) :
  mem "." w = false -> String.prefix w (x ++ ".") = true -> exists x', x = w ++ x'.
Proof.
  revert x. induction w as [| a w IH]; intros x Hw Hp; [exists x; reflexivity |].
  simpl in Hw. apply orb_false_iff in Hw as [Ha Hw].
  destruct x as [| b x]; simpl in Hp.
  - destruct (Ascii.ascii_dec a ".") as [-> | _]; [| discriminate].
    rewrite Ascii.eqb_refl in Ha. discriminate.
  - destruct (Ascii.ascii_dec a b) as [-> | _]; [| discriminate].
    destruct (IH x Hw Hp) as [x' ->]. exists x'. reflexivity.
Qed.

Lemma drop_app (w s : string) : drop (String.length w) (w ++ s) = s.
Proof. induction w as [| a w IH]; simpl; [destruct s; reflexivity | exact IH]. Qed.

(** And also when stripped on the left. *)
Lemma lstrip_keeps_dot (fuel : nat) (x : string) :
  exists y, strip_prefixes whitespace fuel (x ++ ".") = y ++ ".".
Proof.
  revert x. induction fuel as [| fuel IH]; intros x; cbn [strip_prefixes];
    [exists x; reflexivity |].
  destruct (List.find _ whitespace) as [w |] eqn:E; [| exists x; reflexivity].
  apply List.find_some in E as [Hin Hp].
  assert (Hw : mem "." w = false).
  { assert (Hall : forallb (fun w => negb (mem "." w)) whitespace = true)
      by (vm_compute; reflexivity).
    rewrite forallb_forall in Hall. specialize (Hall w Hin).
    now apply negb_true_iff in Hall. }
  destruct (prefix_before_dot w x Hw Hp) as [x' ->].
  rewrite app_assoc, drop_app. apply IH.
Qed.

Lemma strip_dot (x : string) : exists y, strip (x ++ ".") = y ++ ".".
Proof. unfold strip, lstrip. rewrite rstrip_dot. apply lstrip_keeps_dot. Qed.

Lemma cons_head_last (c : ascii) (init : list string) (p : string) :
  exists init' p',
    (cons_head c (init ++ [p]) = init' ++ [p'])%list
    /\ (cons_head c (init ++ [(p ++ ".")%string]) = init' ++ [(p' ++ ".")%string])%list
    /\ List.length init' = List.length init.
Proof.
  destruct init as [| h t].
  - exists [], (String c p). repeat split.
  - exists (String c h :: t), p. repeat split.
Qed.

Lemma split_sentences_step (c c2 : ascii) (r : string) :
  split_sentences (String c (String c2 r))
  = if Ascii.eqb c "." && Ascii.eqb c2 " " then "" :: split_sentences r
    else cons_head c (split_sentences (String c2 r)).
Proof. reflexivity. Qed.

(** A final period stays with the last part of [split]. *)
Lemma split_final_dot_upto (n : nat) (body : string) :
  (String.length body <= n)%nat ->
  exists init p,
    split_sentences body = (init ++ [p])%list
    /\ split_sentences (body ++ ".") = (init ++ [(p ++ ".")%string])%list.
Proof.
  revert body. induction n as [| n IH]; intros body Hn.
  - destruct body; [| simpl in Hn; lia]. exists [], "". split; reflexivity.
  - destruct body as [| c r]; [exists [], ""; split; reflexivity |].
    simpl String.length in Hn.
    destruct r as [| c2 r'].
    + exists [], (String c ""). split; [reflexivity |].
      simpl. rewrite andb_false_r. reflexivity.
    + simpl String.length in Hn.
      change ((String c (String c2 r')) ++ ".") with (String c (String c2 (r' ++ "."))).
      rewrite !split_sentences_step.
      destruct (Ascii.eqb c "." && Ascii.eqb c2 " ").
      * destruct (IH r' ltac:(lia)) as (init & p & H1 & H2).
        exists ("" :: init), p. rewrite H1, H2. split; reflexivity.
      * destruct (IH (String c2 r') ltac:(simpl; lia)) as (init & p & H1 & H2).
        change (String c2 (r' ++ ".")) with (String c2 r' ++ ".").
        rewrite H1, H2.
        destruct (cons_head_last c init p) as (init' & p' & E1 & E2 & _).
        exists init', p'. split; assumption.
Qed.

Lemma paragraph_lines_app (init rest : list string) (i : Z) :
  Page.paragraph_lines i (init ++ rest)
  = (Page.paragraph_lines i init
     ++ Page.paragraph_lines (i + Z.of_nat (List.length init)) rest)%list.
Proof.
  revert i. induction init as [| p init IH]; intros i.
  - simpl. now rewrite Z.add_0_r.
  - cbn [Page.paragraph_lines List.app List.length]. rewrite IH, <- List.app_assoc.
    do 3 f_equal. lia.
Qed.

(** X13.  A slide whose text ends with a period is shown with two periods at
    its end.  Lines 392 to 397 split the text at every period followed by a
    space and put a period after each part; the last part still has its own,
    so the last text given to [st.markdown] ends with two periods (inside the
    bold marks when the slide has one paragraph only). *)
Theorem slide_final_period_doubled (body : string) :
  exists lines y,
    Page.slide_lines (body ++ ".") = (lines ++ [(y ++ "..")%string])%list
    \/ Page.slide_lines (body ++ ".") = ["**" ++ y ++ "..**"].
Proof.
  destruct (split_final_dot_upto (String.length body) body (le_n _))
    as (init & p & _ & Hsplit).
  destruct (strip_dot p) as [y Hy].
  unfold Page.slide_lines. rewrite Hsplit, paragraph_lines_app.
  cbn [Page.paragraph_lines]. rewrite Hy.
  assert (Hne : (y ++ "." =? "")%string = false)
    by (destruct y; reflexivity).
  rewrite Hne. cbn [negb]. rewrite List.app_nil_r.
  destruct init as [| p0 init].
  - exists [], y. right. simpl. rewrite !app_assoc. reflexivity.
  - exists (Page.paragraph_lines 0 (p0 :: init)), y. left.
    replace (0 + Z.of_nat (List.length (p0 :: init)) =? 0) with false
      by (symmetry; apply Z.eqb_neq; simpl; lia).
    rewrite app_assoc. reflexivity.
Qed.

End SlideFacts.

